(** * SwitchCal: store, iCalendar codec, providers and sync orchestration

    A shallow embedding of the Go sources of Djwarf/switchcal
    (pkg/calendar, pkg/providers/caldav, pkg/providers/google and the
    command's main package) together with the properties of its
    specification, and further properties of the store, the providers,
    the sync and the views.

    Conventions of the embedding.
    - A [time.Time] is an instant (nanoseconds since the Unix epoch) with
      the offset of its location; locations are fixed-offset zones.
    - The SQLite database behind [calendar.Store] is its three tables, each
      a list of rows in rowid order; SQL statements are list programs.
      [DATETIME] columns compare as instants.
    - Go [error] values are their messages.
    - Network peers, the clock, [time.Parse], [time.Format] and the go-ical
      property codec are inputs of the functions that use them.
    - A GTK view is the list of what it attaches: the day cells of the
      month grid, the sections of the sidebar. *)

From Stdlib Require Import ZArith List String Ascii Bool Lia.
From Stdlib Require Import Permutation Sorted DecimalString.
Import ListNotations.
Open Scope string_scope.
Open Scope Z_scope.

(* ================================================================== *)
(** * Package time (the part of the Go runtime the sources rely on)    *)
(* ================================================================== *)

Module GoTime.

Record Time := mkTime {
  unixNano : Z;     (* instant, ns since 1970-01-01T00:00:00Z *)
  zoneOffset : Z    (* location: seconds east of UTC *)
}.

Definition Duration := Z.
Definition Nanosecond : Duration := 1.
Definition Second : Duration := 1000000000.
Definition Minute : Duration := 60 * Second.
Definition Hour : Duration := 60 * Minute.

Definition UTC : Z := 0.

(** The zero [Time]: January 1, year 1, 00:00:00 UTC. *)
Definition zero : Time := mkTime (-62135596800 * Second) UTC.

Definition Before (t u : Time) : bool := unixNano t <? unixNano u.
Definition After (t u : Time) : bool := unixNano u <? unixNano t.
Definition Add (t : Time) (d : Duration) : Time :=
  mkTime (unixNano t + d) (zoneOffset t).
Definition Sub (t u : Time) : Duration := unixNano t - unixNano u.
Definition Location (t : Time) : Z := zoneOffset t.
Definition UnixNano (t : Time) : Z := unixNano t.

Definition isLeap (year : Z) : bool :=
  (year mod 4 =? 0) && (negb (year mod 100 =? 0) || (year mod 400 =? 0)).

(** [daysBefore m] is the number of days in a non-leap year before
    month [m+1]. *)
Definition daysBefore (m : Z) : Z :=
  nth (Z.to_nat m) [0; 31; 59; 90; 120; 151; 181; 212; 243; 273; 304; 334; 365] 0.

(** Days from 1970-01-01 to January 1 of [year]. *)
Definition daysSinceEpoch (year : Z) : Z :=
  let y := year - 1 in
  365 * (year - 1970) + (y / 4 - y / 100 + y / 400) - 477.

(** Days from 1970-01-01 to the given date; the month may be outside
    1..12 and the day outside the month, as [time.Date] allows. *)
Definition daysOf (year month day : Z) : Z :=
  let m := month - 1 in
  let year' := year + m / 12 in
  let m' := m mod 12 in
  daysSinceEpoch year' + daysBefore m'
  + (if isLeap year' && (2 <=? m') then 1 else 0) + (day - 1).

(** [time.Date]: month, day, hour, min, sec and nsec may be outside
    their usual ranges and are normalised. *)
Definition Date (year month day hour min sec nsec : Z) (loc : Z) : Time :=
  let unix := daysOf year month day * 86400 + hour * 3600 + min * 60 + sec - loc in
  mkTime (unix * Second + nsec) loc.

(** Seconds since the epoch on the wall clock of the time's location. *)
Definition abs (t : Time) : Z := unixNano t / Second + zoneOffset t.

(** Civil date of a day number (days since 1970-01-01). *)
Definition civil (days : Z) : Z * Z * Z :=
  let z := days + 719468 in
  let era := z / 146097 in
  let doe := z - era * 146097 in
  let yoe := (doe - doe / 1460 + doe / 36524 - doe / 146096) / 365 in
  let doy := doe - (365 * yoe + yoe / 4 - yoe / 100) in
  let mp := (5 * doy + 2) / 153 in
  let d := doy - (153 * mp + 2) / 5 + 1 in
  let m := if mp <? 10 then mp + 3 else mp - 9 in
  let y := yoe + era * 400 + (if m <=? 2 then 1 else 0) in
  (y, m, d).

Definition Year (t : Time) : Z := fst (fst (civil (abs t / 86400))).
Definition Month (t : Time) : Z := snd (fst (civil (abs t / 86400))).
Definition Day (t : Time) : Z := snd (civil (abs t / 86400)).
Definition HourOf (t : Time) : Z := (abs t mod 86400) / 3600.
Definition MinuteOf (t : Time) : Z := (abs t mod 3600) / 60.
Definition SecondOf (t : Time) : Z := abs t mod 60.
Definition NanosecondOf (t : Time) : Z := unixNano t mod Second.

(** [t.AddDate(years, months, days)]. *)
Definition AddDate (t : Time) (years months days : Z) : Time :=
  Date (Year t + years) (Month t + months) (Day t + days)
       (HourOf t) (MinuteOf t) (SecondOf t) (NanosecondOf t) (Location t).

(** [t.Truncate(time.Second)] on instants. *)
Definition truncSecond (t : Time) : Time :=
  mkTime (unixNano t / Second * Second) (zoneOffset t).

(** Layouts of [time.Parse] / [Format]. *)
Definition RFC3339 := "2006-01-02T15:04:05Z07:00".
Definition DateOnly := "2006-01-02".

(** [t.Weekday()], Sunday being 0: 1970-01-01 was a Thursday. *)
Definition Weekday (t : Time) : Z := (abs t / 86400 + 4) mod 7.

End GoTime.

Import GoTime.

(** Go [error] values, and results of fallible calls. *)
Definition error := string.

Inductive Result (A : Type) : Type :=
| Ok (a : A)
| Err (e : error).
Arguments Ok {A} a.
Arguments Err {A} e.

(* ================================================================== *)
(** * Package calendar: models.go                                      *)
(* ================================================================== *)

Module calendar.

Definition EventStatus := string.
Definition StatusConfirmed : EventStatus := "confirmed".
Definition StatusTentative : EventStatus := "tentative".
Definition StatusCancelled : EventStatus := "cancelled".

Definition AccountType := string.
Definition AccountTypeGoogle : AccountType := "google".
Definition AccountTypeApple : AccountType := "apple".
Definition AccountTypeOutlook : AccountType := "outlook".
Definition AccountTypeSamsung : AccountType := "samsung".
Definition AccountTypeCalDAV : AccountType := "caldav".
Definition AccountTypeLocal : AccountType := "local".

Module RecurrenceRule.
Record t := mk {
    Frequency : string;
    Interval : Z;
    Count : Z;
    Until : Time;
    ByDay : list string;
    ByMonthDay : list Z;
    ByMonth : list Z
  }.
End RecurrenceRule.

Module Event.
Record t := mk {
    ID : string;
    CalendarID : string;
    UID : string;
    Title : string;
    Description : string;
    Location : string;
    Start : Time;
End : Time;
    AllDay : bool;
    Color : string;
    Recurrence : option RecurrenceRule.t;
    Reminders : list Z;
    Created : Time;
    Modified : Time;
    ETag : string;
    Status : EventStatus;
    Cancelled : bool
  }.

  (** The Go zero value [Event{}]. *)
Definition zero : t :=
    mk "" "" "" "" "" "" GoTime.zero GoTime.zero false "" None []
       GoTime.zero GoTime.zero "" "" false.

Definition Duration (e : t) : GoTime.Duration := Sub (End e) (Start e).
Definition IsRecurring (e : t) : bool :=
    match Recurrence e with Some _ => true | None => false end.
Definition Overlaps (e other : t) : bool :=
    Before (Start e) (End other) && After (End e) (Start other).
Definition ContainsTime (e : t) (x : Time) : bool :=
    negb (Before x (Start e)) && Before x (End e).
Definition IsOnDate (e : t) (date : Time) : bool :=
    let dateStart :=
      Date (Year date) (Month date) (Day date) 0 0 0 0 (GoTime.Location date) in
    let dateEnd := Add dateStart (24 * Hour) in
    Before (Start e) dateEnd && After (End e) dateStart.

  (** Field assignments [x.F = v]. *)
Definition set_ID (x : t) (v : string) : t :=
    mk v (CalendarID x) (UID x) (Title x) (Description x) (Location x) (Start x) (End x) (AllDay x) (Color x) (Recurrence x) (Reminders x) (Created x) (Modified x) (ETag x) (Status x) (Cancelled x).
Definition set_CalendarID (x : t) (v : string) : t :=
    mk (ID x) v (UID x) (Title x) (Description x) (Location x) (Start x) (End x) (AllDay x) (Color x) (Recurrence x) (Reminders x) (Created x) (Modified x) (ETag x) (Status x) (Cancelled x).
Definition set_UID (x : t) (v : string) : t :=
    mk (ID x) (CalendarID x) v (Title x) (Description x) (Location x) (Start x) (End x) (AllDay x) (Color x) (Recurrence x) (Reminders x) (Created x) (Modified x) (ETag x) (Status x) (Cancelled x).
Definition set_Title (x : t) (v : string) : t :=
    mk (ID x) (CalendarID x) (UID x) v (Description x) (Location x) (Start x) (End x) (AllDay x) (Color x) (Recurrence x) (Reminders x) (Created x) (Modified x) (ETag x) (Status x) (Cancelled x).
Definition set_Description (x : t) (v : string) : t :=
    mk (ID x) (CalendarID x) (UID x) (Title x) v (Location x) (Start x) (End x) (AllDay x) (Color x) (Recurrence x) (Reminders x) (Created x) (Modified x) (ETag x) (Status x) (Cancelled x).
Definition set_Location (x : t) (v : string) : t :=
    mk (ID x) (CalendarID x) (UID x) (Title x) (Description x) v (Start x) (End x) (AllDay x) (Color x) (Recurrence x) (Reminders x) (Created x) (Modified x) (ETag x) (Status x) (Cancelled x).
Definition set_Start (x : t) (v : Time) : t :=
    mk (ID x) (CalendarID x) (UID x) (Title x) (Description x) (Location x) v (End x) (AllDay x) (Color x) (Recurrence x) (Reminders x) (Created x) (Modified x) (ETag x) (Status x) (Cancelled x).
Definition set_End (x : t) (v : Time) : t :=
    mk (ID x) (CalendarID x) (UID x) (Title x) (Description x) (Location x) (Start x) v (AllDay x) (Color x) (Recurrence x) (Reminders x) (Created x) (Modified x) (ETag x) (Status x) (Cancelled x).
Definition set_AllDay (x : t) (v : bool) : t :=
    mk (ID x) (CalendarID x) (UID x) (Title x) (Description x) (Location x) (Start x) (End x) v (Color x) (Recurrence x) (Reminders x) (Created x) (Modified x) (ETag x) (Status x) (Cancelled x).
Definition set_Created (x : t) (v : Time) : t :=
    mk (ID x) (CalendarID x) (UID x) (Title x) (Description x) (Location x) (Start x) (End x) (AllDay x) (Color x) (Recurrence x) (Reminders x) v (Modified x) (ETag x) (Status x) (Cancelled x).
Definition set_Modified (x : t) (v : Time) : t :=
    mk (ID x) (CalendarID x) (UID x) (Title x) (Description x) (Location x) (Start x) (End x) (AllDay x) (Color x) (Recurrence x) (Reminders x) (Created x) v (ETag x) (Status x) (Cancelled x).
Definition set_Status (x : t) (v : EventStatus) : t :=
    mk (ID x) (CalendarID x) (UID x) (Title x) (Description x) (Location x) (Start x) (End x) (AllDay x) (Color x) (Recurrence x) (Reminders x) (Created x) (Modified x) (ETag x) v (Cancelled x).
Definition set_Cancelled (x : t) (v : bool) : t :=
    mk (ID x) (CalendarID x) (UID x) (Title x) (Description x) (Location x) (Start x) (End x) (AllDay x) (Color x) (Recurrence x) (Reminders x) (Created x) (Modified x) (ETag x) (Status x) v.
End Event.

Module Calendar.
Record t := mk {
    ID : string;
    AccountID : string;
    Name : string;
    Description : string;
    Color : string;
    Visible : bool;
    ReadOnly : bool;
    SyncToken : string;
    LastSync : Time
  }.

  (** Field assignments [x.F = v]. *)
Definition set_AccountID (x : t) (v : string) : t :=
    mk (ID x) v (Name x) (Description x) (Color x) (Visible x) (ReadOnly x) (SyncToken x) (LastSync x).
Definition set_Color (x : t) (v : string) : t :=
    mk (ID x) (AccountID x) (Name x) (Description x) v (Visible x) (ReadOnly x) (SyncToken x) (LastSync x).
End Calendar.

Module Account.
Record t := mk {
    ID : string;
    Name : string;
    Type_ : AccountType;
    Email : string;
    Enabled : bool;
    ServerURL : string;
    Username : string;
    AccessToken : string;
    RefreshToken : string;
    TokenExpiry : Time;
    AppPassword : string;
    LastSync : Time
  }.

  (** Field assignments [x.F = v]. *)
Definition set_AccessToken (x : t) (v : string) : t :=
    mk (ID x) (Name x) (Type_ x) (Email x) (Enabled x) (ServerURL x) (Username x) v (RefreshToken x) (TokenExpiry x) (AppPassword x) (LastSync x).
Definition set_TokenExpiry (x : t) (v : Time) : t :=
    mk (ID x) (Name x) (Type_ x) (Email x) (Enabled x) (ServerURL x) (Username x) (AccessToken x) (RefreshToken x) v (AppPassword x) (LastSync x).
Definition set_LastSync (x : t) (v : Time) : t :=
    mk (ID x) (Name x) (Type_ x) (Email x) (Enabled x) (ServerURL x) (Username x) (AccessToken x) (RefreshToken x) (TokenExpiry x) (AppPassword x) v.
End Account.

(* ---------------------------------------------------------------- *)
(** ** store.go: the schema of [migrate]                             *)
(* ---------------------------------------------------------------- *)

(** One record per table; a column without [NOT NULL] that the scan
    helpers read through [sql.NullString] / [sql.NullTime] is an
    [option].  The [recurrence] and [reminders] text columns are held as
    the values their JSON text encodes. *)

Module AccountRow.
Record t := mk {
    id : string;
    name : string;
    type : string;
    email : option string;
    enabled : bool;
    server_url : option string;
    username : option string;
    access_token : option string;
    refresh_token : option string;
    token_expiry : option Time;
    app_password : option string;
    last_sync : option Time
  }.
End AccountRow.

Module CalendarRow.
Record t := mk {
    id : string;
    account_id : string;
    name : string;
    description : option string;
    color : option string;
    visible : bool;
    read_only : bool;
    sync_token : option string;
    last_sync : option Time
  }.
End CalendarRow.

Module EventRow.
Record t := mk {
    id : string;
    calendar_id : string;
    uid : option string;
    title : string;
    description : option string;
    location : option string;
    start_time : Time;
    end_time : Time;
    all_day : bool;
    color : option string;
    recurrence : option RecurrenceRule.t;
    reminders : list Z;
    created : option Time;
    modified : option Time;
    etag : option string;
    status : option string;
    cancelled : bool
  }.
End EventRow.

(** The database: [accounts], [calendars], [events], with
    [calendars.account_id -> accounts.id] and
    [events.calendar_id -> calendars.id], both [ON DELETE CASCADE]
    (the connection is opened with [_foreign_keys=on]). *)
Record Store := mkStore {
  accounts : list AccountRow.t;
  calendars : list CalendarRow.t;
  events : list EventRow.t
}.

(** [NewStore] on a fresh database file: [migrate] creates empty tables. *)
Definition NewStore : Store := mkStore [] [] [].

Definition errForeignKey : error := "FOREIGN KEY constraint failed".
Definition errNoRows : error := "sql: no rows in result set".

(** [WHERE key = ?] on a table with key column [key]. *)
Definition hasKey {R : Type} (key : R -> string) (k : string) (r : R) : bool :=
String.eqb (key r) k.

(** [INSERT ... ON CONFLICT(id) DO UPDATE SET ...]: the row whose key
    conflicts is updated where it stands by [doUpdate old excluded];
    without a conflict the row is appended. *)
Fixpoint upsert {R : Type} (key : R -> string) (doUpdate : R -> R -> R)
         (excluded : R) (tbl : list R) : list R :=
  match tbl with
  | [] => [excluded]
  | r :: rest =>
      if String.eqb (key r) (key excluded)
      then doUpdate r excluded :: rest
      else r :: upsert key doUpdate excluded rest
  end.

(** [ORDER BY]: a stable insertion sort. *)
Fixpoint insertBy {A : Type} (le : A -> A -> bool) (x : A) (l : list A) : list A :=
  match l with
  | [] => [x]
  | y :: rest => if le x y then x :: l else y :: insertBy le x rest
  end.

Definition orderBy {A : Type} (le : A -> A -> bool) (l : list A) : list A :=
  fold_right (insertBy le) [] l.

Definition nullString (s : option string) : string :=
  match s with Some v => v | None => "" end.

Definition nullTime (x : option Time) : Time :=
  match x with Some v => v | None => GoTime.zero end.

(* ---------------------------------------------------------------- *)
(** ** store.go: account operations                                  *)
(* ---------------------------------------------------------------- *)

(** The values [SaveAccount] binds to its statement. *)
Definition accountRow (a : Account.t) : AccountRow.t :=
  AccountRow.mk (Account.ID a) (Account.Name a) (Account.Type_ a)
    (Some (Account.Email a)) (Account.Enabled a)
    (Some (Account.ServerURL a)) (Some (Account.Username a))
    (Some (Account.AccessToken a)) (Some (Account.RefreshToken a))
    (Some (Account.TokenExpiry a)) (Some (Account.AppPassword a))
    (Some (Account.LastSync a)).

(** [DO UPDATE SET name = excluded.name, ..., last_sync = excluded.last_sync]. *)
Definition updateAccount (old excluded : AccountRow.t) : AccountRow.t :=
  AccountRow.mk (AccountRow.id old)
    (AccountRow.name excluded) (AccountRow.type excluded)
    (AccountRow.email excluded) (AccountRow.enabled excluded)
    (AccountRow.server_url excluded) (AccountRow.username excluded)
    (AccountRow.access_token excluded) (AccountRow.refresh_token excluded)
    (AccountRow.token_expiry excluded) (AccountRow.app_password excluded)
    (AccountRow.last_sync excluded).

Definition SaveAccount (s : Store) (a : Account.t) : Result Store :=
  Ok (mkStore (upsert AccountRow.id updateAccount (accountRow a) (accounts s))
              (calendars s) (events s)).

Definition scanAccount (r : AccountRow.t) : Account.t :=
  Account.mk (AccountRow.id r) (AccountRow.name r) (AccountRow.type r)
    (nullString (AccountRow.email r)) (AccountRow.enabled r)
    (nullString (AccountRow.server_url r)) (nullString (AccountRow.username r))
    (nullString (AccountRow.access_token r)) (nullString (AccountRow.refresh_token r))
    (nullTime (AccountRow.token_expiry r)) (nullString (AccountRow.app_password r))
    (nullTime (AccountRow.last_sync r)).

Definition scanAccountRows (r : AccountRow.t) : Account.t :=
  Account.mk (AccountRow.id r) (AccountRow.name r) (AccountRow.type r)
    (nullString (AccountRow.email r)) (AccountRow.enabled r)
    (nullString (AccountRow.server_url r)) (nullString (AccountRow.username r))
    (nullString (AccountRow.access_token r)) (nullString (AccountRow.refresh_token r))
    (nullTime (AccountRow.token_expiry r)) (nullString (AccountRow.app_password r))
    (nullTime (AccountRow.last_sync r)).

Definition GetAccount (s : Store) (id : string) : Result Account.t :=
  match find (hasKey AccountRow.id id) (accounts s) with
  | Some r => Ok (scanAccount r)
  | None => Err errNoRows
  end.

Definition GetAllAccounts (s : Store) : Result (list Account.t) :=
  Ok (map scanAccountRows
          (orderBy (fun a b => String.leb (AccountRow.name a) (AccountRow.name b))
                   (accounts s))).

(* ---------------------------------------------------------------- *)
(** ** store.go: calendar operations                                 *)
(* ---------------------------------------------------------------- *)

Definition calendarRow (c : Calendar.t) : CalendarRow.t :=
  CalendarRow.mk (Calendar.ID c) (Calendar.AccountID c) (Calendar.Name c)
    (Some (Calendar.Description c)) (Some (Calendar.Color c))
    (Calendar.Visible c) (Calendar.ReadOnly c)
    (Some (Calendar.SyncToken c)) (Some (Calendar.LastSync c)).

Definition updateCalendar (old excluded : CalendarRow.t) : CalendarRow.t :=
  CalendarRow.mk (CalendarRow.id old)
    (CalendarRow.account_id excluded) (CalendarRow.name excluded)
    (CalendarRow.description excluded) (CalendarRow.color excluded)
    (CalendarRow.visible excluded) (CalendarRow.read_only excluded)
    (CalendarRow.sync_token excluded) (CalendarRow.last_sync excluded).

Definition accountExists (s : Store) (id : string) : bool :=
  existsb (hasKey AccountRow.id id) (accounts s).

Definition calendarExists (s : Store) (id : string) : bool :=
  existsb (hasKey CalendarRow.id id) (calendars s).

(** The statement fails, leaving the database as it was, when the new
    [account_id] has no parent row. *)
Definition SaveCalendar (s : Store) (c : Calendar.t) : Result Store :=
  if accountExists s (Calendar.AccountID c)
  then Ok (mkStore (accounts s)
                   (upsert CalendarRow.id updateCalendar (calendarRow c) (calendars s))
                   (events s))
  else Err errForeignKey.

Definition scanCalendar (r : CalendarRow.t) : Calendar.t :=
  let color := nullString (CalendarRow.color r) in
  Calendar.mk (CalendarRow.id r) (CalendarRow.account_id r) (CalendarRow.name r)
    (nullString (CalendarRow.description r))
    (if String.eqb color "" then "#4285f4" else color)
    (CalendarRow.visible r) (CalendarRow.read_only r)
    (nullString (CalendarRow.sync_token r)) (nullTime (CalendarRow.last_sync r)).

Definition scanCalendarRows (r : CalendarRow.t) : Calendar.t :=
  let color := nullString (CalendarRow.color r) in
  Calendar.mk (CalendarRow.id r) (CalendarRow.account_id r) (CalendarRow.name r)
    (nullString (CalendarRow.description r))
    (if String.eqb color "" then "#4285f4" else color)
    (CalendarRow.visible r) (CalendarRow.read_only r)
    (nullString (CalendarRow.sync_token r)) (nullTime (CalendarRow.last_sync r)).

Definition byCalendarName (a b : CalendarRow.t) : bool :=
  String.leb (CalendarRow.name a) (CalendarRow.name b).

Definition GetCalendar (s : Store) (id : string) : Result Calendar.t :=
  match find (hasKey CalendarRow.id id) (calendars s) with
  | Some r => Ok (scanCalendar r)
  | None => Err errNoRows
  end.

Definition GetCalendarsByAccount (s : Store) (accountID : string)
  : Result (list Calendar.t) :=
  Ok (map scanCalendarRows
          (orderBy byCalendarName
             (filter (fun r => String.eqb (CalendarRow.account_id r) accountID)
                     (calendars s)))).

Definition GetAllCalendars (s : Store) : Result (list Calendar.t) :=
  Ok (map scanCalendarRows (orderBy byCalendarName (calendars s))).

Definition GetVisibleCalendars (s : Store) : Result (list Calendar.t) :=
  Ok (map scanCalendarRows
          (orderBy byCalendarName (filter CalendarRow.visible (calendars s)))).

(* ---------------------------------------------------------------- *)
(** ** store.go: deletion and the cascade of the foreign keys        *)
(* ---------------------------------------------------------------- *)

Definition deleteEventsWhere (p : EventRow.t -> bool) (s : Store) : Store :=
  mkStore (accounts s) (calendars s) (filter (fun e => negb (p e)) (events s)).

(** [ON DELETE CASCADE] of [events.calendar_id]: the events that
    reference a deleted calendar row go with it. *)
Definition cascadeCalendar (s : Store) (gone : CalendarRow.t) : Store :=
  deleteEventsWhere (hasKey EventRow.calendar_id (CalendarRow.id gone)) s.

Definition deleteCalendarsWhere (p : CalendarRow.t -> bool) (s : Store) : Store :=
  fold_left cascadeCalendar (filter p (calendars s))
    (mkStore (accounts s) (filter (fun c => negb (p c)) (calendars s)) (events s)).

(** [ON DELETE CASCADE] of [calendars.account_id]. *)
Definition cascadeAccount (s : Store) (gone : AccountRow.t) : Store :=
  deleteCalendarsWhere (hasKey CalendarRow.account_id (AccountRow.id gone)) s.

Definition deleteAccountsWhere (p : AccountRow.t -> bool) (s : Store) : Store :=
  fold_left cascadeAccount (filter p (accounts s))
    (mkStore (filter (fun a => negb (p a)) (accounts s)) (calendars s) (events s)).

(** [DELETE FROM accounts WHERE id = ?] *)
Definition DeleteAccount (s : Store) (id : string) : Result Store :=
  Ok (deleteAccountsWhere (hasKey AccountRow.id id) s).

(** [DELETE FROM calendars WHERE id = ?] *)
Definition DeleteCalendar (s : Store) (id : string) : Result Store :=
  Ok (deleteCalendarsWhere (hasKey CalendarRow.id id) s).

(** [DELETE FROM events WHERE id = ?] *)
Definition DeleteEvent (s : Store) (id : string) : Result Store :=
  Ok (deleteEventsWhere (hasKey EventRow.id id) s).

(** [DELETE FROM events WHERE calendar_id = ?] *)
Definition DeleteEventsByCalendar (s : Store) (calendarID : string) : Result Store :=
  Ok (deleteEventsWhere (hasKey EventRow.calendar_id calendarID) s).

(* ---------------------------------------------------------------- *)
(** ** store.go: event operations                                    *)
(* ---------------------------------------------------------------- *)

Definition eventRow (e : Event.t) : EventRow.t :=
  EventRow.mk (Event.ID e) (Event.CalendarID e) (Some (Event.UID e))
    (Event.Title e) (Some (Event.Description e)) (Some (Event.Location e))
    (Event.Start e) (Event.End e) (Event.AllDay e) (Some (Event.Color e))
    (Event.Recurrence e) (Event.Reminders e)
    (Some (Event.Created e)) (Some (Event.Modified e)) (Some (Event.ETag e))
    (Some (Event.Status e)) (Event.Cancelled e).

Definition updateEvent (old excluded : EventRow.t) : EventRow.t :=
  EventRow.mk (EventRow.id old)
    (EventRow.calendar_id excluded) (EventRow.uid excluded)
    (EventRow.title excluded) (EventRow.description excluded)
    (EventRow.location excluded) (EventRow.start_time excluded)
    (EventRow.end_time excluded) (EventRow.all_day excluded)
    (EventRow.color excluded) (EventRow.recurrence excluded)
    (EventRow.reminders excluded) (EventRow.created excluded)
    (EventRow.modified excluded) (EventRow.etag excluded)
    (EventRow.status excluded) (EventRow.cancelled excluded).

Definition SaveEvent (s : Store) (e : Event.t) : Result Store :=
  if calendarExists s (Event.CalendarID e)
  then Ok (mkStore (accounts s) (calendars s)
                   (upsert EventRow.id updateEvent (eventRow e) (events s)))
  else Err errForeignKey.

Definition scanEvent (r : EventRow.t) : Event.t :=
  let status := nullString (EventRow.status r) in
  Event.mk (EventRow.id r) (EventRow.calendar_id r) (nullString (EventRow.uid r))
    (EventRow.title r) (nullString (EventRow.description r))
    (nullString (EventRow.location r))
    (EventRow.start_time r) (EventRow.end_time r) (EventRow.all_day r)
    (nullString (EventRow.color r))
    (EventRow.recurrence r) (EventRow.reminders r)
    (nullTime (EventRow.created r)) (nullTime (EventRow.modified r))
    (nullString (EventRow.etag r))
    (if String.eqb status "" then StatusConfirmed else status)
    (EventRow.cancelled r).

(** The loop of [scanEvents] over the result rows. *)
Fixpoint scanEvents (rows : list EventRow.t) : list Event.t :=
  match rows with
  | [] => []
  | r :: rest =>
      let status := nullString (EventRow.status r) in
      Event.mk (EventRow.id r) (EventRow.calendar_id r) (nullString (EventRow.uid r))
        (EventRow.title r) (nullString (EventRow.description r))
        (nullString (EventRow.location r))
        (EventRow.start_time r) (EventRow.end_time r) (EventRow.all_day r)
        (nullString (EventRow.color r))
        (EventRow.recurrence r) (EventRow.reminders r)
        (nullTime (EventRow.created r)) (nullTime (EventRow.modified r))
        (nullString (EventRow.etag r))
        (if String.eqb status "" then StatusConfirmed else status)
        (EventRow.cancelled r)
      :: scanEvents rest
  end.

Definition byStartTime (a b : EventRow.t) : bool :=
  unixNano (EventRow.start_time a) <=? unixNano (EventRow.start_time b).

Definition GetEvent (s : Store) (id : string) : Result Event.t :=
  match find (hasKey EventRow.id id) (events s) with
  | Some r => Ok (scanEvent r)
  | None => Err errNoRows
  end.

(** [SELECT * FROM events WHERE calendar_id = ? AND cancelled = 0
     ORDER BY start_time] *)
Definition GetEventsByCalendar (s : Store) (calendarID : string)
  : Result (list Event.t) :=
  Ok (scanEvents
        (orderBy byStartTime
           (filter (fun e => String.eqb (EventRow.calendar_id e) calendarID
                             && negb (EventRow.cancelled e))
                   (events s)))).

(** [events e JOIN calendars c ON e.calendar_id = c.id] *)
Definition joinCalendars (s : Store) : list (EventRow.t * CalendarRow.t) :=
  flat_map
    (fun e => map (pair e)
                (filter (fun c => String.eqb (EventRow.calendar_id e) (CalendarRow.id c))
                        (calendars s)))
    (events s).

(** [WHERE c.visible = 1 AND e.cancelled = 0
     AND e.start_time < ?end AND e.end_time > ?start] *)
Definition inRange (start end_ : Time) (ec : EventRow.t * CalendarRow.t) : bool :=
  let (e, c) := ec in
  CalendarRow.visible c && negb (EventRow.cancelled e)
  && (unixNano (EventRow.start_time e) <? unixNano end_)
  && (unixNano start <? unixNano (EventRow.end_time e)).

Definition GetEventsInRange (s : Store) (start end_ : Time)
  : Result (list Event.t) :=
  Ok (scanEvents
        (orderBy byStartTime
           (map fst (filter (inRange start end_) (joinCalendars s))))).

Definition GetEventsForDate (s : Store) (date : Time) : Result (list Event.t) :=
  let start :=
    Date (Year date) (Month date) (Day date) 0 0 0 0 (GoTime.Location date) in
  let end_ := Add start (24 * Hour) in
  GetEventsInRange s start end_.

(* ---------------------------------------------------------------- *)
(** ** Integrity of a database                                       *)
(* ---------------------------------------------------------------- *)

(** [id TEXT PRIMARY KEY] on the three tables. *)
Definition keysUnique (s : Store) : Prop :=
  NoDup (map AccountRow.id (accounts s))
  /\ NoDup (map CalendarRow.id (calendars s))
  /\ NoDup (map EventRow.id (events s)).

(** The two [FOREIGN KEY] constraints. *)
Definition foreignKeysHold (s : Store) : Prop :=
  (forall c, In c (calendars s) -> accountExists s (CalendarRow.account_id c) = true)
  /\ (forall e, In e (events s) -> calendarExists s (EventRow.calendar_id e) = true).

Definition consistent (s : Store) : Prop := keysUnique s /\ foreignKeysHold s.

End calendar.

(* ================================================================== *)
(** * The go-ical data model used by package caldav                    *)
(* ================================================================== *)

Module ical.

Definition CompEvent := "VEVENT".
Definition PropUID := "UID".
Definition PropSummary := "SUMMARY".
Definition PropDescription := "DESCRIPTION".
Definition PropLocation := "LOCATION".
Definition PropDateTimeStart := "DTSTART".
Definition PropDateTimeEnd := "DTEND".
Definition PropDateTimeStamp := "DTSTAMP".
Definition PropCreated := "CREATED".
Definition PropLastModified := "LAST-MODIFIED".
Definition PropStatus := "STATUS".
Definition PropVersion := "VERSION".
Definition PropProductID := "PRODID".
Definition ParamValue := "VALUE".

(** [Params]: parameter name to value. *)
Definition Params := list (string * string).

Record Prop_ := mkProp {
  Name : string;
  Parameters : Params;
  Value : string
}.

(** [Props]: property name to property (the sources keep one per name). *)
Definition Props := list (string * Prop_).

Record Component := mkComponent {
  CompName : string;
  CompProps : Props
}.

Record Calendar := mkCalendar {
  CalProps : Props;
  Children : list Component
}.

Definition NewProp (name : string) : Prop_ := mkProp name [] "".

Fixpoint ParamsGet (ps : Params) (name : string) : string :=
  match ps with
  | [] => ""
  | (n, v) :: rest => if String.eqb n name then v else ParamsGet rest name
  end.

Fixpoint ParamsDel (ps : Params) (name : string) : Params :=
  match ps with
  | [] => []
  | (n, v) :: rest =>
      if String.eqb n name then ParamsDel rest name else (n, v) :: ParamsDel rest name
  end.

Definition ParamsSet (ps : Params) (name value : string) : Params :=
  (name, value) :: ParamsDel ps name.

(** [props.Get(name)]: the property, or nil. *)
Fixpoint Get (ps : Props) (name : string) : option Prop_ :=
  match ps with
  | [] => None
  | (n, p) :: rest => if String.eqb n name then Some p else Get rest name
  end.

Fixpoint Del (ps : Props) (name : string) : Props :=
  match ps with
  | [] => []
  | (n, p) :: rest =>
      if String.eqb n name then Del rest name else (n, p) :: Del rest name
  end.

(** [props.Set(prop)] for a property built under [name]: replaces what
    the name held. *)
Definition Set_ (ps : Props) (name : string) (p : Prop_) : Props :=
  (name, p) :: Del ps name.

(** The methods of [ical.Prop] that write and read typed values.  They
    belong to the go-ical module required by go.mod, not to this
    repository, and are an input of the codec below. *)
Record Codec := mkCodec {
  SetText : Prop_ -> string -> Prop_;
  SetDate : Prop_ -> Time -> Prop_;
  SetDateTime : Prop_ -> Time -> Prop_;
  DateTime : Prop_ -> Result Time     (* prop.DateTime(nil) *)
}.

Definition PropsSetText (k : Codec) (ps : Props) (name text : string) : Props :=
  Set_ ps name (SetText k (NewProp name) text).
Definition PropsSetDate (k : Codec) (ps : Props) (name : string) (x : Time) : Props :=
  Set_ ps name (SetDate k (NewProp name) x).
Definition PropsSetDateTime (k : Codec) (ps : Props) (name : string) (x : Time) : Props :=
  Set_ ps name (SetDateTime k (NewProp name) x).

Definition NewCalendar : Calendar := mkCalendar [] [].
Definition NewComponent (name : string) : Component := mkComponent name [].

End ical.

(** A codec in the manner of go-ical: [SetText] stores the text with
    backslash, newline, semicolon and comma escaped (its [textEscaper]);
    [SetDate] stores [20060102] under [VALUE=DATE]; [SetDateTime] stores the
    UTC form [20060102T150405Z]; [DateTime] reads both forms back. *)
Module goical.

Definition backslash : ascii := ascii_of_nat 92.
Definition newline : ascii := ascii_of_nat 10.

Fixpoint textEscaper (s : string) : string :=
  match s with
  | EmptyString => EmptyString
  | String c rest =>
      if Ascii.eqb c backslash then String backslash (String backslash (textEscaper rest))
      else if Ascii.eqb c newline then String backslash (String "n" (textEscaper rest))
      else if Ascii.eqb c ";" then String backslash (String ";" (textEscaper rest))
      else if Ascii.eqb c "," then String backslash (String "," (textEscaper rest))
      else String c (textEscaper rest)
  end.

(** [n] in decimal on [width] digits. *)
Fixpoint digits (width : nat) (n : Z) : string :=
  match width with
  | O => EmptyString
  | S w => digits w (n / 10) ++ String (ascii_of_nat (48 + Z.to_nat (n mod 10))) EmptyString
  end.

Fixpoint number (s : string) (acc : Z) : option Z :=
  match s with
  | EmptyString => Some acc
  | String c rest =>
      let d := Z.of_nat (nat_of_ascii c) - 48 in
      if (0 <=? d) && (d <=? 9) then number rest (acc * 10 + d) else None
  end.

Definition field (s : string) (from len : nat) : option Z :=
  number (substring from len s) 0.

Definition daysIn (month year : Z) : Z :=
  if (month =? 2) && isLeap year then 29
  else daysBefore month - daysBefore (month - 1).

Definition formatDate (x : Time) : string :=
  digits 4 (Year x) ++ digits 2 (Month x) ++ digits 2 (Day x).

Definition formatClock (x : Time) : string :=
  digits 2 (HourOf x) ++ digits 2 (MinuteOf x) ++ digits 2 (SecondOf x).

Definition inUTC (x : Time) : Time := mkTime (unixNano x) UTC.

Definition parseDate (s : string) : Result Time :=
  match field s 0 4, field s 4 2, field s 6 2 with
  | Some y, Some m, Some d =>
      if (String.length s =? 8)%nat && (1 <=? m) && (m <=? 12)
         && (1 <=? d) && (d <=? daysIn m y)
      then Ok (Date y m d 0 0 0 0 UTC)
      else Err "parsing time: out of range"
  | _, _, _ => Err "parsing time: cannot parse"
  end.

Definition parseDateTimeUTC (s : string) : Result Time :=
  match parseDate (substring 0 8 s), field s 9 2, field s 11 2, field s 13 2 with
  | Ok day, Some h, Some mi, Some sec =>
      if String.eqb (substring 8 1 s) "T" && String.eqb (substring 15 1 s) "Z"
         && (h <? 24) && (mi <? 60) && (sec <? 60)
      then Ok (Add day (h * Hour + mi * Minute + sec * Second))
      else Err "parsing time: out of range"
  | _, _, _, _ => Err "parsing time: cannot parse"
  end.

Definition SetText (p : ical.Prop_) (text : string) : ical.Prop_ :=
  ical.mkProp (ical.Name p) (ical.Parameters p) (textEscaper text).

Definition SetDate (p : ical.Prop_) (x : Time) : ical.Prop_ :=
  ical.mkProp (ical.Name p)
    (ical.ParamsSet (ical.Parameters p) ical.ParamValue "DATE") (formatDate x).

Definition SetDateTime (p : ical.Prop_) (x : Time) : ical.Prop_ :=
  ical.mkProp (ical.Name p)
    (ical.ParamsDel (ical.Parameters p) ical.ParamValue)
    (formatDate (inUTC x) ++ "T" ++ formatClock (inUTC x) ++ "Z").

Definition DateTime (p : ical.Prop_) : Result Time :=
  if String.eqb (ical.ParamsGet (ical.Parameters p) ical.ParamValue) "DATE"
  then parseDate (ical.Value p)
  else if (String.length (ical.Value p) =? 16)%nat
       then parseDateTimeUTC (ical.Value p)
       else Err "ical: unsupported date-time value".

Definition codec : ical.Codec := ical.mkCodec SetText SetDate SetDateTime DateTime.

End goical.

(* ================================================================== *)
(** * Package caldav: caldav.go                                        *)
(* ================================================================== *)

Module caldav.

Import calendar.

(** [caldav.CalendarObject] of go-webdav; [Data] may be nil. *)
Record CalendarObject := mkObject {
  Path : string;
  ETag : string;
  Data : option ical.Calendar
}.

(** A calendar as [FindCalendars] reports it. *)
Record RemoteCalendar := mkRemote {
  RemotePath : string;
  RemoteName : string;
  RemoteDescription : string
}.

(** The CalDAV server behind [caldav.Client] of go-webdav: what its
    requests answer. *)
Record Server := mkServer {
  NewClientError : option error;
  FindCalendarHomeSet : Result string;
  FindCalendars : string -> Result (list RemoteCalendar);
  QueryCalendar : string -> Time -> Time -> Result (list CalendarObject)
}.

Record Client := mkClient {
  account : Account.t;
  caldavClient : option Server     (* nil until [Authenticate] succeeds *)
}.

Definition NewClient (a : Account.t) : Client := mkClient a None.

Definition Authenticate (srv : Server) (c : Client) : Client * option error :=
  match NewClientError srv with
  | Some err => (c, Some ("failed to create CalDAV client: " ++ err))
  | None =>
      let c := mkClient (account c) (Some srv) in
      if String.eqb (Account.Type_ (account c)) AccountTypeGoogle then (c, None)
      else match FindCalendarHomeSet srv with
           | Err err => (c, Some ("failed to authenticate: " ++ err))
           | Ok _ => (c, None)
           end
  end.

Definition ListCalendars (c : Client) : Result (list Calendar.t) :=
  match caldavClient c with
  | None => Err "not authenticated"
  | Some srv =>
      if String.eqb (Account.Type_ (account c)) AccountTypeGoogle then
        match FindCalendars srv (Account.ServerURL (account c)) with
        | Err err => Err ("failed to list Google calendars: " ++ err)
        | Ok cals =>
            Ok (map (fun cal =>
                       let name := if String.eqb (RemoteName cal) ""
                                   then "Primary Calendar" else RemoteName cal in
                       Calendar.mk (RemotePath cal) (Account.ID (account c)) name
                         (RemoteDescription cal) "#4285f4" true false "" GoTime.zero)
                    cals)
        end
      else
        match FindCalendarHomeSet srv with
        | Err err => Err ("failed to find calendar home: " ++ err)
        | Ok homeSet =>
            match FindCalendars srv homeSet with
            | Err err => Err ("failed to list calendars: " ++ err)
            | Ok cals =>
                Ok (map (fun cal =>
                           Calendar.mk (RemotePath cal) (Account.ID (account c))
                             (RemoteName cal) (RemoteDescription cal)
                             "#4285f4" true false "" GoTime.zero)
                        cals)
            end
        end
  end.

(** The steps of the body of the loop of [parseICalEvent] for a VEVENT
    component, in the order of the source. *)

(** [// Get UID] *)
Definition getUID (props : ical.Props) (event : Event.t) : Event.t :=
  match ical.Get props ical.PropUID with
  | Some prop => Event.set_ID (Event.set_UID event (ical.Value prop)) (ical.Value prop)
  | None => event
  end.

(** [// Get summary/title] *)
Definition getSummary (props : ical.Props) (event : Event.t) : Event.t :=
  match ical.Get props ical.PropSummary with
  | Some prop => Event.set_Title event (ical.Value prop)
  | None => event
  end.

(** [// Get description] *)
Definition getDescription (props : ical.Props) (event : Event.t) : Event.t :=
  match ical.Get props ical.PropDescription with
  | Some prop => Event.set_Description event (ical.Value prop)
  | None => event
  end.

(** [// Get location] *)
Definition getLocation (props : ical.Props) (event : Event.t) : Event.t :=
  match ical.Get props ical.PropLocation with
  | Some prop => Event.set_Location event (ical.Value prop)
  | None => event
  end.

(** [// Get start time], with the all-day check *)
Definition getStart (k : ical.Codec) (props : ical.Props) (event : Event.t) : Event.t :=
  match ical.Get props ical.PropDateTimeStart with
  | Some prop =>
      let event :=
        match ical.DateTime k prop with
        | Ok x => Event.set_Start event x
        | Err _ => event
        end in
      if String.eqb (ical.ParamsGet (ical.Parameters prop) "VALUE") "DATE"
      then Event.set_AllDay event true
      else event
  | None => event
  end.

(** [// Get end time] *)
Definition getEnd (k : ical.Codec) (props : ical.Props) (event : Event.t) : Event.t :=
  match ical.Get props ical.PropDateTimeEnd with
  | Some prop =>
      match ical.DateTime k prop with
      | Ok x => Event.set_End event x
      | Err _ => event
      end
  | None => event
  end.

(** [// Get created time] *)
Definition getCreated (k : ical.Codec) (props : ical.Props) (event : Event.t) : Event.t :=
  match ical.Get props ical.PropCreated with
  | Some prop =>
      match ical.DateTime k prop with
      | Ok x => Event.set_Created event x
      | Err _ => event
      end
  | None => event
  end.

(** [// Get last modified time] *)
Definition getModified (k : ical.Codec) (props : ical.Props) (event : Event.t) : Event.t :=
  match ical.Get props ical.PropLastModified with
  | Some prop =>
      match ical.DateTime k prop with
      | Ok x => Event.set_Modified event x
      | Err _ => event
      end
  | None => event
  end.

(** [// Get status] *)
Definition getStatus (props : ical.Props) (event : Event.t) : Event.t :=
  match ical.Get props ical.PropStatus with
  | Some prop =>
      if String.eqb (ical.Value prop) "CONFIRMED"
      then Event.set_Status event StatusConfirmed
      else if String.eqb (ical.Value prop) "TENTATIVE"
      then Event.set_Status event StatusTentative
      else if String.eqb (ical.Value prop) "CANCELLED"
      then Event.set_Cancelled (Event.set_Status event StatusCancelled) true
      else event
  | None => event
  end.

(** The body of the loop of [parseICalEvent] for a VEVENT component. *)
Definition parseComponent (k : ical.Codec) (etag calendarID : string)
           (component : ical.Component) : Event.t :=
  let props := ical.CompProps component in
  let event :=
    Event.mk "" calendarID "" "" "" "" GoTime.zero GoTime.zero false "" None []
             GoTime.zero GoTime.zero etag StatusConfirmed false in
  let event := getUID props event in
  let event := getSummary props event in
  let event := getDescription props event in
  let event := getLocation props event in
  let event := getStart k props event in
  let event := getEnd k props event in
  let event := getCreated k props event in
  let event := getModified k props event in
  getStatus props event.

(** The loop of [parseICalEvent]: the first VEVENT child decides. *)
Fixpoint firstEvent (k : ical.Codec) (etag calendarID : string)
         (children : list ical.Component) : Result Event.t :=
  match children with
  | [] => Err "no VEVENT found"
  | component :: rest =>
      if negb (String.eqb (ical.CompName component) ical.CompEvent)
      then firstEvent k etag calendarID rest
      else Ok (parseComponent k etag calendarID component)
  end.

Definition parseICalEvent (k : ical.Codec) (obj : CalendarObject)
           (calendarID : string) : Result Event.t :=
  match Data obj with
  | None => Err "no data in calendar object"
  | Some data => firstEvent k (ETag obj) calendarID (ical.Children data)
  end.

(** [eventToICal]; [now] is the reading of [time.Now()] for DTSTAMP. *)
Definition eventToICal (k : ical.Codec) (now : Time) (event : Event.t)
  : ical.Calendar :=
  let calProps := ical.PropsSetText k [] ical.PropVersion "2.0" in
  let calProps := ical.PropsSetText k calProps ical.PropProductID "-//UniCal//EN" in
  let props := ical.PropsSetText k [] ical.PropUID (Event.UID event) in
  let props := ical.PropsSetText k props ical.PropSummary (Event.Title event) in
  let props :=
    if negb (String.eqb (Event.Description event) "")
    then ical.PropsSetText k props ical.PropDescription (Event.Description event)
    else props in
  let props :=
    if negb (String.eqb (Event.Location event) "")
    then ical.PropsSetText k props ical.PropLocation (Event.Location event)
    else props in
  let props :=
    if Event.AllDay event
    then ical.PropsSetDate k
           (ical.PropsSetDate k props ical.PropDateTimeStart (Event.Start event))
           ical.PropDateTimeEnd (Event.End event)
    else ical.PropsSetDateTime k
           (ical.PropsSetDateTime k props ical.PropDateTimeStart (Event.Start event))
           ical.PropDateTimeEnd (Event.End event) in
  let props := ical.PropsSetDateTime k props ical.PropDateTimeStamp now in
  let props :=
    if String.eqb (Event.Status event) StatusConfirmed
    then ical.PropsSetText k props ical.PropStatus "CONFIRMED"
    else if String.eqb (Event.Status event) StatusTentative
    then ical.PropsSetText k props ical.PropStatus "TENTATIVE"
    else if String.eqb (Event.Status event) StatusCancelled
    then ical.PropsSetText k props ical.PropStatus "CANCELLED"
    else props in
  ical.mkCalendar calProps
    (ical.Children ical.NewCalendar ++ [ical.mkComponent ical.CompEvent props]).

(** The loop of [GetEvents]: objects that fail to parse are skipped. *)
Fixpoint parseObjects (k : ical.Codec) (calendarID : string)
         (objects : list CalendarObject) : list Event.t :=
  match objects with
  | [] => []
  | obj :: rest =>
      match parseICalEvent k obj calendarID with
      | Err _ => parseObjects k calendarID rest
      | Ok event => event :: parseObjects k calendarID rest
      end
  end.

Definition GetEvents (k : ical.Codec) (c : Client) (calendarID : string)
           (start end_ : Time) : Result (list Event.t) :=
  match caldavClient c with
  | None => Err "not authenticated"
  | Some srv =>
      match QueryCalendar srv calendarID start end_ with
      | Err err => Err ("failed to query events: " ++ err)
      | Ok objects => Ok (parseObjects k calendarID objects)
      end
  end.

(** What a stored object looks like when read back: the calendar the
    encoder produced, under some path and entity tag. *)
Definition stored (path etag : string) (data : ical.Calendar) : CalendarObject :=
  mkObject path etag (Some data).

End caldav.

(** [time.Parse(layout, value)] of the Go runtime, an input of the
    providers that call it. *)
Definition Parser := string -> string -> Result Time.

(** A buffered channel of capacity one, as [make(chan T, 1)]: empty or
    holding one value.  A send on a full channel parks the sender and
    leaves the channel as it is. *)
Module GoChan.

Definition Chan (A : Type) := option A.

Definition send {A : Type} (ch : Chan A) (v : A) : Chan A :=
  match ch with
  | None => Some v
  | Some _ => ch
  end.

End GoChan.

(** [url.Values] of a request and its [Get]. *)
Definition Query := list (string * string).

Fixpoint QueryGet (q : Query) (key : string) : string :=
  match q with
  | [] => ""
  | (k, v) :: rest => if String.eqb k key then v else QueryGet rest key
  end.

(** An HTTP exchange: a transport error, or a status with a body that
    decodes as JSON or does not. *)
Record Response (A : Type) := mkResponse {
  StatusCode : Z;
  StatusText : string;
  Body : Result A
}.
Arguments mkResponse {A} _ _ _.
Arguments StatusCode {A} _.
Arguments StatusText {A} _.
Arguments Body {A} _.

(** An item of the Google Calendar events list. *)
Record EventItem := mkItem {
  ItemID : string;
  ItemSummary : string;
  ItemDescription : string;
  ItemLocation : string;
  ItemStatus : string;
  StartDateTime : string;
  StartDate : string;
  EndDateTime : string;
  EndDate : string
}.

(** An item of the Google calendar list. *)
Record CalendarItem := mkCalItem {
  CalItemID : string;
  CalItemSummary : string;
  CalItemDescription : string;
  BackgroundColor : string;
  AccessRole : string
}.

(* ================================================================== *)
(** * Package google: google.go and the OAuth callback server          *)
(* ================================================================== *)

Module google.

Import calendar.

(** The Calendar API as seen through the client's [http.Client]. *)
Record API := mkAPI {
  CalendarList : Result (Response (list CalendarItem));
  Events : string -> Time -> Time -> Result (Response (list EventItem))
}.

Record Client := mkClient {
  account : Account.t;
  httpClient : option API     (* nil until a token is set *)
}.

(** The body of the loop of [GetEvents] for one item. *)
Definition itemEvent (parse : Parser) (calendarID : string) (item : EventItem)
  : Event.t :=
  let event :=
    Event.mk (ItemID item) calendarID (ItemID item) (ItemSummary item)
             (ItemDescription item) (ItemLocation item)
             GoTime.zero GoTime.zero false "" None []
             GoTime.zero GoTime.zero "" "" false in
  let event :=
    if negb (String.eqb (StartDateTime item) "") then
      match parse RFC3339 (StartDateTime item) with
      | Ok x => Event.set_Start event x
      | Err _ => event
      end
    else if negb (String.eqb (StartDate item) "") then
      match parse DateOnly (StartDate item) with
      | Ok x => Event.set_AllDay (Event.set_Start event x) true
      | Err _ => event
      end
    else event in
  let event :=
    if negb (String.eqb (EndDateTime item) "") then
      match parse RFC3339 (EndDateTime item) with
      | Ok x => Event.set_End event x
      | Err _ => event
      end
    else if negb (String.eqb (EndDate item) "") then
      match parse DateOnly (EndDate item) with
      | Ok x => Event.set_End event x
      | Err _ => event
      end
    else event in
  if String.eqb (ItemStatus item) "confirmed"
  then Event.set_Status event StatusConfirmed
  else if String.eqb (ItemStatus item) "tentative"
  then Event.set_Status event StatusTentative
  else if String.eqb (ItemStatus item) "cancelled"
  then Event.set_Cancelled (Event.set_Status event StatusCancelled) true
  else event.

Fixpoint itemEvents (parse : Parser) (calendarID : string)
         (items : list EventItem) : list Event.t :=
  match items with
  | [] => []
  | item :: rest => itemEvent parse calendarID item :: itemEvents parse calendarID rest
  end.

Definition GetEvents (parse : Parser) (c : Client) (calendarID : string)
           (start end_ : Time) : Result (list Event.t) :=
  match httpClient c with
  | None => Err "not authenticated"
  | Some api =>
      match Events api calendarID start end_ with
      | Err err => Err ("failed to get events: " ++ err)
      | Ok resp =>
          if negb (StatusCode resp =? 200)
          then Err ("events request failed: " ++ StatusText resp)
          else match Body resp with
               | Err err => Err ("failed to parse events: " ++ err)
               | Ok items => Ok (itemEvents parse calendarID items)
               end
      end
  end.

(** ** The callback server ([OAuthCallbackServer]) *)

Record OAuthCallbackServer := mkServer {
  codeChan : GoChan.Chan string;
  errChan : GoChan.Chan error
}.

Definition NewOAuthCallbackServer : OAuthCallbackServer := mkServer None None.

Definition handleCallback (s : OAuthCallbackServer) (q : Query)
  : OAuthCallbackServer :=
  let code := QueryGet q "code" in
  if String.eqb code "" then
    let errMsg := QueryGet q "error" in
    let errMsg := if String.eqb errMsg ""
                  then "no authorization code received" else errMsg in
    mkServer (codeChan s) (GoChan.send (errChan s) ("OAuth error: " ++ errMsg))
  else
    mkServer (GoChan.send (codeChan s) code) (errChan s).

Definition ctxErr : error := "context deadline exceeded".

(** The [select] of [WaitForCode] with the receiver parked in it: the
    case that is ready is taken; [done] tells whether [ctx.Done()] is
    closed.  Returns the server after the receive and what the call
    returns, or nothing while no case is ready. *)
Definition WaitForCode (s : OAuthCallbackServer) (done : bool)
  : option (OAuthCallbackServer * (string * option error)) :=
  match codeChan s, errChan s with
  | Some code, _ => Some (mkServer None (errChan s), (code, None))
  | None, Some err => Some (mkServer None None, ("", Some err))
  | None, None => if done then Some (s, ("", Some ctxErr)) else None
  end.

(** A receiver waiting on the server while requests arrive: each request
    carries its arrival time, measured from the start of the wait, and
    the context expires at [deadline].  The receiver is woken after each
    request, so at most one case of its [select] is ready. *)
Record Waiter := mkWaiter {
  server : OAuthCallbackServer;
  returned : option (string * option error)
}.

Definition wake (w : Waiter) (done : bool) : Waiter :=
  match returned w with
  | Some _ => w
  | None =>
      match WaitForCode (server w) done with
      | Some (s, r) => mkWaiter s (Some r)
      | None => w
      end
  end.

Definition deliver (deadline : Duration) (w : Waiter) (req : Duration * Query)
  : Waiter :=
  let w := if deadline <=? fst req then wake w true else w in
  wake (mkWaiter (handleCallback (server w) (snd req)) (returned w)) false.

Definition listen (deadline : Duration) (requests : list (Duration * Query))
  : Waiter :=
  wake (fold_left (deliver deadline) requests (mkWaiter NewOAuthCallbackServer None))
       true.

(** ** The client: token, calendar list and the writing methods *)

Record OAuthConfig := mkOAuthConfig {
  ClientID : string;
  ClientSecret : string;
  RedirectURL : string
}.

(** [NewClient]: no token, hence no [httpClient], yet. *)
Definition NewClient (account : Account.t) (cfg : OAuthConfig) : Client :=
  mkClient account None.

(** [SetToken]; [tokenClient] stands for [json.Unmarshal] of the saved
    token and the [http.Client] the OAuth configuration builds for it. *)
Definition SetToken (tokenClient : string -> Result API) (c : Client)
           (tokenJSON : string) : Client * option error :=
  match tokenClient tokenJSON with
  | Err err => (c, Some ("failed to parse token: " ++ err))
  | Ok api => (mkClient (account c) (Some api), None)
  end.

Definition Authenticate (tokenClient : string -> Result API) (c : Client)
  : Client * option error :=
  if negb (String.eqb (Account.AccessToken (account c)) "") then
    match SetToken tokenClient c (Account.AccessToken (account c)) with
    | (c, Some err) => (c, Some ("invalid saved token: " ++ err))
    | (c, None) => (c, None)
    end
  else (c, Some "no access token - OAuth flow required").

Definition ListCalendars (c : Client) : Result (list Calendar.t) :=
  match httpClient c with
  | None => Err "not authenticated"
  | Some api =>
      match CalendarList api with
      | Err err => Err ("failed to list calendars: " ++ err)
      | Ok resp =>
          if negb (StatusCode resp =? 200)
          then Err ("calendar list failed: " ++ StatusText resp)
          else match Body resp with
               | Err err => Err ("failed to parse calendars: " ++ err)
               | Ok items =>
                   Ok (map (fun item =>
                              Calendar.mk (CalItemID item) (Account.ID (account c))
                                (CalItemSummary item) (CalItemDescription item)
                                (BackgroundColor item) true
                                (String.eqb (AccessRole item) "reader"
                                 || String.eqb (AccessRole item) "freeBusyReader")
                                "" GoTime.zero)
                           items)
               end
      end
  end.

(** What the writing requests meet: whether [http.NewRequestWithContext]
    accepts the URL, and what a POST (with its body, if it has one) and a
    DELETE are answered: a transport error, or a status code and text. *)
Record Writes := mkWrites {
  NewRequest : string -> string -> option error;
  Post : string -> option string -> Result (Z * string);
  Delete : string -> Result (Z * string)
}.

Definition eventsURL (calendarID : string) : string :=
  "https://www.googleapis.com/calendar/v3/calendars/" ++ calendarID ++ "/events".

Definition eventURL (calendarID eventID : string) : string :=
  eventsURL calendarID ++ "/" ++ eventID.

(** [CreateEvent]: the JSON body is built and dropped; the POST goes out
    with [http.NoBody]. *)
Definition CreateEvent (wr : Writes) (c : Client) (calendarID : string)
           (event : Event.t) : option error :=
  match httpClient c with
  | None => Some "not authenticated"
  | Some _ =>
      let url := eventsURL calendarID in
      match NewRequest wr "POST" url with
      | Some err => Some err
      | None =>
          match Post wr url None with
          | Err err => Some ("failed to create event: " ++ err)
          | Ok (code, status) =>
              if negb (code =? 200) && negb (code =? 201)
              then Some ("create event failed: " ++ status)
              else None
          end
      end
  end.

Definition UpdateEvent (wr : Writes) (c : Client) (calendarID : string)
           (event : Event.t) : option error :=
  match httpClient c with
  | None => Some "not authenticated"
  | Some _ =>
      let url := eventURL calendarID (Event.ID event) in
      match NewRequest wr "PUT" url with
      | Some err => Some err
      | None => Some "update not implemented"
      end
  end.

Definition DeleteEvent (wr : Writes) (c : Client) (calendarID eventID : string)
  : option error :=
  match httpClient c with
  | None => Some "not authenticated"
  | Some _ =>
      let url := eventURL calendarID eventID in
      match NewRequest wr "DELETE" url with
      | Some err => Some err
      | None =>
          match Delete wr url with
          | Err err => Some ("failed to delete event: " ++ err)
          | Ok (code, status) =>
              if negb (code =? 200) && negb (code =? 204)
              then Some ("delete event failed: " ++ status)
              else None
          end
      end
  end.

End google.

(* ================================================================== *)
(** * Package main: OAuth, token refresh, sync and first-run bootstrap *)
(* ================================================================== *)

Module main.

Import calendar.

Definition googleTokenURL := "https://oauth2.googleapis.com/token".
Definition redirectPort : Z := 8085.

(** What the token endpoint answers to a POST: [http.Post] fails, reading
    the body fails, or a status arrives with a body that decodes or not. *)
Record TokenResult := mkToken {
  ResultAccessToken : string;
  ResultExpiresIn : Z;
  ResultError : string;
  ResultErrorDesc : string
}.

Inductive TokenReply :=
| PostFailed (err : error)
| ReadFailed (err : error)
| Replied (status : Z) (body : Result TokenResult).

(** Requests that leave the process, in the order they are made. *)
Inductive Call :=
| TokenPost (form : list (string * string))
| CalendarListGet (bearer : string)
| EventsGet (calendarID : string) (timeMin timeMax : Time) (bearer : string)
| CalDAVQuery (calendarID : string) (start end_ : Time).

(** The surroundings of a run: the clock ([clock n] is the [n]-th reading
    of [time.Now()]), the OAuth client credentials of the process
    environment, and the peers. *)
Record Env := mkEnv {
  clock : nat -> Time;
  parse : Parser;
  codec : ical.Codec;
  googleClientID : string;
  googleClientSecret : string;
  tokenEndpoint : list (string * string) -> TokenReply;
  calendarListEndpoint : string -> Result (Response (list CalendarItem));
  eventsEndpoint :
    string -> Time -> Time -> string -> Result (Response (list EventItem));
  caldavServer : Account.t -> caldav.Server
}.

(** The state a run threads: the database of [app.store], how often the
    clock was read, and the requests made so far. *)
Record World := mkWorld {
  db : Store;
  reads : nat;
  calls : list Call
}.

Definition M (A : Type) : Type := World -> A * World.

Definition ret {A : Type} (a : A) : M A := fun w => (a, w).

Definition bind {A B : Type} (m : M A) (k : A -> M B) : M B :=
  fun w => let (a, w') := m w in k a w'.

Notation "x <- m ;; k" := (bind m (fun x => k))
  (at level 61, m at next level, right associativity).
Notation "m ;;; k" := (bind m (fun _ => k))
  (at level 61, right associativity).

(** [time.Now()] *)
Definition Now (env : Env) : M Time :=
  fun w => (clock env (reads w), mkWorld (db w) (S (reads w)) (calls w)).

Definition request (c : Call) : M unit :=
  fun w => (tt, mkWorld (db w) (reads w) (calls w ++ [c])).

(** A write through [app.store]; a failed statement leaves the database. *)
Definition write (op : Store -> Result Store) : M (option error) :=
  fun w =>
    match op (db w) with
    | Ok s => (None, mkWorld s (reads w) (calls w))
    | Err e => (Some e, w)
    end.

Definition saveAccount (a : Account.t) : M (option error) :=
  write (fun s => SaveAccount s a).
Definition saveCalendar (c : Calendar.t) : M (option error) :=
  write (fun s => SaveCalendar s c).
Definition saveEvent (e : Event.t) : M (option error) :=
  write (fun s => SaveEvent s e).

(** [for _, x := range xs { body }] *)
Fixpoint forEach {A : Type} (xs : list A) (body : A -> M unit) : M unit :=
  match xs with
  | [] => ret tt
  | x :: rest => body x ;;; forEach rest body
  end.

(** The form [refreshGoogleToken] posts. *)
Definition refreshForm (env : Env) (account : Account.t) : list (string * string) :=
  [ ("client_id", googleClientID env);
    ("client_secret", googleClientSecret env);
    ("refresh_token", Account.RefreshToken account);
    ("grant_type", "refresh_token") ].

(** [refreshGoogleToken]: the account as the call leaves it, and the
    error it returns. *)
Definition refreshGoogleToken (env : Env) (account : Account.t)
  : M (Account.t * option error) :=
  if String.eqb (Account.RefreshToken account) "" then
    ret (account, Some "no refresh token available - please re-authenticate")
  else
    let data := refreshForm env account in
    request (TokenPost data) ;;;
    match tokenEndpoint env data with
    | PostFailed err => ret (account, Some err)
    | ReadFailed err =>
        ret (account, Some ("failed to read refresh response: " ++ err))
    | Replied _ (Err err) =>
        ret (account, Some ("failed to decode refresh response: " ++ err))
    | Replied _ (Ok result) =>
        if negb (String.eqb (ResultError result) "") then
          ret (account, Some ("refresh failed: " ++ ResultError result
                              ++ " - " ++ ResultErrorDesc result))
        else
          let account := Account.set_AccessToken account (ResultAccessToken result) in
          now <- Now env ;;
          let account :=
            Account.set_TokenExpiry account (Add now (ResultExpiresIn result * Second)) in
          err <- saveAccount account ;;
          ret (account, err)
    end.

(** The body of the loop of [fetchGoogleEvents] for an item that is not
    skipped. *)
Definition fetchedEvent (env : Env) (cal : Calendar.t) (item : EventItem) : Event.t :=
  let event :=
    Event.mk (ItemID item) (Calendar.ID cal) (ItemID item) (ItemSummary item)
             (ItemDescription item) (ItemLocation item)
             GoTime.zero GoTime.zero false "" None []
             GoTime.zero GoTime.zero "" StatusConfirmed false in
  let event :=
    if negb (String.eqb (StartDateTime item) "") then
      Event.set_Start event
        (match parse env RFC3339 (StartDateTime item) with
         | Ok x => x | Err _ => GoTime.zero end)
    else if negb (String.eqb (StartDate item) "") then
      Event.set_AllDay
        (Event.set_Start event
           (match parse env DateOnly (StartDate item) with
            | Ok x => x | Err _ => GoTime.zero end))
        true
    else event in
  if negb (String.eqb (EndDateTime item) "") then
    Event.set_End event
      (match parse env RFC3339 (EndDateTime item) with
       | Ok x => x | Err _ => GoTime.zero end)
  else if negb (String.eqb (EndDate item) "") then
    Event.set_End event
      (match parse env DateOnly (EndDate item) with
       | Ok x => x | Err _ => GoTime.zero end)
  else event.

(** The loop of [fetchGoogleEvents] over the items: a cancelled item is
    skipped, any other is saved. *)
Definition saveFetched (env : Env) (cal : Calendar.t) (item : EventItem) : M unit :=
  if String.eqb (ItemStatus item) "cancelled" then ret tt
  else saveEvent (fetchedEvent env cal item) ;;; ret tt.

Definition fetchGoogleEvents (env : Env) (account : Account.t) (cal : Calendar.t)
  : M unit :=
  now1 <- Now env ;;
  let timeMin := AddDate now1 0 (-1) 0 in
  now2 <- Now env ;;
  let timeMax := AddDate now2 0 3 0 in
  request (EventsGet (Calendar.ID cal) timeMin timeMax (Account.AccessToken account)) ;;;
  match eventsEndpoint env (Calendar.ID cal) timeMin timeMax
                       (Account.AccessToken account) with
  | Err _ => ret tt
  | Ok resp =>
      if negb (StatusCode resp =? 200) then ret tt
      else match Body resp with
           | Err _ => ret tt
           | Ok items =>
               forEach items (saveFetched env cal)
           end
  end.

(** The body of the loop of [syncGoogleCalendarAPI] over the calendar
    list. *)
Definition syncGoogleCalendar (env : Env) (account : Account.t) (item : CalendarItem)
  : M unit :=
  let cal :=
    Calendar.mk (CalItemID item) (Account.ID account)
      (CalItemSummary item) (CalItemDescription item)
      (BackgroundColor item) true false "" GoTime.zero in
  let cal :=
    if String.eqb (Calendar.Color cal) ""
    then Calendar.set_Color cal "#4285f4" else cal in
  err <- saveCalendar cal ;;
  match err with
  | Some _ => ret tt
  | None => fetchGoogleEvents env account cal
  end.

(** [syncGoogleCalendarAPI] from "Fetch calendar list" on. *)
Definition listAndFetch (env : Env) (account : Account.t) : M Account.t :=
  request (CalendarListGet (Account.AccessToken account)) ;;;
  match calendarListEndpoint env (Account.AccessToken account) with
  | Err _ => ret account
  | Ok resp =>
      if negb (StatusCode resp =? 200) then ret account
      else match Body resp with
           | Err _ => ret account
           | Ok items =>
               forEach items (syncGoogleCalendar env account) ;;;
               now <- Now env ;;
               let account := Account.set_LastSync account now in
               saveAccount account ;;;
               ret account
           end
  end.

(** [syncGoogleCalendarAPI]; returns the account as the run leaves it. *)
Definition syncGoogleCalendarAPI (env : Env) (account : Account.t) : M Account.t :=
  now <- Now env ;;
  refreshed <-
    (if After now (Account.TokenExpiry account)
     then refreshGoogleToken env account
     else ret (account, None)) ;;
  match refreshed with
  | (account, Some _) => ret account
  | (account, None) => listAndFetch env account
  end.

(** The loop of [syncCalDAVAccount] over the events of a calendar. *)
Definition saveInto (cal : Calendar.t) (event : Event.t) : M unit :=
  let event := Event.set_CalendarID event (Calendar.ID cal) in
  saveEvent event ;;; ret tt.

(** The body of the loop of [syncCalDAVAccount] over the calendars, from
    the event fetch on. *)
Definition fetchCalDAVEvents (env : Env) (client : caldav.Client) (cal : Calendar.t)
  : M unit :=
  now1 <- Now env ;;
  let start := AddDate now1 0 (-1) 0 in
  now2 <- Now env ;;
  let end_ := AddDate now2 0 3 0 in
  request (CalDAVQuery (Calendar.ID cal) start end_) ;;;
  match caldav.GetEvents (codec env) client (Calendar.ID cal) start end_ with
  | Err _ => ret tt
  | Ok events => forEach events (saveInto cal)
  end.

(** [syncCalDAVAccount] *)
Definition syncCalDAVAccount (env : Env) (account : Account.t) : M Account.t :=
  if String.eqb (Account.Type_ account) AccountTypeGoogle then
    syncGoogleCalendarAPI env account
  else
    let client := caldav.NewClient account in
    match caldav.Authenticate (caldavServer env account) client with
    | (_, Some _) => ret account
    | (client, None) =>
        match caldav.ListCalendars client with
        | Err _ => ret account
        | Ok calendars =>
            forEach calendars (fun cal =>
              let cal := Calendar.set_AccountID cal (Account.ID account) in
              err <- saveCalendar cal ;;
              match err with
              | Some _ => ret tt
              | None => fetchCalDAVEvents env client cal
              end) ;;;
            now <- Now env ;;
            let account := Account.set_LastSync account now in
            saveAccount account ;;;
            ret account
        end
    end.

(** [fmt.Sprintf("%d", n)] *)
Definition decimal (n : Z) : string := NilZero.string_of_int (Z.to_int n).

(** [ensureDefaultCalendar] *)
Definition ensureDefaultCalendar (env : Env) : M unit :=
  fun w =>
    match GetAllCalendars (db w) with
    | Err _ => (tt, w)
    | Ok calendars =>
        if (List.length calendars =? 0)%nat then
          (now1 <- Now env ;;
           let account :=
             Account.mk ("acc-" ++ decimal (UnixNano now1)) "Local" AccountTypeLocal
                        "" true "" "" "" "" GoTime.zero "" GoTime.zero in
           err <- saveAccount account ;;
           match err with
           | Some _ => ret tt
           | None =>
               now2 <- Now env ;;
               let cal :=
                 Calendar.mk ("cal-" ++ decimal (UnixNano now2)) (Account.ID account)
                             "My Calendar" "" "#4285f4" true false "" GoTime.zero in
               saveCalendar cal ;;; ret tt
           end) w
        else (tt, w)
    end.

(** ** The redirect listener of [startGoogleOAuth] *)

Record Listener := mkListener {
  codeChan : GoChan.Chan string;
  errChan : GoChan.Chan error
}.

(** The handler registered on [/callback]. *)
Definition callback (l : Listener) (q : Query) : Listener :=
  let code := QueryGet q "code" in
  if String.eqb code "" then
    mkListener (codeChan l) (GoChan.send (errChan l) "no code received")
  else
    mkListener (GoChan.send (codeChan l) code) (errChan l).

(** The three cases of the [select] in the waiting goroutine. *)
Inductive Resolution :=
| GotCode (code : string)          (* goes on to [exchangeGoogleCode] *)
| GotError (err : error)           (* status label: "Error: " ++ err *)
| TimedOut.                        (* status label: "Timeout - please try again" *)

(** The text the case puts on the status label, if any. *)
Definition statusLabel (r : Resolution) : option string :=
  match r with
  | GotCode _ => None
  | GotError err => Some ("Error: " ++ err)
  | TimedOut => Some "Timeout - please try again"
  end.

Definition timeout : Duration := 5 * Minute.

(** The [select] with the goroutine parked in it; [fired] tells whether
    [time.After(5 * time.Minute)] has fired. *)
Definition selectCase (l : Listener) (fired : bool) : option (Listener * Resolution) :=
  match codeChan l, errChan l with
  | Some code, _ => Some (mkListener None (errChan l), GotCode code)
  | None, Some err => Some (mkListener None None, GotError err)
  | None, None => if fired then Some (l, TimedOut) else None
  end.

Record Waiting := mkWaiting {
  listener : Listener;
  resolved : option Resolution
}.

Definition wake (w : Waiting) (fired : bool) : Waiting :=
  match resolved w with
  | Some _ => w
  | None =>
      match selectCase (listener w) fired with
      | Some (l, r) => mkWaiting l (Some r)
      | None => w
      end
  end.

(** What reaches the channels: a request on [/callback], or the error
    with which [ListenAndServe] gave up. *)
Inductive Arrival :=
| Callback (q : Query)
| ServeError (err : error).

Definition arrive (l : Listener) (a : Arrival) : Listener :=
  match a with
  | Callback q => callback l q
  | ServeError err => mkListener (codeChan l) (GoChan.send (errChan l) err)
  end.

(** An arrival [fst req] after the wait began.  The goroutine is woken
    after each arrival, so at most one case of its [select] is ready. *)
Definition deliver (w : Waiting) (req : Duration * Arrival) : Waiting :=
  let w := if timeout <=? fst req then wake w true else w in
  wake (mkWaiting (arrive (listener w) (snd req)) (resolved w)) false.

(** The wait of [startGoogleOAuth] over what arrives, in order of
    arrival; the timer fires in the end if nothing else did. *)
Definition awaitCallback (requests : list (Duration * Arrival)) : Waiting :=
  wake (fold_left deliver requests (mkWaiting (mkListener None None) None)) true.

(** ** The sync of all accounts at startup *)

(** [syncAllAccounts]: the accounts are read once; the loop goes over
    them as they were read. *)
Definition syncAllAccounts (env : Env) : M unit :=
  fun w =>
    match GetAllAccounts (db w) with
    | Err _ => (tt, w)
    | Ok accounts =>
        forEach accounts (fun account =>
          if String.eqb (Account.Type_ account) AccountTypeGoogle
             && negb (String.eqb (Account.AccessToken account) "")
          then syncCalDAVAccount env account ;;; ret tt
          else ret tt) w
    end.

(** ** The code exchange of the Google sign-in *)

Definition googleCalDAVURL := "https://apidata.googleusercontent.com/caldav/v2/".

(** [fmt.Sprintf("http://127.0.0.1:%d/callback", redirectPort)] *)
Definition redirectURI : string :=
  "http://127.0.0.1:" ++ decimal redirectPort ++ "/callback".

(** The struct [exchangeGoogleCode] unmarshals the answer into; a field
    the body does not give, and every field of a body that is not JSON,
    is empty. *)
Record ExchangeResult := mkExchange {
  ExAccessToken : string;
  ExRefreshToken : string;
  ExError : string;
  ExErrorDesc : string
}.

Inductive ExchangeReply :=
| ExchangePostFailed (err : error)
| ExchangeReplied (result : ExchangeResult).

(** The peers of the sign-in: the token endpoint for the code exchange,
    the userinfo endpoint (no answer, or the [email] field of the answer,
    empty if it has none), and [url.PathEscape]. *)
Record OAuthPeers := mkOAuthPeers {
  exchangeEndpoint : list (string * string) -> ExchangeReply;
  userinfoEndpoint : string -> option string;
  pathEscape : string -> string
}.

Definition exchangeForm (env : Env) (code redirectURI : string)
  : list (string * string) :=
  [ ("code", code);
    ("client_id", googleClientID env);
    ("client_secret", googleClientSecret env);
    ("redirect_uri", redirectURI);
    ("grant_type", "authorization_code") ].

Definition getUserEmail (peers : OAuthPeers) (accessToken : string) : string :=
  match userinfoEndpoint peers accessToken with
  | None => "Google Account"
  | Some email => if negb (String.eqb email "") then email else "Google Account"
  end.

(** [exchangeGoogleCode]: access token, refresh token and email, or the
    error. *)
Definition exchangeGoogleCode (env : Env) (peers : OAuthPeers)
           (code redirectURI : string) : Result (string * string * string) :=
  match exchangeEndpoint peers (exchangeForm env code redirectURI) with
  | ExchangePostFailed err => Err err
  | ExchangeReplied result =>
      if negb (String.eqb (ExError result) "")
      then Err (ExError result ++ ": " ++ ExErrorDesc result)
      else
        let email := getUserEmail peers (ExAccessToken result) in
        Ok (ExAccessToken result, ExRefreshToken result, email)
  end.

(** The case [code := <-codeChan] of the wait of [startGoogleOAuth]: the
    text it puts on the status label, if any, and the account it leaves.
    The sync it starts with [go] is run to its end here. *)
Definition gotCode (env : Env) (peers : OAuthPeers) (code : string)
  : M (option string * option Account.t) :=
  match exchangeGoogleCode env peers code redirectURI with
  | Err err => ret (Some ("Auth failed: " ++ err), None)
  | Ok (accessToken, refreshToken, email) =>
      let serverURL := googleCalDAVURL ++ pathEscape peers email ++ "/" in
      now1 <- Now env ;;
      now2 <- Now env ;;
      let account :=
        Account.mk ("acc-" ++ decimal (UnixNano now1)) ("Google - " ++ email)
                   AccountTypeGoogle email true serverURL "" accessToken
                   refreshToken (Add now2 Hour) "" GoTime.zero in
      err <- saveAccount account ;;
      match err with
      | Some err => ret (Some ("Error saving: " ++ err), None)
      | None =>
          account <- syncCalDAVAccount env account ;;
          ret (None, Some account)
      end
  end.

(** ** Labels *)

(** The string literal [truncate] appends, byte for byte as the source
    file holds it. *)
Definition ellipsis : string :=
  string_of_list_ascii
    (map ascii_of_nat [226; 128; 154; 195; 132; 194; 182]%nat).

(** [truncate]; [None] where the slice expression [s[:maxLen-1]]
    panics. *)
Definition truncate (s : string) (maxLen : Z) : option string :=
  if Z.of_nat (String.length s) <=? maxLen then Some s
  else if maxLen - 1 <? 0 then None
  else Some (substring 0 (Z.to_nat (maxLen - 1)) s ++ ellipsis).

(** ** The month view *)

(** [time.Format(layout)] of the Go runtime, an input of the views. *)
Definition Formatter := string -> Time -> string.

(** The range [refreshMonthView] queries: from the first of the month of
    [currentDate] at 00:00 to 24 hours after the last of the month. *)
Definition monthRange (currentDate : Time) : Time * Time :=
  let firstOfMonth :=
    Date (Year currentDate) (Month currentDate) 1 0 0 0 0
         (GoTime.Location currentDate) in
  let lastOfMonth := AddDate firstOfMonth 0 1 (-1) in
  let monthStart := firstOfMonth in
  let monthEnd := Add lastOfMonth (24 * Hour) in
  (monthStart, monthEnd).

(** [eventsByDate]: a Go map from date key to the events appended under
    it; a key that was never written reads as the empty list. *)
Definition EventsByDate := string -> list Event.t.

Definition appendUnder (m : EventsByDate) (dateKey : string) (e : Event.t)
  : EventsByDate :=
  fun k => if String.eqb k dateKey then (m k ++ [e])%list else m k.

(** The work of [refreshMonthView]: the events of the month, by the date
    of their start. *)
Definition refreshMonthView (format : Formatter) (s : Store) (currentDate : Time)
  : EventsByDate :=
  let (monthStart, monthEnd) := monthRange currentDate in
  let events :=
    match GetEventsInRange s monthStart monthEnd with
    | Ok events => events
    | Err _ => []
    end in
  fold_left (fun m e => appendUnder m (format DateOnly (Event.Start e)) e)
            events (fun _ => []).

(** A day cell of the grid: what [createDayCell] is given, and where the
    cell is attached. *)
Record DayCell := mkDayCell {
  CellDay : Z;
  CellDate : Time;
  CellEvents : list Event.t;
  IsToday : bool;
  IsSelected : bool;
  CellCol : Z;
  CellRow : Z
}.

Definition sameDate (a b : Time) : bool :=
  (Year a =? Year b) && (Month a =? Month b) && (Day a =? Day b).

(** The loop [for day := 1; day <= daysInMonth; day++] of
    [updateMonthViewWithEvents], with [count] days still to place. *)
Fixpoint fillDays (format : Formatter) (eventsByDate : EventsByDate)
         (currentDate today selectedDate : Time)
         (count : nat) (day col row : Z) : list DayCell :=
  match count with
  | O => []
  | S count' =>
      let date :=
        Date (Year currentDate) (Month currentDate) day 0 0 0 0
             (GoTime.Location currentDate) in
      let dateKey := format DateOnly date in
      let dayEvents := eventsByDate dateKey in
      let isToday := sameDate date today in
      let isSelected := sameDate date selectedDate in
      let cell := mkDayCell day date dayEvents isToday isSelected col row in
      let col := col + 1 in
      if 6 <? col
      then cell :: fillDays format eventsByDate currentDate today selectedDate
                            count' (day + 1) 0 (row + 1)
      else cell :: fillDays format eventsByDate currentDate today selectedDate
                            count' (day + 1) col row
  end.

(** The day cells [updateMonthViewWithEvents] attaches under the header
    row of the grid. *)
Definition updateMonthViewWithEvents (format : Formatter) (eventsByDate : EventsByDate)
           (currentDate today selectedDate : Time) : list DayCell :=
  let firstOfMonth :=
    Date (Year currentDate) (Month currentDate) 1 0 0 0 0
         (GoTime.Location currentDate) in
  let weekday := GoTime.Weekday firstOfMonth in
  let weekday := if weekday =? 0 then 7 else weekday in
  let weekday := weekday - 1 in
  let lastOfMonth := AddDate firstOfMonth 0 1 (-1) in
  let daysInMonth := Day lastOfMonth in
  fillDays format eventsByDate currentDate today selectedDate
           (Z.to_nat daysInMonth) 1 weekday 1.

(** ** Waybar mode *)

Record WaybarOutput := mkWaybarOutput {
  Text : string;
  Tooltip : string;
  Class : string
}.

(** The escape [\n] of a Go string literal. *)
Definition newline : string := String (ascii_of_nat 10) "".

(** The bytes the source file holds before [ %s - %s] in the format of
    a tooltip line. *)
Definition bullet : string :=
  string_of_list_ascii (map ascii_of_nat [226; 128; 154; 195; 132; 194; 162]%nat).

(** The body of [for i, event := range events] in [runWaybarMode]. *)
Fixpoint tooltipLines (format : Formatter) (i : nat) (events : list Event.t)
  : string :=
  match events with
  | [] => ""
  | event :: rest =>
      let eventTime :=
        if Event.AllDay event then "All day"
        else format "15:04" (Event.Start event) in
      (if (0 <? i)%nat then newline else "")
      ++ bullet ++ " " ++ eventTime ++ " - " ++ Event.Title event
      ++ tooltipLines format (S i) rest
  end.

(** [runWaybarMode]: the value it encodes to standard output, from the
    outcome of [calendar.NewStore] and the instant [time.Now()] gives. *)
Definition runWaybarMode (format : Formatter) (opened : Result Store) (now : Time)
  : WaybarOutput :=
  match opened with
  | Err _ => mkWaybarOutput (format "02/01" now) "Calendar unavailable" "error"
  | Ok store =>
      let today :=
        Date (Year now) (Month now) (Day now) 0 0 0 0 (GoTime.Location now) in
      let tomorrow := AddDate today 0 0 1 in
      let events :=
        match GetEventsInRange store today tomorrow with
        | Ok events => events
        | Err _ => []
        end in
      let tooltip := format "Monday, 2 January 2006" now in
      let tooltip :=
        if (0 <? List.length events)%nat
        then tooltip ++ newline ++ newline ++ tooltipLines format 0 events
        else tooltip ++ newline ++ newline ++ "No events today" in
      let class :=
        if (0 <? List.length events)%nat then "has-events" else "no-events" in
      let text := format "02/01" now in
      let text :=
        if (0 <? List.length events)%nat
        then text ++ " (" ++ decimal (Z.of_nat (List.length events)) ++ ")"
        else text in
      mkWaybarOutput text tooltip class
  end.

(** ** The calendar list of the sidebar *)

(** What [loadCalendars] appends to the calendar list: the label of an
    empty list, or the expander of an account with one row for each of
    its calendars. *)
Inductive SidebarItem :=
| NoCalendarsLabel
| AccountSection (name : string) (rows : list Calendar.t).

(** [calsByAccount]: a Go map from account identifier to the calendars
    appended under it; a key that was never written reads as [nil]. *)
Definition CalsByAccount := string -> list Calendar.t.

Definition appendCalendar (m : CalsByAccount) (cal : Calendar.t) : CalsByAccount :=
  fun k => if String.eqb k (Calendar.AccountID cal) then (m k ++ [cal])%list else m k.

(** [loadCalendars], on the list it has cleared. *)
Definition loadCalendars (s : Store) : list SidebarItem :=
  match GetAllAccounts s with
  | Err _ => []
  | Ok accounts =>
      match GetAllCalendars s with
      | Err _ => []
      | Ok calendars =>
          if (List.length calendars =? 0)%nat then [NoCalendarsLabel]
          else
            let calsByAccount := fold_left appendCalendar calendars (fun _ => []) in
            flat_map
              (fun account =>
                 let cals := calsByAccount (Account.ID account) in
                 if (List.length cals =? 0)%nat then []
                 else [AccountSection (Account.Name account) cals])
              accounts
      end
  end.

End main.

(* ================================================================== *)
(** * Vocabulary of the properties                                     *)
(* ================================================================== *)

Import calendar.

(** ** The calendar arithmetic *)

(** The civil date of day [n] is a date of day number [n], with month
    and day in range. *)
Definition civilInverts (n : Z) : bool :=
  let '(y, m, d) := civil n in
  (daysOf y m d =? n) && (1 <=? m) && (m <=? 12) && (1 <=? d) && (d <=? 31).

(** [check] holds on the [count] days from [from] on. *)
Fixpoint checkDays (check : Z -> bool) (count : nat) (from : Z) : bool :=
  match count with
  | O => true
  | S count' => check from && checkDays check count' (from + 1)
  end.

(** ** The store *)

(** What a save that meets an existing identifier does to its table: the
    row with that identifier is rewritten where it stands, and afterwards
    the identifier selects exactly the row written. *)
Definition rewrittenInPlace {R : Type} (key : R -> string)
           (tbl tbl' : list R) (x : R) : Prop :=
  (exists before old after,
      tbl = (before ++ old :: after)%list /\ key old = key x
      /\ tbl' = (before ++ x :: after)%list)
  /\ filter (hasKey key (key x)) tbl' = [x].

(** The calendar an event belongs to is stored and visible. *)
Definition calendarVisible (s : Store) (calendarID : string) : bool :=
  existsb (fun c => hasKey CalendarRow.id calendarID c && CalendarRow.visible c)
          (calendars s).

(** Half-open overlap: [event.start < end AND event.end > start]. *)
Definition overlapsRange (start end_ : Time) (e : EventRow.t) : bool :=
  (unixNano (EventRow.start_time e) <? unixNano end_)
  && (unixNano start <? unixNano (EventRow.end_time e)).

(** The stored events a range query is to return. *)
Definition selected (s : Store) (start end_ : Time) (e : EventRow.t) : bool :=
  negb (EventRow.cancelled e)
  && calendarVisible s (EventRow.calendar_id e)
  && overlapsRange start end_ e.

(** Ordered by start, ascending. *)
Definition startsNoLater (a b : EventRow.t) : Prop :=
  unixNano (EventRow.start_time a) <= unixNano (EventRow.start_time b).

(** [date] at 00:00 in its location. *)
Definition dayStart (date : Time) : Time :=
  Date (Year date) (Month date) (Day date) 0 0 0 0 (GoTime.Location date).

(** [date] is an instant of the given civil day, in UTC. *)
Definition onDate (year month day : Z) (date : Time) : Prop :=
  Year date = year /\ Month date = month /\ Day date = day
  /\ GoTime.Location date = UTC.

(** [e] is an event one of the read operations returns on [s]. *)
Definition returnedByRead (s : Store) (e : Event.t) : Prop :=
  (exists id, GetEvent s id = Ok e)
  \/ (exists calendarID l, GetEventsByCalendar s calendarID = Ok l /\ In e l)
  \/ (exists start end_ l, GetEventsInRange s start end_ = Ok l /\ In e l)
  \/ (exists date l, GetEventsForDate s date = Ok l /\ In e l).

(** [SaveEvent] with its error logged and dropped, as the sync loops do. *)
Definition saveOrSkip (s : Store) (e : Event.t) : Store :=
  match SaveEvent s e with
  | Ok s' => s'
  | Err _ => s
  end.

(** ** Sync runs *)

Definition notCancelled (item : EventItem) : bool :=
  negb (String.eqb (ItemStatus item) "cancelled").

Definition isTokenPost (c : main.Call) : bool :=
  match c with
  | main.TokenPost _ => true
  | _ => false
  end.

(** The number of refresh-token POSTs among some requests. *)
Definition tokenPosts (cs : list main.Call) : nat :=
  List.length (filter isTokenPost cs).

(** From [w] to [w'] requests were only added, none of them a POST to
    the token endpoint. *)
Definition noRefresh (w w' : main.World) : Prop :=
  exists more, main.calls w' = (main.calls w ++ more)%list /\ tokenPosts more = 0%nat.

(** The world once the clock has been read. *)
Definition tick (w : main.World) : main.World :=
  main.mkWorld (main.db w) (S (main.reads w)) (main.calls w).

(** The refresh request of [account] is answered by a failure. *)
Definition refreshFails (env : main.Env) (account : Account.t) : Prop :=
  match main.tokenEndpoint env (main.refreshForm env account) with
  | main.Replied _ (Ok result) => main.ResultError result <> ""
  | _ => True
  end.

(** The account after a successful refresh that answered [result],
    read at clock reading [now]. *)
Definition refreshed (account : Account.t) (result : main.TokenResult) (now : Time)
  : Account.t :=
  Account.set_TokenExpiry
    (Account.set_AccessToken account (main.ResultAccessToken result))
    (Add now (main.ResultExpiresIn result * Second)).

(** The account and the calendar [ensureDefaultCalendar] creates at clock
    readings [now1] and [now2]. *)
Definition localAccount (now1 : Time) : Account.t :=
  Account.mk ("acc-" ++ main.decimal (UnixNano now1)) "Local" AccountTypeLocal
             "" true "" "" "" "" GoTime.zero "" GoTime.zero.

Definition defaultCalendar (now1 now2 : Time) : Calendar.t :=
  Calendar.mk ("cal-" ++ main.decimal (UnixNano now2))
              (Account.ID (localAccount now1))
              "My Calendar" "" "#4285f4" true false "" GoTime.zero.

(** [needle] occurs in [hay]. *)
Definition contains (needle hay : string) : bool :=
  match String.index 0 needle hay with
  | Some _ => true
  | None => false
  end.

(** ** The codec *)

(** The DTSTART / DTEND property the encoder builds for [x]. *)
Definition timeProp (k : ical.Codec) (allDay : bool) (name : string) (x : Time)
  : ical.Prop_ :=
  if allDay then ical.SetDate k (ical.NewProp name) x
  else ical.SetDateTime k (ical.NewProp name) x.

(** The text a property holds after [SetText], as the decoder reads it. *)
Definition textValue (k : ical.Codec) (name text : string) : string :=
  ical.Value (ical.SetText k (ical.NewProp name) text).

(** The time [DateTime] reads from a property, the zero time on error. *)
Definition timeValue (k : ical.Codec) (p : ical.Prop_) : Time :=
  match ical.DateTime k p with
  | Ok x => x
  | Err _ => GoTime.zero
  end.

(** The fields of an event the round trip is about. *)
Definition view (e : Event.t) : string * string * string * bool * Time * Time :=
  (Event.Title e, Event.Description e, Event.Location e,
   Event.AllDay e, Event.Start e, Event.End e).

(** What the decoder's steps take from a property list: the value of a
    text property, the time of a date property, whether it is a date. *)
Definition propValue (props : ical.Props) (name : string) (default : string) : string :=
  match ical.Get props name with
  | Some prop => ical.Value prop
  | None => default
  end.

Definition propTime (k : ical.Codec) (props : ical.Props) (name : string)
           (default : Time) : Time :=
  match ical.Get props name with
  | Some prop =>
      match ical.DateTime k prop with
      | Ok x => x
      | Err _ => default
      end
  | None => default
  end.

Definition propIsDate (props : ical.Props) (name : string) (default : bool) : bool :=
  match ical.Get props name with
  | Some prop =>
      if String.eqb (ical.ParamsGet (ical.Parameters prop) "VALUE") "DATE"
      then true else default
  | None => default
  end.

Definition backslash : string := String (ascii_of_nat 92) EmptyString.

(** ** Data of the examples *)

(** Account [Local] with the calendars [My Calendar] (visible) and
    [Archive] (hidden), and three events: a stand-up on 2024-06-10, an
    event across the midnight after it, and an archived one with no
    status stored. *)
Definition localRow : AccountRow.t :=
  AccountRow.mk "acc-1" "Local" AccountTypeLocal (Some "") true (Some "") (Some "")
                (Some "") (Some "") (Some GoTime.zero) (Some "") (Some GoTime.zero).

Definition myCalendarRow : CalendarRow.t :=
  CalendarRow.mk "cal-1" "acc-1" "My Calendar" (Some "") (Some "#4285f4")
                 true false (Some "") None.

Definition archiveRow : CalendarRow.t :=
  CalendarRow.mk "cal-2" "acc-1" "Archive" None None false false None None.

Definition standupRow : EventRow.t :=
  EventRow.mk "evt-A" "cal-1" (Some "evt-A") "Standup" (Some "") (Some "")
              (Date 2024 6 10 9 0 0 0 UTC) (Date 2024 6 10 9 15 0 0 UTC) false
              (Some "") None [] None None (Some "") (Some "confirmed") false.

Definition midnightRow : EventRow.t :=
  EventRow.mk "evt-B" "cal-1" (Some "evt-B") "Release" (Some "") (Some "")
              (Date 2024 6 10 23 0 0 0 UTC) (Date 2024 6 11 1 0 0 0 UTC) false
              (Some "") None [] None None (Some "") (Some "tentative") false.

Definition archivedRow : EventRow.t :=
  EventRow.mk "evt-C" "cal-2" None "Old" None None
              (Date 2024 6 10 10 0 0 0 UTC) (Date 2024 6 10 11 0 0 0 UTC) false
              None None [] None None None None false.

Definition demoStore : Store :=
  mkStore [localRow] [myCalendarRow; archiveRow] [standupRow; midnightRow; archivedRow].

(** New values for the stored account, calendar and event. *)
Definition renamedAccount : Account.t :=
  Account.mk "acc-1" "Home" AccountTypeLocal "me@example.org" true "" "" "" ""
             GoTime.zero "" (Date 2024 6 10 12 0 0 0 UTC).

Definition recolouredCalendar : Calendar.t :=
  Calendar.mk "cal-1" "acc-1" "Personal" "mine" "#ff0000" true false "" GoTime.zero.

Definition movedStandup : Event.t :=
  Event.mk "evt-A" "cal-2" "evt-A" "Standup (moved)" "" "Room 2"
           (Date 2024 6 10 10 0 0 0 UTC) (Date 2024 6 10 10 15 0 0 UTC) false ""
           None [15] GoTime.zero GoTime.zero "" StatusConfirmed false.

(** Two items of a Google events list, one cancelled and one not. *)
Definition cancelledItem : EventItem :=
  mkItem "evt1" "Retro" "" "" "cancelled" "" "" "" "".

Definition liveItem : EventItem :=
  mkItem "evt2" "Planning" "" "Room 1" "confirmed" "" "" "" "".

(** A Calendar API whose events list is the cancelled item alone. *)
Definition oneCancelled : google.API :=
  google.mkAPI (Err "unused")
    (fun _ _ _ => Ok (mkResponse 200 "200 OK" (Ok [cancelledItem]))).

(** A VEVENT as a CalDAV server reports a cancelled meeting. *)
Definition cancelledVEvent : ical.Component :=
  ical.mkComponent ical.CompEvent
    [ (ical.PropUID, ical.mkProp ical.PropUID [] "m1");
      (ical.PropSummary, ical.mkProp ical.PropSummary [] "Offsite");
      (ical.PropStatus, ical.mkProp ical.PropStatus [] "CANCELLED") ].

(** An environment whose clock stands at 2024-06-10T12:00Z and whose
    peers answer nothing. *)
Definition silentEnv : main.Env :=
  main.mkEnv (fun _ => Date 2024 6 10 12 0 0 0 UTC)
    (fun _ _ => Err "no parse") goical.codec "client" "secret"
    (fun _ => main.PostFailed "unreachable")
    (fun _ => Err "unreachable")
    (fun _ _ _ _ => Err "unreachable")
    (fun _ => caldav.mkServer (Some "unreachable") (Err "unreachable")
                (fun _ => Err "unreachable") (fun _ _ _ => Err "unreachable")).

(** The same with the clock at 2024-03-31T12:00Z. *)
Definition marchEnv : main.Env :=
  main.mkEnv (fun _ => Date 2024 3 31 12 0 0 0 UTC)
    (main.parse silentEnv) (main.codec silentEnv) "client" "secret"
    (main.tokenEndpoint silentEnv) (main.calendarListEndpoint silentEnv)
    (main.eventsEndpoint silentEnv) (main.caldavServer silentEnv).

(** A Google peer, clock at 2024-06-10T12:00Z: the token endpoint grants
    [new-token] for an hour, the calendar list holds [primary], and the
    events of a calendar are the cancelled item and the live one. *)
Definition googleEnv : main.Env :=
  main.mkEnv (fun _ => Date 2024 6 10 12 0 0 0 UTC)
    (fun _ _ => Err "no parse") goical.codec "client" "secret"
    (fun _ => main.Replied 200 (Ok (main.mkToken "new-token" 3600 "" "")))
    (fun _ => Ok (mkResponse 200 "200 OK"
                    (Ok [mkCalItem "primary" "Primary" "" "" "owner"])))
    (fun _ _ _ _ => Ok (mkResponse 200 "200 OK" (Ok [cancelledItem; liveItem])))
    (main.caldavServer silentEnv).

(** A Google account whose token expired on 2024-06-01: without a
    refresh token, with one, and with a token good until 2024-07-01. *)
Definition expiredNoRefreshToken : Account.t :=
  Account.mk "acc-1" "Google - a@example.org" AccountTypeGoogle "a@example.org" true
    "" "" "old-token" "" (Date 2024 6 1 0 0 0 0 UTC) "" GoTime.zero.

Definition expiredAccount : Account.t :=
  Account.mk "acc-1" "Google - a@example.org" AccountTypeGoogle "a@example.org" true
    "" "" "old-token" "refresh-1" (Date 2024 6 1 0 0 0 0 UTC) "" GoTime.zero.

Definition freshAccount : Account.t :=
  Account.set_TokenExpiry expiredAccount (Date 2024 7 1 0 0 0 0 UTC).

Definition primaryCalendar : Calendar.t :=
  Calendar.mk "primary" "acc-1" "Primary" "" "#4285f4" true false "" GoTime.zero.

(** A store that holds the Google account and no calendar, and one that
    holds its [primary] calendar too. *)
Definition accountWithoutCalendars : Store :=
  mkStore [accountRow expiredNoRefreshToken] [] [].

Definition googleStore : Store :=
  mkStore [accountRow expiredNoRefreshToken] [calendarRow primaryCalendar] [].

(** Two events without a character that text escaping touches: a timed
    one, given in a +02:00 zone to the nanosecond, and an all-day one;
    and an event whose title holds a comma. *)
Definition review : Event.t :=
  Event.mk "e2" "/cal/work/" "e2" "Design review" "Agenda on the wiki" "Room 1"
           (Date 2024 6 10 16 0 5 123456789 7200) (Date 2024 6 10 17 30 0 0 7200)
           false "" None [] GoTime.zero GoTime.zero "" StatusTentative false.

Definition holiday : Event.t :=
  Event.mk "e3" "/cal/home/" "e3" "Holiday" "" ""
           (Date 2024 12 25 0 0 0 0 UTC) (Date 2024 12 26 0 0 0 0 UTC)
           true "" None [] GoTime.zero GoTime.zero "" StatusConfirmed false.

Definition lunch : Event.t :=
  Event.mk "e1" "/cal/work/" "e1" "Lunch, then coffee" "" "Cafe"
           (Date 2024 6 10 12 0 0 0 UTC) (Date 2024 6 10 13 0 0 0 UTC) false ""
           None [] GoTime.zero GoTime.zero "" StatusConfirmed false.

(** ** The store as its callers use it *)

(** What a read returns for a calendar saved as [c], and for an event
    saved as [e]: the scan helpers put the default where the colour, or
    the status, is empty. *)
Definition savedCalendar (c : Calendar.t) : Calendar.t :=
  if String.eqb (Calendar.Color c) "" then Calendar.set_Color c "#4285f4" else c.

Definition savedEvent (e : Event.t) : Event.t :=
  if String.eqb (Event.Status e) "" then Event.set_Status e StatusConfirmed else e.

(** A call of one of the writing methods of [Store]. *)
Inductive StoreOp :=
| OpSaveAccount (a : Account.t)
| OpSaveCalendar (c : Calendar.t)
| OpSaveEvent (e : Event.t)
| OpDeleteAccount (id : string)
| OpDeleteCalendar (id : string)
| OpDeleteEvent (id : string)
| OpDeleteEventsByCalendar (calendarID : string).

Definition runOp (s : Store) (op : StoreOp) : Result Store :=
  match op with
  | OpSaveAccount a => SaveAccount s a
  | OpSaveCalendar c => SaveCalendar s c
  | OpSaveEvent e => SaveEvent s e
  | OpDeleteAccount id => DeleteAccount s id
  | OpDeleteCalendar id => DeleteCalendar s id
  | OpDeleteEvent id => DeleteEvent s id
  | OpDeleteEventsByCalendar calendarID => DeleteEventsByCalendar s calendarID
  end.

(** The database after the call: a statement that fails leaves it. *)
Definition afterOp (s : Store) (op : StoreOp) : Store :=
  match runOp s op with
  | Ok s' => s'
  | Err _ => s
  end.

(** Orders of the listings. *)
Definition calendarNameOrder (a b : Calendar.t) : Prop :=
  String.leb (Calendar.Name a) (Calendar.Name b) = true.

Definition accountNameOrder (a b : Account.t) : Prop :=
  String.leb (Account.Name a) (Account.Name b) = true.

Definition startOrder (a b : Event.t) : Prop :=
  unixNano (Event.Start a) <= unixNano (Event.Start b).

(** The rows [GetEventsByCalendar] selects. *)
Definition ofCalendar (calendarID : string) (r : EventRow.t) : bool :=
  String.eqb (EventRow.calendar_id r) calendarID && negb (EventRow.cancelled r).

(** ** The providers *)

(** The fields of an event that the view of the codec leaves out. *)
Definition meta (e : Event.t)
  : string * string * string * string * EventStatus * bool * Time * Time
    * string * option RecurrenceRule.t * list Z :=
  (Event.ID e, Event.UID e, Event.CalendarID e, Event.ETag e, Event.Status e,
   Event.Cancelled e, Event.Created e, Event.Modified e,
   Event.Color e, Event.Recurrence e, Event.Reminders e).

(** The status, and the cancelled flag, the decoder takes from STATUS. *)
Definition propStatus (props : ical.Props) (default : EventStatus * bool)
  : EventStatus * bool :=
  match ical.Get props ical.PropStatus with
  | Some prop =>
      if String.eqb (ical.Value prop) "CONFIRMED" then (StatusConfirmed, snd default)
      else if String.eqb (ical.Value prop) "TENTATIVE" then (StatusTentative, snd default)
      else if String.eqb (ical.Value prop) "CANCELLED" then (StatusCancelled, true)
      else default
  | None => default
  end.

(** The status an encoded event comes back with. *)
Definition statusAfterRoundTrip (status : EventStatus) : EventStatus :=
  if String.eqb status StatusTentative then StatusTentative
  else if String.eqb status StatusCancelled then StatusCancelled
  else StatusConfirmed.

(** The codec stores the three STATUS words as they are. *)
Definition keepsStatusWords (k : ical.Codec) : Prop :=
  forall word, In word ["CONFIRMED"; "TENTATIVE"; "CANCELLED"] ->
               textValue k ical.PropStatus word = word.

(** An object [parseICalEvent] accepts: it has data with a VEVENT. *)
Definition hasVEvent (obj : caldav.CalendarObject) : bool :=
  match caldav.Data obj with
  | None => false
  | Some data =>
      existsb (fun c => String.eqb (ical.CompName c) ical.CompEvent) (ical.Children data)
  end.

(** The dates of an item that the two mappings of the Google events list
    read alike: the start is a date-time, or a date that parses, or
    absent. *)
Definition startReadsAlike (parse : Parser) (item : EventItem) : Prop :=
  StartDateTime item = "" -> StartDate item <> "" ->
  exists x, parse DateOnly (StartDate item) = Ok x.

(** ** Runs of the sync *)

(** A property of the step from one world to the next holds of every run
    of a computation. *)
Definition always {A : Type} (R : main.World -> main.World -> Prop) (m : main.M A)
  : Prop :=
  forall w, R w (snd (m w)).

(** The rows of [s] are still rows of [s'], by identifier. *)
Definition rowsKept (s s' : Store) : Prop :=
  incl (map AccountRow.id (accounts s)) (map AccountRow.id (accounts s'))
  /\ incl (map CalendarRow.id (calendars s)) (map CalendarRow.id (calendars s'))
  /\ incl (map EventRow.id (events s)) (map EventRow.id (events s')).

(** From [w] to [w'] the database stayed consistent, if it was, and lost
    no row. *)
Definition soundStep (w w' : main.World) : Prop :=
  (consistent (main.db w) -> consistent (main.db w'))
  /\ rowsKept (main.db w) (main.db w').

Definition isCalDAVQuery (c : main.Call) : bool :=
  match c with
  | main.CalDAVQuery _ _ _ => true
  | _ => false
  end.

(** From [w] to [w'] requests were only added, all of them accepted by
    [ok]. *)
Definition onlyCalls (ok : main.Call -> bool) (w w' : main.World) : Prop :=
  exists more, main.calls w' = (main.calls w ++ more)%list /\ forallb ok more = true.

(** The accounts [syncAllAccounts] takes up. *)
Definition syncedAtStartup (a : Account.t) : bool :=
  String.eqb (Account.Type_ a) AccountTypeGoogle
  && negb (String.eqb (Account.AccessToken a) "").

(** The calendar [id] is stored under [accountID] and visible. *)
Definition shownUnder (accountID id : string) (s : Store) : Prop :=
  exists r, find (hasKey CalendarRow.id id) (calendars s) = Some r
            /\ CalendarRow.account_id r = accountID
            /\ CalendarRow.visible r = true.

(** ** Civil dates *)

(** The days of a month. *)
Definition monthLength (year month : Z) : Z :=
  if (month =? 2) && isLeap year then 29
  else daysBefore month - daysBefore (month - 1).

(** A date of the calendar. *)
Definition validDate (year month day : Z) : Prop :=
  1 <= month <= 12 /\ 1 <= day <= monthLength year month.

(** The day of the civil date of day [n] is a day of its month. *)
Definition civilInMonth (n : Z) : bool :=
  let '(y, m, d) := civil n in d <=? monthLength y m.

(** Monday is column 0 of the month view, Sunday column 6. *)
Definition mondayColumn (weekday : Z) : Z := (weekday + 6) mod 7.

(** ** The month view *)

(** The numbers [0 .. count - 1]. *)
Definition upTo (count : nat) : list Z := map Z.of_nat (seq 0 count).

(** The cell the loop of [updateMonthViewWithEvents] attaches [k] days
    after it placed day [day] at column [col] of row [row]. *)
Definition cellAfter (format : main.Formatter) (eventsByDate : main.EventsByDate)
           (currentDate today selectedDate : Time) (day col row k : Z)
  : main.DayCell :=
  let date :=
    Date (Year currentDate) (Month currentDate) (day + k) 0 0 0 0
         (GoTime.Location currentDate) in
  main.mkDayCell (day + k) date (eventsByDate (format DateOnly date))
                  (main.sameDate date today) (main.sameDate date selectedDate)
                  ((col + k) mod 7) (row + (col + k) / 7).

(** [format] gives two of the instants the same date key exactly when
    they are of the same civil date, each in its location. *)
Definition datesKeyed (format : main.Formatter) (instants : list Time) : Prop :=
  forall a b, In a instants -> In b instants ->
              (format DateOnly a = format DateOnly b <-> main.sameDate a b = true).

(** ** Waybar mode and the sidebar *)

(** The stored events of the day of [now]. *)
Definition eventsOfDay (s : Store) (now : Time) : list EventRow.t :=
  filter (selected s (dayStart now) (Add (dayStart now) (24 * Hour))) (events s).

(** The calendar rows of a sidebar item. *)
Definition sectionRows (item : main.SidebarItem) : list Calendar.t :=
  match item with
  | main.NoCalendarsLabel => []
  | main.AccountSection _ rows => rows
  end.

(** [item] is the section of a stored account: it bears the name of the
    account, has a row, and all its rows are calendars of the account. *)
Definition sectionOf (s : Store) (item : main.SidebarItem) : Prop :=
  exists a,
    In a (accounts s)
    /\ item = main.AccountSection (AccountRow.name a) (sectionRows item)
    /\ sectionRows item <> []
    /\ Forall (fun c => Calendar.AccountID c = AccountRow.id a) (sectionRows item).

(** ** Further data of the examples *)

(** A calendar and an event that are new to the example database, saved
    without a colour and without a status. *)
Definition plainCalendar : Calendar.t :=
  Calendar.mk "cal-3" "acc-1" "Plain" "" "" true false "" GoTime.zero.

Definition plainEvent : Event.t :=
  Event.mk "evt-D" "cal-1" "evt-D" "Plain" "" ""
           (Date 2024 6 12 9 0 0 0 UTC) (Date 2024 6 12 10 0 0 0 UTC) false ""
           None [] GoTime.zero GoTime.zero "" "" false.

(** An event that overlaps [lunch]. *)
Definition brunch : Event.t :=
  Event.mk "e4" "/cal/home/" "e4" "Brunch" "" ""
           (Date 2024 6 10 11 0 0 0 UTC) (Date 2024 6 10 12 30 0 0 UTC) false ""
           None [] GoTime.zero GoTime.zero "" StatusConfirmed false.

(** A Calendar API whose calendar list holds an owned calendar and one
    the account may only read. *)
Definition listAPI : google.API :=
  google.mkAPI
    (Ok (mkResponse 200 "200 OK"
           (Ok [mkCalItem "primary" "Primary" "" "#0000ff" "owner";
                mkCalItem "holidays" "Holidays" "" "" "reader"])))
    (fun _ _ _ => Err "unused").

(** Writing requests that are accepted and answered [201 Created]. *)
Definition accepting : google.Writes :=
  google.mkWrites (fun _ _ => None) (fun _ _ => Ok (201, "201 Created"))
                   (fun _ => Ok (204, "204 No Content")).

(** An item of a Google events list without a status, and one whose
    start date does not parse. *)
Definition bareItem : EventItem :=
  mkItem "evt3" "Draft" "" "" "" "" "" "" "".

Definition badDateItem : EventItem :=
  mkItem "evt4" "Trip" "" "" "confirmed" "" "next week" "" "".

(** A CalDAV account, and a server that reports one calendar and, for
    it, the encoded [review] and an object without data. *)
Definition davAccount : Account.t :=
  Account.mk "acc-2" "Work" AccountTypeCalDAV "" true "https://dav.example.org/"
             "me" "" "" GoTime.zero "app-password" GoTime.zero.

Definition reviewObject : caldav.CalendarObject :=
  caldav.stored "/cal/work/e2.ics" "etag-1"
                (caldav.eventToICal goical.codec GoTime.zero review).

Definition davServer : caldav.Server :=
  caldav.mkServer None (Ok "/home/")
    (fun _ => Ok [caldav.mkRemote "/cal/work/" "Work" ""])
    (fun _ _ _ => Ok [caldav.mkObject "/cal/work/e0.ics" "etag-0" None; reviewObject]).

Definition davEnv : main.Env :=
  main.mkEnv (main.clock silentEnv) (main.parse silentEnv) goical.codec
    "client" "secret" (main.tokenEndpoint silentEnv)
    (main.calendarListEndpoint silentEnv) (main.eventsEndpoint silentEnv)
    (fun _ => davServer).

(** Peers of a sign-in that grant the two tokens and know the email. *)
Definition grantingPeers : main.OAuthPeers :=
  main.mkOAuthPeers
    (fun _ => main.ExchangeReplied (main.mkExchange "new-token" "refresh-1" "" ""))
    (fun _ => Some "a@example.org")
    (fun email => email).

(** The date key of the examples: year, month and day in decimal. *)
Definition numericDate : main.Formatter :=
  fun _ x =>
    main.decimal (Year x) ++ "-" ++ main.decimal (Month x) ++ "-"
    ++ main.decimal (Day x).

(** [datesKeyed], decided on a list. *)
Definition datesKeyedb (format : main.Formatter) (instants : list Time) : bool :=
  forallb (fun a =>
             forallb (fun b =>
                        Bool.eqb (String.eqb (format DateOnly a) (format DateOnly b))
                                 (main.sameDate a b))
                     instants)
          instants.

(** The Google account with a good token, stored with its [primary]
    calendar hidden. *)
Definition hiddenPrimaryStore : Store :=
  mkStore [accountRow freshAccount]
          [calendarRow (Calendar.mk "primary" "acc-1" "Primary" "" "#4285f4" false
                                    false "" GoTime.zero)]
          [].

(* ================================================================== *)
(** * Properties                                                       *)
(* ================================================================== *)

(** ** The time model on known dates *)

Example Date_epoch : Date 1970 1 1 0 0 0 0 UTC = mkTime 0 0.
Proof. reflexivity. Qed.

Example Date_2024_06_10 :
  unixNano (Date 2024 6 10 23 0 0 0 UTC) = 1718060400 * Second.
Proof. reflexivity. Qed.

Example civil_2024_02_29 :
  let x := Date 2024 2 29 13 14 15 16 3600 in
  (Year x, Month x, Day x, HourOf x, MinuteOf x, SecondOf x, NanosecondOf x)
  = (2024, 2, 29, 13, 14, 15, 16).
Proof. vm_compute. reflexivity. Qed.

Example AddDate_normalises :
  AddDate (Date 2024 3 31 12 0 0 0 UTC) 0 (-1) 0 = Date 2024 3 2 12 0 0 0 UTC.
Proof. vm_compute. reflexivity. Qed.

Example zero_is_year_one : GoTime.zero = Date 1 1 1 0 0 0 0 UTC.
Proof. vm_compute. reflexivity. Qed.

(** The civil date of a day number is a date of that day number: checked
    on the 146097 days of one 400-year era, and carried to the others. *)
Lemma checkDays_spec (check : Z -> bool) (count : nat) (from : Z) :
  checkDays check count from = true ->
  forall n, from <= n < from + Z.of_nat count -> check n = true.
Proof.
  revert from. induction count as [|count IH]; intros from H n Hn; [lia|].
  simpl in H. apply andb_true_iff in H. destruct H as [Hfrom Hrest].
  destruct (Z.eq_dec n from) as [->|Hne]; [exact Hfrom|].
  apply (IH (from + 1) Hrest). lia.
Qed.

Lemma civil_one_era :
  checkDays civilInverts (Z.to_nat 146097) (- 719468) = true.
Proof. vm_compute. reflexivity. Qed.

Lemma civil_shift (n k : Z) :
  civil (n + 146097 * k)
  = let '(y, m, d) := civil n in (y + 400 * k, m, d).
Proof.
  unfold civil.
  replace (n + 146097 * k + 719468) with (n + 719468 + k * 146097) by ring.
  rewrite Z.div_add by lia.
  set (z := n + 719468).
  replace (z + k * 146097 - (z / 146097 + k) * 146097)
    with (z - z / 146097 * 146097) by ring.
  set (doe := z - z / 146097 * 146097).
  set (yoe := (doe - doe / 1460 + doe / 36524 - doe / 146096) / 365).
  set (doy := doe - (365 * yoe + yoe / 4 - yoe / 100)).
  set (mp := (5 * doy + 2) / 153).
  cbv zeta. f_equal. f_equal. ring.
Qed.

Lemma isLeap_shift (y k : Z) : isLeap (y + 400 * k) = isLeap y.
Proof.
  unfold isLeap.
  replace (y + 400 * k) with (y + (100 * k) * 4) at 1 by ring.
  replace (y + 400 * k) with (y + (4 * k) * 100) at 1 by ring.
  replace (y + 400 * k) with (y + k * 400) by ring.
  now rewrite !Z.mod_add by lia.
Qed.

Lemma daysOf_shift (y m d k : Z) :
  daysOf (y + 400 * k) m d = daysOf y m d + 146097 * k.
Proof.
  unfold daysOf, daysSinceEpoch.
  replace (y + 400 * k + (m - 1) / 12) with (y + (m - 1) / 12 + 400 * k) by ring.
  rewrite isLeap_shift.
  set (Y := y + (m - 1) / 12).
  replace (Y + 400 * k - 1) with (Y - 1 + (100 * k) * 4) at 1 by ring.
  replace (Y + 400 * k - 1) with (Y - 1 + (4 * k) * 100) at 1 by ring.
  replace (Y + 400 * k - 1) with (Y - 1 + k * 400) by ring.
  rewrite !Z.div_add by lia. ring.
Qed.

Lemma civil_era (n : Z) :
  - 719468 <= n < - 719468 + 146097 -> civilInverts n = true.
Proof.
  intro Hn. apply (checkDays_spec civilInverts (Z.to_nat 146097) (- 719468)).
  - exact civil_one_era.
  - rewrite Z2Nat.id; lia.
Qed.

Lemma era_split (n : Z) :
  exists doe k, 0 <= doe < 146097 /\ n = (doe - 719468) + 146097 * k.
Proof.
  exists ((n + 719468) mod 146097), ((n + 719468) / 146097).
  split; [apply Z.mod_pos_bound; lia|].
  pose proof (Z.div_mod (n + 719468) 146097 ltac:(lia)). lia.
Qed.

Lemma civilInverts_spec (n y m d : Z) :
  civilInverts n = true -> civil n = (y, m, d) ->
  daysOf y m d = n /\ 1 <= m <= 12 /\ 1 <= d <= 31.
Proof.
  unfold civilInverts. intros H Hc. rewrite Hc in H.
  rewrite !andb_true_iff, Z.eqb_eq, !Z.leb_le in H. lia.
Qed.

Lemma civil_daysOf (n y m d : Z) :
  civil n = (y, m, d) -> daysOf y m d = n /\ 1 <= m <= 12 /\ 1 <= d <= 31.
Proof.
  intro Hc. destruct (era_split n) as [doe [k [Hdoe Hn]]].
  rewrite Hn, civil_shift in Hc.
  destruct (civil (doe - 719468)) as [[y0 m0] d0] eqn:E.
  assert (civilInverts (doe - 719468) = true) as Hera by (apply civil_era; lia).
  destruct (civilInverts_spec _ _ _ _ Hera E) as [H1 H2].
  assert (y = y0 + 400 * k /\ m = m0 /\ d = d0) as [-> [-> ->]]
      by (repeat split; congruence).
  rewrite daysOf_shift. lia.
Qed.

(** [time.Date] of the civil date of an instant, at 00:00 in its
    location, is the start of the instant's day there. *)
Lemma dayStart_abs (x : Time) : abs (dayStart x) = abs x / 86400 * 86400.
Proof.
  unfold dayStart, Date, Year, Month, Day, GoTime.Location, abs at 1.
  destruct (civil (abs x / 86400)) as [[y m] d] eqn:E.
  cbn [fst snd unixNano zoneOffset].
  destruct (civil_daysOf _ _ _ _ E) as [-> _].
  rewrite Z.add_0_r, Z.div_mul by (unfold Second; lia). ring.
Qed.

Lemma dayStart_whole_seconds (x : Time) :
  unixNano (dayStart x) = (abs x / 86400 * 86400 - zoneOffset x) * Second.
Proof.
  unfold dayStart, Date, Year, Month, Day, GoTime.Location.
  destruct (civil (abs x / 86400)) as [[y m] d] eqn:E.
  cbn [fst snd unixNano zoneOffset].
  destruct (civil_daysOf _ _ _ _ E) as [-> _]. ring.
Qed.

Lemma dayStart_midnight (x : Time) :
  Year (dayStart x) = Year x /\ Month (dayStart x) = Month x
  /\ Day (dayStart x) = Day x /\ GoTime.Location (dayStart x) = GoTime.Location x
  /\ HourOf (dayStart x) = 0 /\ MinuteOf (dayStart x) = 0
  /\ SecondOf (dayStart x) = 0 /\ NanosecondOf (dayStart x) = 0.
Proof.
  unfold Year, Month, Day, HourOf, MinuteOf, SecondOf, NanosecondOf.
  rewrite dayStart_abs, dayStart_whole_seconds.
  rewrite Z.div_mul by lia.
  replace (abs x / 86400 * 86400 mod 86400) with 0
    by (symmetry; apply Z.mod_mul; lia).
  replace (abs x / 86400 * 86400 mod 3600) with 0.
  2:{ replace (abs x / 86400 * 86400) with (abs x / 86400 * 24 * 3600) by ring.
      symmetry; apply Z.mod_mul; lia. }
  replace (abs x / 86400 * 86400 mod 60) with 0.
  2:{ replace (abs x / 86400 * 86400) with (abs x / 86400 * 1440 * 60) by ring.
      symmetry; apply Z.mod_mul; lia. }
  rewrite Z.mod_mul by (unfold Second; lia).
  repeat split.
Qed.

Lemma dayStart_contains (x : Time) :
  unixNano (dayStart x) <= unixNano x < unixNano (Add (dayStart x) (24 * Hour)).
Proof.
  unfold Add. cbn [unixNano]. rewrite dayStart_whole_seconds.
  unfold abs, Hour, Minute, Second.
  pose proof (Z.div_mod (unixNano x) 1000000000 ltac:(lia)).
  pose proof (Z.mod_pos_bound (unixNano x) 1000000000 ltac:(lia)).
  pose proof (Z.div_mod (unixNano x / 1000000000 + zoneOffset x) 86400 ltac:(lia)).
  pose proof (Z.mod_pos_bound (unixNano x / 1000000000 + zoneOffset x) 86400 ltac:(lia)).
  lia.
Qed.

(** *** Month arithmetic of [AddDate] *)

(** A count of seconds is its days, hours, minutes and seconds. *)
Lemma clock_recomposes (a : Z) :
  a / 86400 * 86400 + a mod 86400 / 3600 * 3600 + a mod 3600 / 60 * 60 + a mod 60 = a.
Proof. Z.to_euclidean_division_equations. lia. Qed.

(** An instant is the [time.Date] of its date and clock. *)
Lemma Date_components (x : Time) :
  Date (Year x) (Month x) (Day x) (HourOf x) (MinuteOf x) (SecondOf x)
       (NanosecondOf x) (GoTime.Location x) = x.
Proof.
  unfold Date, Year, Month, Day, HourOf, MinuteOf, SecondOf, NanosecondOf,
    GoTime.Location.
  destruct (civil (abs x / 86400)) as [[y m] d] eqn:E.
  cbn [fst snd].
  destruct (civil_daysOf _ _ _ _ E) as [-> _].
  rewrite clock_recomposes. unfold abs.
  destruct x as [ns off]. cbn [unixNano zoneOffset]. f_equal.
  pose proof (Z.div_mod ns Second ltac:(unfold Second; lia)). lia.
Qed.

Lemma year_length (y : Z) :
  daysSinceEpoch (y + 1) - daysSinceEpoch y = if isLeap y then 366 else 365.
Proof.
  unfold daysSinceEpoch, isLeap.
  replace (y + 1 - 1) with y by ring.
  destruct (Z.eqb_spec (y mod 4) 0), (Z.eqb_spec (y mod 100) 0),
    (Z.eqb_spec (y mod 400) 0); cbn [andb orb negb];
    Z.to_euclidean_division_equations; lia.
Qed.

Lemma year_before (y : Z) :
  daysSinceEpoch (y + -1) = daysSinceEpoch y - (if isLeap (y + -1) then 366 else 365).
Proof.
  pose proof (year_length (y + -1)) as H.
  replace (y + -1 + 1) with y in H by ring. lia.
Qed.

Lemma year_after (y : Z) :
  daysSinceEpoch (y + 1) = daysSinceEpoch y + (if isLeap y then 366 else 365).
Proof. pose proof (year_length y). lia. Qed.

Ltac month_cases m :=
  let H := fresh in
  assert (m = 1 \/ m = 2 \/ m = 3 \/ m = 4 \/ m = 5 \/ m = 6 \/ m = 7
          \/ m = 8 \/ m = 9 \/ m = 10 \/ m = 11 \/ m = 12) as H by lia;
  repeat (destruct H as [H|H]; [subst m|]); [..|subst m].

Ltac month_arith :=
  unfold daysOf;
  repeat match goal with
         | |- context [?a / 12] =>
             let v := eval vm_compute in (a / 12) in progress change (a / 12) with v
         | |- context [?a mod 12] =>
             let v := eval vm_compute in (a mod 12) in progress change (a mod 12) with v
         | |- context [daysBefore ?k] =>
             let v := eval vm_compute in (daysBefore k) in
             progress change (daysBefore k) with v
         | |- context [2 <=? ?k] =>
             let v := eval vm_compute in (2 <=? k) in progress change (2 <=? k) with v
         end;
  rewrite ?Z.add_0_r, ?andb_true_r, ?andb_false_r, ?year_before, ?year_after;
  repeat match goal with
         | |- context [isLeap ?y] => destruct (isLeap y)
         end;
  lia.

(** One calendar month back is 28 to 31 days back, three calendar
    months ahead 89 to 92 days ahead. *)
Lemma month_back (y m d : Z) :
  1 <= m <= 12 -> 28 <= daysOf y m d - daysOf y (m - 1) d <= 31.
Proof. intro Hm. month_cases m; month_arith. Qed.

Lemma months_ahead (y m d : Z) :
  1 <= m <= 12 -> 89 <= daysOf y (m + 3) d - daysOf y m d <= 92.
Proof. intro Hm. month_cases m; month_arith. Qed.

(** Two [time.Date]s that differ in the month only are whole days
    apart: the difference of their day numbers. *)
Lemma Date_months (y m m' d h mi sec ns loc : Z) :
  Date y m' d h mi sec ns loc
  = Add (Date y m d h mi sec ns loc) ((daysOf y m' d - daysOf y m d) * (24 * Hour)).
Proof.
  unfold Date, Add. cbn [unixNano zoneOffset]. f_equal.
  unfold Hour, Minute, Second. lia.
Qed.

Lemma AddDate_months (x : Time) (months : Z) :
  AddDate x 0 months 0
  = Add x ((daysOf (Year x) (Month x + months) (Day x)
            - daysOf (Year x) (Month x) (Day x)) * (24 * Hour)).
Proof.
  unfold AddDate. rewrite !Z.add_0_r.
  rewrite (Date_months (Year x) (Month x)).
  now rewrite Date_components.
Qed.

Lemma Month_range (x : Time) : 1 <= Month x <= 12.
Proof.
  unfold Month. destruct (civil (abs x / 86400)) as [[y m] d] eqn:E.
  cbn [fst snd]. now destruct (civil_daysOf _ _ _ _ E) as [_ [H _]].
Qed.

Lemma AddDate_month_back (x : Time) :
  exists back, 28 <= back <= 31
               /\ AddDate x 0 (-1) 0 = Add x (- (back * (24 * Hour))).
Proof.
  exists (daysOf (Year x) (Month x) (Day x)
          - daysOf (Year x) (Month x - 1) (Day x)).
  split; [apply month_back, Month_range|].
  rewrite AddDate_months. f_equal.
  change (Month x - 1) with (Month x + -1).
  generalize (daysOf (Year x) (Month x) (Day x)),
    (daysOf (Year x) (Month x + -1) (Day x)), (24 * Hour).
  intros a b c. ring.
Qed.

Lemma AddDate_months_ahead (x : Time) :
  exists ahead, 89 <= ahead <= 92
                /\ AddDate x 0 3 0 = Add x (ahead * (24 * Hour)).
Proof.
  exists (daysOf (Year x) (Month x + 3) (Day x)
          - daysOf (Year x) (Month x) (Day x)).
  split; [apply months_ahead, Month_range|].
  now rewrite AddDate_months.
Qed.

(** ** Lists: ORDER BY *)

Section OrderBy.

Context {A : Type} (le : A -> A -> bool).
Hypothesis le_total : forall a b, le a b = true \/ le b a = true.

Let leP (a b : A) : Prop := le a b = true.

Lemma insertBy_perm (x : A) (l : list A) : Permutation (x :: l) (insertBy le x l).
Proof.
  induction l as [|y l IH]; simpl.
  - apply Permutation_refl.
  - destruct (le x y).
    + apply Permutation_refl.
    + eapply perm_trans; [apply perm_swap|]. now apply perm_skip.
Qed.

Lemma orderBy_perm (l : list A) : Permutation l (orderBy le l).
Proof.
  induction l as [|x l IH]; simpl.
  - constructor.
  - eapply perm_trans; [apply perm_skip, IH|]. apply insertBy_perm.
Qed.

Lemma insertBy_hd (x a : A) (l : list A) :
  leP a x -> HdRel leP a l -> HdRel leP a (insertBy le x l).
Proof.
  intros Hax Hl. destruct l as [|y l]; simpl.
  - now constructor.
  - destruct (le x y); constructor; auto. now inversion Hl.
Qed.

Lemma insertBy_sorted (x : A) (l : list A) :
  Sorted leP l -> Sorted leP (insertBy le x l).
Proof.
  induction 1 as [|y l Hs IH Hhd]; simpl.
  - repeat constructor.
  - destruct (le x y) eqn:E.
    + constructor; [now constructor | now constructor].
    + constructor; [exact IH|].
      apply insertBy_hd; [|exact Hhd].
      destruct (le_total x y) as [H|H]; [congruence | exact H].
Qed.

Lemma orderBy_sorted (l : list A) : Sorted leP (orderBy le l).
Proof.
  induction l as [|x l IH]; simpl.
  - constructor.
  - now apply insertBy_sorted.
Qed.

Lemma orderBy_In (l : list A) (x : A) : In x (orderBy le l) <-> In x l.
Proof.
  split; intro H.
  - eapply Permutation_in; [apply Permutation_sym, orderBy_perm | exact H].
  - eapply Permutation_in; [apply orderBy_perm | exact H].
Qed.

Lemma orderBy_length (l : list A) : List.length (orderBy le l) = List.length l.
Proof. symmetry. apply Permutation_length, orderBy_perm. Qed.

End OrderBy.

(** ** Tables: keys and upsert *)

Section Tables.

Context {R : Type} (key : R -> string).

Lemma existsb_key (k : string) (tbl : list R) :
  existsb (hasKey key k) tbl = true <-> In k (map key tbl).
Proof.
  unfold hasKey. rewrite existsb_exists, in_map_iff. split.
  - intros [r [Hin Heq]]. apply String.eqb_eq in Heq. eauto.
  - intros [r [Heq Hin]]. exists r. split; [exact Hin|]. now apply String.eqb_eq.
Qed.

Lemma filter_key_absent (k : string) (tbl : list R) :
  ~ In k (map key tbl) -> filter (hasKey key k) tbl = [].
Proof.
  induction tbl as [|r tbl IH]; simpl; intro H; [reflexivity|].
  unfold hasKey at 1. destruct (String.eqb_spec (key r) k) as [E|E].
  - exfalso. apply H. now left.
  - apply IH. intro Hin. apply H. now right.
Qed.

Lemma filter_key_unique (k : string) (tbl : list R) :
  NoDup (map key tbl) ->
  filter (hasKey key k) tbl = [] \/ exists r, In r tbl /\ key r = k /\ filter (hasKey key k) tbl = [r].
Proof.
  induction tbl as [|r tbl IH]; simpl; intro Hnd; [now left|].
  inversion Hnd as [|? ? Hnotin Hnd']; subst.
  destruct (hasKey key k r) eqn:E; unfold hasKey in E;
    [apply String.eqb_eq in E | apply String.eqb_neq in E].
  - right. exists r. repeat split; auto.
    rewrite filter_key_absent; [reflexivity|]. now rewrite <- E.
  - destruct (IH Hnd') as [H|[r' [Hin [Hk Hf]]]]; [now left|].
    right. exists r'. auto.
Qed.

Lemma find_key_In (k : string) (tbl : list R) (r : R) :
  find (hasKey key k) tbl = Some r -> In r tbl /\ key r = k.
Proof.
  intro H. apply find_some in H. destruct H as [Hin Hk].
  split; [exact Hin|]. now apply String.eqb_eq.
Qed.

Lemma key_inj_In (tbl : list R) (a b : R) :
  NoDup (map key tbl) -> In a tbl -> In b tbl -> key a = key b -> a = b.
Proof.
  induction tbl as [|r tbl IH]; simpl; intros Hnd Ha Hb Hk; [contradiction|].
  inversion Hnd as [|? ? Hnotin Hnd']; subst.
  destruct Ha as [Ha|Ha], Hb as [Hb|Hb]; subst; auto.
  - exfalso. apply Hnotin. rewrite Hk. now apply in_map.
  - exfalso. apply Hnotin. rewrite <- Hk. now apply in_map.
Qed.

Context (doUpdate : R -> R -> R).
Hypothesis doUpdate_same_key :
  forall old excluded, key old = key excluded -> doUpdate old excluded = excluded.

Lemma upsert_absent (x : R) (tbl : list R) :
  ~ In (key x) (map key tbl) -> upsert key doUpdate x tbl = (tbl ++ [x])%list.
Proof.
  induction tbl as [|r tbl IH]; simpl; intro H; [reflexivity|].
  destruct (String.eqb_spec (key r) (key x)) as [E|E].
  - exfalso. apply H. now left.
  - f_equal. apply IH. intro Hin. apply H. now right.
Qed.

(** On a conflict the row is rewritten where it stands. *)
Lemma upsert_present (x : R) (tbl : list R) :
  In (key x) (map key tbl) ->
  exists before old after,
    tbl = (before ++ old :: after)%list /\ key old = key x
    /\ ~ In (key x) (map key before)
    /\ upsert key doUpdate x tbl = (before ++ x :: after)%list.
Proof.
  induction tbl as [|r tbl IH]; simpl; intro H; [contradiction|].
  destruct (String.eqb_spec (key r) (key x)) as [E|E].
  - exists [], r, tbl. simpl. rewrite (doUpdate_same_key _ _ E). auto.
  - destruct H as [H|H]; [contradiction|].
    destruct (IH H) as [before [old [after [Ht [Hk [Hn Hu]]]]]].
    exists (r :: before), old, after. simpl. subst tbl. rewrite Hu.
    repeat split; auto. intros [Hr|Hr]; auto.
Qed.

Lemma upsert_keys_present (x : R) (tbl : list R) :
  In (key x) (map key tbl) ->
  map key (upsert key doUpdate x tbl) = map key tbl.
Proof.
  intro H. destruct (upsert_present x tbl H) as [b [o [a [Ht [Hk [_ Hu]]]]]].
  rewrite Hu, Ht, !map_app. simpl. now rewrite Hk.
Qed.

Lemma upsert_NoDup (x : R) (tbl : list R) :
  NoDup (map key tbl) -> NoDup (map key (upsert key doUpdate x tbl)).
Proof.
  intro Hnd. destruct (in_dec string_dec (key x) (map key tbl)) as [Hin|Hout].
  - now rewrite upsert_keys_present.
  - rewrite upsert_absent by exact Hout. rewrite map_app. simpl.
    apply NoDup_app; [exact Hnd | repeat constructor; simpl; tauto |].
    intros k Hk [Hx|[]]. subst. contradiction.
Qed.

Lemma upsert_In_new (x : R) (tbl : list R) : In x (upsert key doUpdate x tbl).
Proof.
  induction tbl as [|r tbl IH]; simpl; [now left|].
  destruct (String.eqb_spec (key r) (key x)) as [E|E].
  - left. now apply doUpdate_same_key.
  - now right.
Qed.

Lemma upsert_In_other (x r : R) (tbl : list R) :
  key r <> key x -> (In r (upsert key doUpdate x tbl) <-> In r tbl).
Proof.
  intro Hne. induction tbl as [|y tbl IH]; simpl.
  - split; [intros [H|[]]; subst; congruence | contradiction].
  - destruct (String.eqb_spec (key y) (key x)) as [E|E]; simpl.
    + rewrite (doUpdate_same_key _ _ E). split; intros [H|H]; auto; subst; congruence.
    + rewrite IH. tauto.
Qed.

Lemma upsert_keys (x : R) (tbl : list R) (k : string) :
  In k (map key (upsert key doUpdate x tbl)) <-> k = key x \/ In k (map key tbl).
Proof.
  destruct (in_dec string_dec (key x) (map key tbl)) as [Hin|Hout].
  - rewrite upsert_keys_present by exact Hin. split; [tauto|].
    intros [H|H]; subst; auto.
  - rewrite upsert_absent by exact Hout. rewrite map_app, in_app_iff. simpl.
    split; intros [H|H]; auto. + destruct H as [H|[]]; auto.
Qed.

(** After the write, the key selects one row: the one written. *)
Lemma upsert_select (x : R) (tbl : list R) :
  NoDup (map key tbl) ->
  filter (hasKey key (key x)) (upsert key doUpdate x tbl) = [x].
Proof.
  intro Hnd.
  destruct (filter_key_unique (key x) _ (upsert_NoDup x tbl Hnd))
    as [H|[r [Hin [Hk Hf]]]].
  - pose proof (upsert_In_new x tbl) as Hx.
    assert (In x (filter (hasKey key (key x)) (upsert key doUpdate x tbl))) as Hx'.
    { apply filter_In. split; [exact Hx|]. apply String.eqb_refl. }
    rewrite H in Hx'. contradiction.
  - rewrite Hf. f_equal.
    apply (key_inj_In _ _ _ (upsert_NoDup x tbl Hnd)); auto using upsert_In_new.
Qed.

End Tables.

(** ** The store: rows read back, and the update clauses *)

Lemma updateAccount_same_key (old excluded : AccountRow.t) :
  AccountRow.id old = AccountRow.id excluded -> updateAccount old excluded = excluded.
Proof. destruct old, excluded; simpl; intros ->; reflexivity. Qed.

Lemma updateCalendar_same_key (old excluded : CalendarRow.t) :
  CalendarRow.id old = CalendarRow.id excluded -> updateCalendar old excluded = excluded.
Proof. destruct old, excluded; simpl; intros ->; reflexivity. Qed.

Lemma updateEvent_same_key (old excluded : EventRow.t) :
  EventRow.id old = EventRow.id excluded -> updateEvent old excluded = excluded.
Proof. destruct old, excluded; simpl; intros ->; reflexivity. Qed.

Lemma scanAccount_accountRow (a : Account.t) : scanAccount (accountRow a) = a.
Proof. destruct a; reflexivity. Qed.

Lemma scanCalendar_calendarRow (c : Calendar.t) :
  Calendar.Color c <> "" -> scanCalendar (calendarRow c) = c.
Proof.
  destruct c as [i a n d col v r t l]; unfold scanCalendar; simpl; intro H.
  destruct (String.eqb_spec col ""); [contradiction | reflexivity].
Qed.

Lemma scanEvent_eventRow (e : Event.t) :
  Event.Status e <> "" -> scanEvent (eventRow e) = e.
Proof.
  destruct e; unfold scanEvent; simpl; intro H.
  destruct (String.eqb_spec Status ""); [contradiction | reflexivity].
Qed.

Lemma scanEvents_map (rows : list EventRow.t) : scanEvents rows = map scanEvent rows.
Proof. induction rows as [|r rows IH]; simpl; [reflexivity | now rewrite IH]. Qed.

Lemma scanEvent_id (r : EventRow.t) : Event.ID (scanEvent r) = EventRow.id r.
Proof. reflexivity. Qed.

Lemma accountExists_In (s : Store) (id : string) :
  accountExists s id = true <-> In id (map AccountRow.id (accounts s)).
Proof. apply (existsb_key AccountRow.id). Qed.

Lemma calendarExists_In (s : Store) (id : string) :
  calendarExists s id = true <-> In id (map CalendarRow.id (calendars s)).
Proof. apply (existsb_key CalendarRow.id). Qed.

Lemma find_present {R : Type} (key : R -> string) (tbl : list R) (x : R) :
  filter (hasKey key (key x)) tbl = [x] -> find (hasKey key (key x)) tbl = Some x.
Proof.
  induction tbl as [|r tbl IH]; simpl; [discriminate|].
  destruct (hasKey key (key x) r) eqn:E.
  - intro H. now inversion H.
  - exact IH.
Qed.

(** ** Writes keep the keys unique and the references valid *)

Lemma SaveAccount_consistent (s s' : Store) (a : Account.t) :
  consistent s -> SaveAccount s a = Ok s' -> consistent s'.
Proof.
  intros [[Ha [Hc He]] [Fc Fe]] H. inversion H; subst; clear H.
  repeat split; simpl; auto.
  - now apply upsert_NoDup; [apply updateAccount_same_key|].
  - intros c Hin. apply accountExists_In. simpl.
    apply (upsert_keys _ _ updateAccount_same_key). right.
    apply accountExists_In. now apply Fc.
Qed.

Lemma SaveCalendar_consistent (s s' : Store) (c : Calendar.t) :
  consistent s -> SaveCalendar s c = Ok s' -> consistent s'.
Proof.
  intros [[Ha [Hc He]] [Fc Fe]] H. unfold SaveCalendar in H.
  destruct (accountExists s (Calendar.AccountID c)) eqn:Hacc; [|discriminate].
  inversion H; subst; clear H.
  repeat split; simpl; auto.
  - now apply upsert_NoDup; [apply updateCalendar_same_key|].
  - intros r Hin.
    destruct (string_dec (CalendarRow.id r) (CalendarRow.id (calendarRow c))) as [E|E].
    + assert (r = calendarRow c) as ->.
      { eapply (key_inj_In CalendarRow.id); [| exact Hin | | exact E].
        * now apply upsert_NoDup; [apply updateCalendar_same_key|].
        * apply upsert_In_new, updateCalendar_same_key. }
      exact Hacc.
    + apply (upsert_In_other _ _ updateCalendar_same_key) in Hin; auto.
      now apply Fc.
  - intros e Hin. apply calendarExists_In. simpl.
    apply (upsert_keys _ _ updateCalendar_same_key). right.
    apply calendarExists_In. now apply Fe.
Qed.

Lemma SaveEvent_consistent (s s' : Store) (e : Event.t) :
  consistent s -> SaveEvent s e = Ok s' -> consistent s'.
Proof.
  intros [[Ha [Hc He]] [Fc Fe]] H. unfold SaveEvent in H.
  destruct (calendarExists s (Event.CalendarID e)) eqn:Hcal; [|discriminate].
  inversion H; subst; clear H.
  repeat split; simpl; auto.
  - now apply upsert_NoDup; [apply updateEvent_same_key|].
  - intros r Hin.
    destruct (string_dec (EventRow.id r) (EventRow.id (eventRow e))) as [E|E].
    + assert (r = eventRow e) as ->.
      { eapply (key_inj_In EventRow.id); [| exact Hin | | exact E].
        * now apply upsert_NoDup; [apply updateEvent_same_key|].
        * apply upsert_In_new, updateEvent_same_key. }
      exact Hcal.
    + apply (upsert_In_other _ _ updateEvent_same_key) in Hin; auto.
      now apply Fe.
Qed.

Lemma NewStore_consistent : consistent NewStore.
Proof. repeat split; simpl; try constructor; contradiction. Qed.

(** ** Upsert (C2) *)

Lemma upsert_rewrittenInPlace {R : Type} (key : R -> string) (doUpdate : R -> R -> R)
      (tbl : list R) (x : R) :
  (forall old excluded, key old = key excluded -> doUpdate old excluded = excluded) ->
  NoDup (map key tbl) -> In (key x) (map key tbl) ->
  rewrittenInPlace key tbl (upsert key doUpdate x tbl) x.
Proof.
  intros Hupd Hnd Hin. split.
  - destruct (upsert_present key doUpdate Hupd x tbl Hin)
      as [before [old [after [Ht [Hk [_ Hu]]]]]].
    exists before, old, after. auto.
  - now apply upsert_select.
Qed.

(** C2.  On a database with unique keys, saving an account, a calendar or
    an event whose identifier is already stored (and, for a calendar or an
    event, whose parent exists, as the foreign keys demand) succeeds,
    rewrites that one row where it stands with the values written, so that
    the identifier then selects exactly the row written, and leaves the
    child tables as they were: saving an account changes neither calendars
    nor events, saving a calendar changes neither accounts nor events. *)
Theorem save_existing_updates_in_place
        (s : Store) (a : Account.t) (c : Calendar.t) (e : Event.t) :
  keysUnique s ->
  In (Account.ID a) (map AccountRow.id (accounts s)) ->
  In (Calendar.ID c) (map CalendarRow.id (calendars s)) ->
  accountExists s (Calendar.AccountID c) = true ->
  In (Event.ID e) (map EventRow.id (events s)) ->
  calendarExists s (Event.CalendarID e) = true ->
  (exists s', SaveAccount s a = Ok s'
      /\ rewrittenInPlace AccountRow.id (accounts s) (accounts s') (accountRow a)
      /\ GetAccount s' (Account.ID a) = Ok a
      /\ calendars s' = calendars s /\ events s' = events s)
  /\ (exists s', SaveCalendar s c = Ok s'
      /\ rewrittenInPlace CalendarRow.id (calendars s) (calendars s') (calendarRow c)
      /\ GetCalendar s' (Calendar.ID c) = Ok (scanCalendar (calendarRow c))
      /\ accounts s' = accounts s /\ events s' = events s)
  /\ (exists s', SaveEvent s e = Ok s'
      /\ rewrittenInPlace EventRow.id (events s) (events s') (eventRow e)
      /\ GetEvent s' (Event.ID e) = Ok (scanEvent (eventRow e))
      /\ accounts s' = accounts s /\ calendars s' = calendars s).
Proof.
  intros [Ha [Hc He]] Hia Hic Hfc Hie Hfe. repeat split.
  - eexists. split; [reflexivity|]. simpl.
    pose proof (upsert_rewrittenInPlace AccountRow.id updateAccount (accounts s)
                  (accountRow a) updateAccount_same_key Ha Hia) as Hr.
    repeat split; try apply Hr.
    unfold GetAccount. simpl.
    change (Account.ID a) with (AccountRow.id (accountRow a)).
    rewrite (find_present AccountRow.id _ _ (proj2 Hr)).
    now rewrite scanAccount_accountRow.
  - unfold SaveCalendar. rewrite Hfc. eexists. split; [reflexivity|]. simpl.
    pose proof (upsert_rewrittenInPlace CalendarRow.id updateCalendar (calendars s)
                  (calendarRow c) updateCalendar_same_key Hc Hic) as Hr.
    repeat split; try apply Hr.
    unfold GetCalendar. simpl.
    change (Calendar.ID c) with (CalendarRow.id (calendarRow c)).
    now rewrite (find_present CalendarRow.id _ _ (proj2 Hr)).
  - unfold SaveEvent. rewrite Hfe. eexists. split; [reflexivity|]. simpl.
    pose proof (upsert_rewrittenInPlace EventRow.id updateEvent (events s)
                  (eventRow e) updateEvent_same_key He Hie) as Hr.
    repeat split; try apply Hr.
    unfold GetEvent. simpl.
    change (Event.ID e) with (EventRow.id (eventRow e)).
    now rewrite (find_present EventRow.id _ _ (proj2 Hr)).
Qed.

(** Two saves under one identifier leave one row, the second. *)
Lemma save_twice_second_wins (s s1 s2 : Store) (first second : Account.t) :
  keysUnique s -> Account.ID first = Account.ID second ->
  SaveAccount s first = Ok s1 -> SaveAccount s1 second = Ok s2 ->
  filter (hasKey AccountRow.id (Account.ID second)) (accounts s2) = [accountRow second]
  /\ GetAccount s2 (Account.ID second) = Ok second.
Proof.
  intros [Ha _] Hid H1 H2. inversion H1; subst s1; clear H1.
  inversion H2; subst s2; clear H2. simpl.
  change (Account.ID second) with (AccountRow.id (accountRow second)).
  assert (filter (hasKey AccountRow.id (AccountRow.id (accountRow second)))
            (upsert AccountRow.id updateAccount (accountRow second)
               (upsert AccountRow.id updateAccount (accountRow first) (accounts s)))
          = [accountRow second]) as Hone.
  { apply upsert_select; [apply updateAccount_same_key|].
    apply upsert_NoDup; [apply updateAccount_same_key | exact Ha]. }
  split; [exact Hone|].
  unfold GetAccount. cbn [accounts].
  change (Account.ID second) with (AccountRow.id (accountRow second)).
  rewrite (find_present AccountRow.id _ _ Hone).
  now rewrite scanAccount_accountRow.
Qed.

(** ** Range queries (C1) *)

Lemma existsb_filter {A : Type} (p q : A -> bool) (l : list A) :
  existsb (fun x => p x && q x) l = existsb q (filter p l).
Proof.
  induction l as [|x l IH]; simpl; [reflexivity|].
  destruct (p x); simpl; now rewrite IH.
Qed.

Lemma join_selected (cals : list CalendarRow.t) (start end_ : Time)
      (evs : list EventRow.t) :
  NoDup (map CalendarRow.id cals) ->
  map fst
    (filter (inRange start end_)
       (flat_map
          (fun e => map (pair e)
                      (filter (fun c => String.eqb (EventRow.calendar_id e)
                                                   (CalendarRow.id c)) cals))
          evs))
  = filter (fun e => negb (EventRow.cancelled e)
                     && existsb (fun c => hasKey CalendarRow.id (EventRow.calendar_id e) c
                                          && CalendarRow.visible c) cals
                     && overlapsRange start end_ e)
           evs.
Proof.
  intro Hnd. induction evs as [|e evs IH]; simpl; [reflexivity|].
  rewrite filter_app, map_app, IH. clear IH.
  rewrite existsb_filter.
  assert (filter (fun c => String.eqb (EventRow.calendar_id e) (CalendarRow.id c)) cals
          = filter (hasKey CalendarRow.id (EventRow.calendar_id e)) cals) as ->.
  { apply filter_ext. intro c. unfold hasKey. apply String.eqb_sym. }
  destruct (filter_key_unique CalendarRow.id (EventRow.calendar_id e) cals Hnd)
    as [H|[c [_ [_ H]]]]; rewrite H; simpl.
  - now rewrite andb_false_r.
  - unfold overlapsRange. rewrite orb_false_r.
    destruct (CalendarRow.visible c), (EventRow.cancelled e); simpl; auto.
    destruct ((unixNano (EventRow.start_time e) <? unixNano end_)
              && (unixNano start <? unixNano (EventRow.end_time e))); reflexivity.
Qed.

Lemma GetEventsInRange_rows (s : Store) (start end_ : Time) :
  NoDup (map CalendarRow.id (calendars s)) ->
  GetEventsInRange s start end_
  = Ok (map scanEvent (orderBy byStartTime (filter (selected s start end_) (events s)))).
Proof.
  intro Hnd. unfold GetEventsInRange, joinCalendars.
  now rewrite scanEvents_map, join_selected.
Qed.

Lemma byStartTime_total (a b : EventRow.t) :
  byStartTime a b = true \/ byStartTime b a = true.
Proof. unfold byStartTime. rewrite !Z.leb_le. lia. Qed.

Lemma byStartTime_sorted (rows : list EventRow.t) :
  Sorted startsNoLater (orderBy byStartTime rows).
Proof.
  pose proof (orderBy_sorted byStartTime byStartTime_total rows) as H.
  eapply Sorted_ind with (P := fun l => Sorted startsNoLater l) in H; eauto.
  - intros a l _ IH Hhd. constructor; [exact IH|].
    destruct Hhd as [|b l Hab]; constructor.
    unfold startsNoLater. unfold byStartTime in Hab. now apply Z.leb_le.
Qed.

(** Membership in a range query's answer, for a stored row. *)
Lemma GetEventsInRange_stored (s : Store) (start end_ : Time) (e : EventRow.t)
      (events_ : list Event.t) :
  keysUnique s -> In e (events s) ->
  GetEventsInRange s start end_ = Ok events_ ->
  (In (scanEvent e) events_ <-> selected s start end_ e = true).
Proof.
  intros [_ [Hc He]] Hin H. rewrite GetEventsInRange_rows in H by exact Hc.
  inversion H; subst; clear H. rewrite in_map_iff. split.
  - intros [r [Heq Hr]]. apply orderBy_In, filter_In in Hr. destruct Hr as [Hr Hsel].
    assert (r = e) as ->; [|exact Hsel].
    apply (key_inj_In EventRow.id (events s)); auto.
    now rewrite <- !scanEvent_id, Heq.
  - intro Hsel. exists e. split; [reflexivity|].
    apply orderBy_In, filter_In. auto.
Qed.

Lemma dayStart_onDate (year month day : Z) (date : Time) :
  onDate year month day date -> dayStart date = Date year month day 0 0 0 0 UTC.
Proof. unfold dayStart. intros [Hy [Hm [Hd Hl]]]. now rewrite Hy, Hm, Hd, Hl. Qed.

Lemma GetEventsForDate_stored (s : Store) (date : Time) (e : EventRow.t) :
  keysUnique s -> In e (events s) ->
  exists l, GetEventsForDate s date = Ok l
            /\ (In (scanEvent e) l
                <-> selected s (dayStart date) (Add (dayStart date) (24 * Hour)) e = true).
Proof.
  intros Hs Hin. pose proof Hs as [_ [Hc _]].
  unfold GetEventsForDate. fold (dayStart date).
  eexists. split; [apply GetEventsInRange_rows; exact Hc|].
  apply GetEventsInRange_stored; auto. now apply GetEventsInRange_rows.
Qed.


(** ** Status of events read back (C10) *)

Lemma scanEvent_status (r : EventRow.t) :
  Event.Status (scanEvent r) <> ""
  /\ (nullString (EventRow.status r) = "" -> Event.Status (scanEvent r) = StatusConfirmed)
  /\ (nullString (EventRow.status r) <> "" ->
      Event.Status (scanEvent r) = nullString (EventRow.status r)).
Proof.
  unfold scanEvent; simpl.
  destruct (String.eqb_spec (nullString (EventRow.status r)) "") as [E|E].
  - repeat split; auto; try discriminate. intro; contradiction.
  - repeat split; auto. intro; contradiction.
Qed.

Lemma joinCalendars_fst (s : Store) (ec : EventRow.t * CalendarRow.t) :
  In ec (joinCalendars s) -> In (fst ec) (events s).
Proof.
  unfold joinCalendars. rewrite in_flat_map. intros [e [He Hin]].
  apply in_map_iff in Hin. destruct Hin as [c [<- _]]. exact He.
Qed.

Lemma GetEventsInRange_from_rows (s : Store) (start end_ : Time)
      (l : list Event.t) (e : Event.t) :
  GetEventsInRange s start end_ = Ok l -> In e l ->
  exists r, In r (events s) /\ e = scanEvent r.
Proof.
  unfold GetEventsInRange. intros H Hin. inversion H; subst; clear H.
  rewrite scanEvents_map in Hin. apply in_map_iff in Hin.
  destruct Hin as [r [<- Hr]]. exists r. split; [|reflexivity].
  apply orderBy_In, in_map_iff in Hr. destruct Hr as [ec [<- Hec]].
  apply filter_In in Hec. now apply joinCalendars_fst.
Qed.

(** C10.  Every event that [GetEvent], [GetEventsByCalendar],
    [GetEventsInRange] or [GetEventsForDate] returns is the scan of a
    stored row and has a non-empty status: [confirmed] when the status
    column of the row is NULL or empty, the stored status otherwise. *)
Theorem read_events_have_status (s : Store) (e : Event.t) :
  returnedByRead s e ->
  exists r, In r (events s) /\ e = scanEvent r
            /\ Event.Status e <> ""
            /\ (nullString (EventRow.status r) = "" -> Event.Status e = StatusConfirmed)
            /\ (nullString (EventRow.status r) <> "" ->
                Event.Status e = nullString (EventRow.status r)).
Proof.
  assert (forall r, In r (events s) -> e = scanEvent r ->
            exists r, In r (events s) /\ e = scanEvent r
            /\ Event.Status e <> ""
            /\ (nullString (EventRow.status r) = "" -> Event.Status e = StatusConfirmed)
            /\ (nullString (EventRow.status r) <> "" ->
                Event.Status e = nullString (EventRow.status r))) as Hrow.
  { intros r Hin ->. exists r. repeat split; auto; apply scanEvent_status. }
  intros [[id H]|[[cid [l [H Hin]]]|[[a [b [l [H Hin]]]]|[d [l [H Hin]]]]]].
  - unfold GetEvent in H.
    destruct (find (hasKey EventRow.id id) (events s)) as [r|] eqn:F; [|discriminate].
    inversion H; subst. apply find_some in F. apply (Hrow r); tauto.
  - unfold GetEventsByCalendar in H. inversion H; subst; clear H.
    rewrite scanEvents_map in Hin. apply in_map_iff in Hin.
    destruct Hin as [r [<- Hr]]. apply orderBy_In, filter_In in Hr.
    apply (Hrow r); tauto.
  - destruct (GetEventsInRange_from_rows _ _ _ _ _ H Hin) as [r [Hr ->]].
    now apply (Hrow r).
  - unfold GetEventsForDate in H.
    destruct (GetEventsInRange_from_rows _ _ _ _ _ H Hin) as [r [Hr ->]].
    now apply (Hrow r).
Qed.

(** ** Deletion and its cascade (C3) *)

Lemma filter_filter {A : Type} (p q : A -> bool) (l : list A) :
  filter p (filter q l) = filter (fun x => q x && p x) l.
Proof.
  induction l as [|x l IH]; simpl; [reflexivity|].
  destruct (q x); simpl; [destruct (p x)|]; now rewrite IH.
Qed.

(** Deleting rows keeps a key column free of duplicates. *)
Lemma NoDup_map_filter {R K : Type} (key : R -> K) (keep : R -> bool)
      (tbl : list R) (Hnd : NoDup (map key tbl)) :
  NoDup (map key (filter keep tbl)).
Proof.
  induction tbl as [|r tbl IH]; simpl in *; [constructor|].
  inversion Hnd as [|? ? Hn Hd]; subst. destruct (keep r); simpl; auto.
  constructor; auto. intro Hin. apply Hn.
  apply in_map_iff in Hin. destruct Hin as [y [Hy Hin]].
  apply filter_In in Hin. rewrite <- Hy. apply in_map. tauto.
Qed.

(** The events left once the calendars [gone] have been deleted. *)
Lemma cascadeCalendar_fold (gone : list CalendarRow.t) (s : Store) :
  fold_left cascadeCalendar gone s
  = mkStore (accounts s) (calendars s)
      (filter (fun e => negb (existsb (fun c => String.eqb (EventRow.calendar_id e)
                                                          (CalendarRow.id c)) gone))
              (events s)).
Proof.
  revert s. induction gone as [|c gone IH]; intro s; simpl.
  - destruct s; simpl. f_equal. induction events0; simpl; congruence.
  - rewrite IH. unfold cascadeCalendar, deleteEventsWhere. simpl. f_equal.
    rewrite filter_filter. apply filter_ext. intro e.
    now rewrite negb_orb.
Qed.

Lemma deleteCalendarsWhere_events (p : CalendarRow.t -> bool) (s : Store) (e : EventRow.t) :
  In e (events (deleteCalendarsWhere p s))
  <-> In e (events s)
      /\ forall c, In c (calendars s) ->
                   CalendarRow.id c = EventRow.calendar_id e -> p c = false.
Proof.
  unfold deleteCalendarsWhere. rewrite cascadeCalendar_fold. simpl.
  rewrite filter_In, negb_true_iff. split.
  - intros [Hin Hex]. split; [exact Hin|]. intros c Hc Hid.
    destruct (p c) eqn:Hp; [|reflexivity].
    assert (existsb (fun c0 => String.eqb (EventRow.calendar_id e) (CalendarRow.id c0))
                    (filter p (calendars s)) = true) as Ht.
    { apply existsb_exists. exists c. split; [apply filter_In; auto|].
      now apply String.eqb_eq. }
    congruence.
  - intros [Hin Hall]. split; [exact Hin|].
    destruct (existsb _ (filter p (calendars s))) eqn:Hex; [|reflexivity].
    apply existsb_exists in Hex. destruct Hex as [c [Hc Hid]].
    apply filter_In in Hc. apply String.eqb_eq in Hid.
    rewrite (Hall c) in Hc; [destruct Hc; discriminate | tauto | now symmetry].
Qed.

Lemma deleteCalendarsWhere_tables (p : CalendarRow.t -> bool) (s : Store) :
  accounts (deleteCalendarsWhere p s) = accounts s
  /\ calendars (deleteCalendarsWhere p s) = filter (fun c => negb (p c)) (calendars s).
Proof. unfold deleteCalendarsWhere. now rewrite cascadeCalendar_fold. Qed.

Lemma filter_none {A : Type} (p : A -> bool) (l : list A) :
  (forall x, In x l -> p x = false) ->
  filter p l = [] /\ filter (fun x => negb (p x)) l = l.
Proof.
  induction l as [|x l IH]; simpl; intro H; [auto|].
  rewrite (H x) by now left. simpl.
  destruct IH as [-> ->]; auto.
Qed.

Lemma filter_key_none {R : Type} (key : R -> string) (k : string) (tbl : list R) :
  filter (hasKey key k) tbl = [] -> ~ In k (map key tbl).
Proof.
  intros H Hin. apply in_map_iff in Hin. destruct Hin as [r [Hk Hr]].
  assert (In r (filter (hasKey key k) tbl)) as Hf.
  { apply filter_In. split; [exact Hr|]. now apply String.eqb_eq. }
  now rewrite H in Hf.
Qed.

Lemma deleteCalendarsWhere_consistent (p : CalendarRow.t -> bool) (s : Store) :
  consistent s -> consistent (deleteCalendarsWhere p s).
Proof.
  intros [[Ha [Hc He]] [Fc Fe]].
  destruct (deleteCalendarsWhere_tables p s) as [Ta Tc].
  repeat split.
  - now rewrite Ta.
  - rewrite Tc. now apply NoDup_map_filter.
  - unfold deleteCalendarsWhere. rewrite cascadeCalendar_fold. simpl.
    now apply NoDup_map_filter.
  - intros c Hin. rewrite Tc in Hin. apply filter_In in Hin.
    unfold accountExists. rewrite Ta. apply Fc. tauto.
  - intros e Hin. apply deleteCalendarsWhere_events in Hin. destruct Hin as [Hin Hall].
    pose proof (Fe e Hin) as Hex. apply calendarExists_In, in_map_iff in Hex.
    destruct Hex as [c [Hid Hcin]].
    apply calendarExists_In. rewrite Tc. apply in_map_iff. exists c.
    split; [exact Hid|]. apply filter_In. split; [exact Hcin|].
    now rewrite (Hall c Hcin Hid).
Qed.

(** What [DELETE FROM accounts WHERE id = ?] leaves, with its cascade. *)
Lemma deleteAccount_unfold (s : Store) (id : string) :
  consistent s ->
  deleteAccountsWhere (hasKey AccountRow.id id) s
  = deleteCalendarsWhere (hasKey CalendarRow.account_id id)
      (mkStore (filter (fun a => negb (hasKey AccountRow.id id a)) (accounts s))
               (calendars s) (events s)).
Proof.
  intros [[Ha _] [Fc _]]. unfold deleteAccountsWhere.
  destruct (filter_key_unique AccountRow.id id (accounts s) Ha)
    as [H|[a [_ [Hid H]]]]; rewrite H; simpl.
  - (* no such account, hence no calendar that refers to it *)
    assert (forall c, In c (calendars s) -> hasKey CalendarRow.account_id id c = false)
      as Hnone.
    { intros c Hin. unfold hasKey. apply String.eqb_neq. intro Hc.
      apply (filter_key_none _ _ _ H). apply accountExists_In.
      rewrite <- Hc. now apply Fc. }
    destruct (filter_none _ _ Hnone) as [Hf Hk].
    unfold deleteCalendarsWhere. simpl. now rewrite Hf, Hk.
  - unfold cascadeAccount. rewrite Hid. reflexivity.
Qed.

(** C3.  On a consistent database, [DeleteAccount id] leaves exactly the
    accounts other than [id], the calendars whose account is not [id] and
    the events that no calendar of account [id] owns; [DeleteCalendar id]
    leaves the accounts, exactly the calendars other than [id] (siblings
    of the same account included) and exactly the events whose calendar
    is not [id].  Both leave the database consistent. *)
Theorem delete_cascades (s : Store) (id : string) :
  consistent s ->
  (exists s', DeleteAccount s id = Ok s'
      /\ (forall a, In a (accounts s') <-> In a (accounts s) /\ AccountRow.id a <> id)
      /\ (forall c, In c (calendars s')
                    <-> In c (calendars s) /\ CalendarRow.account_id c <> id)
      /\ (forall e, In e (events s')
                    <-> In e (events s)
                        /\ forall c, In c (calendars s) ->
                                     CalendarRow.id c = EventRow.calendar_id e ->
                                     CalendarRow.account_id c <> id)
      /\ consistent s')
  /\ (exists s', DeleteCalendar s id = Ok s'
      /\ accounts s' = accounts s
      /\ (forall c, In c (calendars s') <-> In c (calendars s) /\ CalendarRow.id c <> id)
      /\ (forall e, In e (events s')
                    <-> In e (events s) /\ EventRow.calendar_id e <> id)
      /\ consistent s').
Proof.
  intro Hs. split.
  - eexists. split; [reflexivity|].
    rewrite (deleteAccount_unfold s id Hs).
    set (s0 := mkStore (filter (fun a => negb (hasKey AccountRow.id id a)) (accounts s))
                       (calendars s) (events s)).
    destruct (deleteCalendarsWhere_tables (hasKey CalendarRow.account_id id) s0)
      as [Ta Tc].
    split; [|split; [|split]].
    + intro a. rewrite Ta. simpl. rewrite filter_In, negb_true_iff. unfold hasKey.
      now rewrite String.eqb_neq.
    + intro c. rewrite Tc. simpl. rewrite filter_In, negb_true_iff. unfold hasKey.
      now rewrite String.eqb_neq.
    + intro e. rewrite deleteCalendarsWhere_events. simpl. unfold hasKey.
      split; intros [Hin Hall]; (split; [exact Hin|]); intros c Hc Hid;
        apply String.eqb_neq; now apply Hall.
    + (* consistency: the accounts that stay are those the calendars that
         stay refer to *)
      destruct Hs as [[Ha [Hc He]] [Fc Fe]].
      assert (keysUnique (deleteCalendarsWhere (hasKey CalendarRow.account_id id) s0))
        as Hk.
      { repeat split.
        - rewrite Ta. now apply NoDup_map_filter.
        - rewrite Tc. now apply NoDup_map_filter.
        - unfold deleteCalendarsWhere. rewrite cascadeCalendar_fold. simpl.
          now apply NoDup_map_filter. }
      split; [exact Hk|]. split.
      * intros c Hin. rewrite Tc in Hin. apply filter_In in Hin.
        destruct Hin as [Hin Hne]. apply negb_true_iff, String.eqb_neq in Hne.
        apply accountExists_In. rewrite Ta. simpl.
        pose proof (Fc c Hin) as Hex. apply accountExists_In, in_map_iff in Hex.
        destruct Hex as [a [Hai Hain]]. apply in_map_iff. exists a.
        split; [exact Hai|]. apply filter_In. split; [exact Hain|].
        apply negb_true_iff, String.eqb_neq. congruence.
      * intros e Hin. apply deleteCalendarsWhere_events in Hin.
        destruct Hin as [Hin Hall]. simpl in Hin, Hall.
        pose proof (Fe e Hin) as Hex. apply calendarExists_In, in_map_iff in Hex.
        destruct Hex as [c [Hid Hcin]].
        apply calendarExists_In. rewrite Tc. apply in_map_iff. exists c.
        split; [exact Hid|]. apply filter_In. split; [exact Hcin|].
        now rewrite (Hall c Hcin Hid).
  - eexists. split; [reflexivity|].
    destruct (deleteCalendarsWhere_tables (hasKey CalendarRow.id id) s) as [Ta Tc].
    split; [exact Ta|]. split; [|split].
    + intro c. rewrite Tc, filter_In, negb_true_iff. unfold hasKey.
      now rewrite String.eqb_neq.
    + intro e. rewrite deleteCalendarsWhere_events. split.
      * intros [Hin Hall]. split; [exact Hin|]. intro Hid.
        destruct Hs as [_ [_ Fe]].
        pose proof (Fe e Hin) as Hex. apply calendarExists_In, in_map_iff in Hex.
        destruct Hex as [c [Hc Hcin]].
        pose proof (Hall c Hcin Hc) as Hf. unfold hasKey in Hf.
        apply String.eqb_neq in Hf. congruence.
      * intros [Hin Hne]. split; [exact Hin|]. intros c Hc Hid.
        unfold hasKey. apply String.eqb_neq. congruence.
    + now apply deleteCalendarsWhere_consistent.
Qed.

(** ** Cancelled events, by provider (C4) *)

Lemma saveEvent_run (e : Event.t) (w : main.World) :
  snd (main.saveEvent e w)
  = main.mkWorld (saveOrSkip (main.db w) e) (main.reads w) (main.calls w).
Proof.
  unfold main.saveEvent, main.write, saveOrSkip.
  destruct (SaveEvent (main.db w) e); destruct w; reflexivity.
Qed.

Lemma forEach_saveFetched (env : main.Env) (cal : Calendar.t)
      (items : list EventItem) (w : main.World) :
  main.forEach items (main.saveFetched env cal) w
  = (tt, main.mkWorld
           (fold_left saveOrSkip
              (map (main.fetchedEvent env cal) (filter notCancelled items))
              (main.db w))
           (main.reads w) (main.calls w)).
Proof.
  revert w. induction items as [|item items IH]; intro w; simpl.
  - destruct w; reflexivity.
  - unfold main.bind, main.saveFetched at 1, notCancelled at 1.
    destruct (String.eqb (ItemStatus item) "cancelled"); simpl.
    + apply IH.
    + unfold main.bind.
      pose proof (saveEvent_run (main.fetchedEvent env cal item) w) as Hs.
      destruct (main.saveEvent (main.fetchedEvent env cal item) w) as [r w'].
      simpl in Hs. subst w'. simpl. rewrite IH. reflexivity.
Qed.

Lemma forEach_saveInto (cal : Calendar.t) (events_ : list Event.t) (w : main.World) :
  main.forEach events_ (main.saveInto cal) w
  = (tt, main.mkWorld
           (fold_left saveOrSkip
              (map (fun event => Event.set_CalendarID event (Calendar.ID cal)) events_)
              (main.db w))
           (main.reads w) (main.calls w)).
Proof.
  revert w. induction events_ as [|e l IH]; intro w; simpl.
  - destruct w; reflexivity.
  - unfold main.bind, main.saveInto at 1. unfold main.bind.
    pose proof (saveEvent_run (Event.set_CalendarID e (Calendar.ID cal)) w) as Hs.
    destruct (main.saveEvent (Event.set_CalendarID e (Calendar.ID cal)) w) as [r w'].
    simpl in Hs. subst w'. simpl. rewrite IH. reflexivity.
Qed.

Lemma itemEvents_map (parse : Parser) (calendarID : string) (items : list EventItem) :
  google.itemEvents parse calendarID items = map (google.itemEvent parse calendarID) items.
Proof. induction items as [|i l IH]; simpl; [reflexivity | now rewrite IH]. Qed.

Lemma fetchedEvent_not_cancelled (env : main.Env) (cal : Calendar.t) (item : EventItem) :
  Event.Cancelled (main.fetchedEvent env cal item) = false
  /\ Event.Status (main.fetchedEvent env cal item) = StatusConfirmed.
Proof.
  unfold main.fetchedEvent.
  destruct (String.eqb (StartDateTime item) ""), (String.eqb (StartDate item) ""),
    (String.eqb (EndDateTime item) ""), (String.eqb (EndDate item) ""); simpl; auto.
Qed.

Lemma itemEvent_cancelled (parse : Parser) (calendarID : string) (item : EventItem) :
  ItemStatus item = "cancelled" ->
  Event.Cancelled (google.itemEvent parse calendarID item) = true
  /\ Event.Status (google.itemEvent parse calendarID item) = StatusCancelled.
Proof.
  intro H. unfold google.itemEvent. rewrite H. simpl. auto.
Qed.

Lemma parseComponent_cancelled (k : ical.Codec) (etag calendarID : string)
      (component : ical.Component) (prop : ical.Prop_) :
  ical.Get (ical.CompProps component) ical.PropStatus = Some prop ->
  ical.Value prop = "CANCELLED" ->
  Event.Cancelled (caldav.parseComponent k etag calendarID component) = true
  /\ Event.Status (caldav.parseComponent k etag calendarID component) = StatusCancelled.
Proof.
  intros Hg Hv. unfold caldav.parseComponent, caldav.getStatus.
  rewrite Hg, Hv. simpl. auto.
Qed.

(** The provider client of package [google] keeps a cancelled item: the
    page holding one cancelled item comes back as one event, marked
    cancelled. *)
Lemma google_GetEvents_keeps_cancelled :
  exists e,
    google.GetEvents (fun _ _ => Err "unused")
      (google.mkClient (Account.mk "acc1" "G" AccountTypeGoogle "" true "" "" "tok" ""
                                   GoTime.zero "" GoTime.zero)
                       (Some oneCancelled))
      "primary" GoTime.zero GoTime.zero
    = Ok [e]
    /\ Event.ID e = ItemID cancelledItem
    /\ Event.Cancelled e = true /\ Event.Status e = StatusCancelled.
Proof. eexists. repeat split. Qed.

(** C4, as amended.  The sync's own Google fetch ([fetchGoogleEvents])
    saves the items whose status is not [cancelled], in order, and nothing
    else; no event it builds is cancelled.  The Google REST client's
    [GetEvents] returns one event per item and maps an item of status
    [cancelled] to an event with status [cancelled] and the cancelled flag
    set.  The CalDAV decoder maps a VEVENT with [STATUS:CANCELLED] to an
    event with status [cancelled] and the cancelled flag set, and the
    CalDAV sync saves every event its fetch returns. *)
Theorem cancelled_events_by_provider :
  (forall env account cal w resp items,
      main.eventsEndpoint env (Calendar.ID cal)
        (AddDate (main.clock env (main.reads w)) 0 (-1) 0)
        (AddDate (main.clock env (S (main.reads w))) 0 3 0)
        (Account.AccessToken account) = Ok resp ->
      StatusCode resp = 200 -> Body resp = Ok items ->
      main.db (snd (main.fetchGoogleEvents env account cal w))
      = fold_left saveOrSkip
          (map (main.fetchedEvent env cal) (filter notCancelled items))
          (main.db w))
  /\ (forall env cal item,
        Event.Cancelled (main.fetchedEvent env cal item) = false)
  /\ (forall parse c calendarID start end_ api resp items,
        google.httpClient c = Some api ->
        google.Events api calendarID start end_ = Ok resp ->
        StatusCode resp = 200 -> Body resp = Ok items ->
        google.GetEvents parse c calendarID start end_
        = Ok (map (google.itemEvent parse calendarID) items))
  /\ (forall parse calendarID item,
        ItemStatus item = "cancelled" ->
        Event.Cancelled (google.itemEvent parse calendarID item) = true
        /\ Event.Status (google.itemEvent parse calendarID item) = StatusCancelled)
  /\ (forall k etag calendarID component prop,
        ical.Get (ical.CompProps component) ical.PropStatus = Some prop ->
        ical.Value prop = "CANCELLED" ->
        Event.Cancelled (caldav.parseComponent k etag calendarID component) = true
        /\ Event.Status (caldav.parseComponent k etag calendarID component)
           = StatusCancelled)
  /\ (forall env client cal w events_,
        caldav.GetEvents (main.codec env) client (Calendar.ID cal)
          (AddDate (main.clock env (main.reads w)) 0 (-1) 0)
          (AddDate (main.clock env (S (main.reads w))) 0 3 0) = Ok events_ ->
        main.db (snd (main.fetchCalDAVEvents env client cal w))
        = fold_left saveOrSkip
            (map (fun event => Event.set_CalendarID event (Calendar.ID cal)) events_)
            (main.db w)).
Proof.
  repeat apply conj.
  - intros env account cal w resp items Hresp Hstatus Hbody.
    unfold main.fetchGoogleEvents, main.bind, main.Now, main.request. simpl.
    rewrite Hresp, Hstatus, Hbody. simpl.
    now rewrite forEach_saveFetched.
  - intros. apply fetchedEvent_not_cancelled.
  - intros parse c calendarID start end_ api resp items Hc Hresp Hstatus Hbody.
    unfold google.GetEvents. rewrite Hc, Hresp, Hstatus, Hbody. simpl.
    now rewrite itemEvents_map.
  - intros. now apply itemEvent_cancelled.
  - intros. now apply parseComponent_cancelled with (prop := prop).
  - intros env client cal w events_ Hget.
    unfold main.fetchCalDAVEvents, main.bind, main.Now, main.request. simpl.
    rewrite Hget. now rewrite forEach_saveInto.
Qed.

(** ** Token refresh gating (C6) *)

Lemma tokenPosts_app (a b : list main.Call) :
  tokenPosts (a ++ b) = (tokenPosts a + tokenPosts b)%nat.
Proof. unfold tokenPosts. now rewrite filter_app, length_app. Qed.

Lemma noRefresh_refl (w : main.World) : noRefresh w w.
Proof. exists []. now rewrite app_nil_r. Qed.

Lemma noRefresh_trans (a b c : main.World) :
  noRefresh a b -> noRefresh b c -> noRefresh a c.
Proof.
  intros [m1 [H1 P1]] [m2 [H2 P2]]. exists (m1 ++ m2)%list.
  rewrite H2, H1, app_assoc, tokenPosts_app. split; [reflexivity | lia].
Qed.

Lemma noRefresh_same_calls (w w' : main.World) :
  main.calls w' = main.calls w -> noRefresh w w'.
Proof. intro H. exists []. now rewrite app_nil_r. Qed.

Lemma write_calls (op : Store -> Result Store) (w : main.World) :
  main.calls (snd (main.write op w)) = main.calls w
  /\ main.reads (snd (main.write op w)) = main.reads w.
Proof. unfold main.write. destruct (op (main.db w)); auto. Qed.

Lemma forEach_noRefresh {A : Type} (body : A -> main.M unit) (xs : list A) :
  (forall x w, noRefresh w (snd (body x w))) ->
  forall w, noRefresh w (snd (main.forEach xs body w)).
Proof.
  intro Hbody. induction xs as [|x xs IH]; intro w; simpl.
  - apply noRefresh_refl.
  - unfold main.bind. specialize (Hbody x w).
    destruct (body x w) as [u w1]. simpl in Hbody.
    eapply noRefresh_trans; [exact Hbody | apply IH].
Qed.

Lemma fetchGoogleEvents_noRefresh (env : main.Env) (account : Account.t)
      (cal : Calendar.t) (w : main.World) :
  noRefresh w (snd (main.fetchGoogleEvents env account cal w)).
Proof.
  unfold main.fetchGoogleEvents, main.bind, main.Now, main.request. simpl.
  match goal with
  | |- context [main.eventsEndpoint ?e ?a ?b ?c ?d] =>
      destruct (main.eventsEndpoint e a b c d) as [resp|err]
  end.
  - destruct (negb (StatusCode resp =? 200)).
    + simpl. eexists. split; [reflexivity|reflexivity].
    + destruct (Body resp) as [items|err].
      * rewrite forEach_saveFetched. simpl. eexists. split; reflexivity.
      * simpl. eexists. split; reflexivity.
  - simpl. eexists. split; reflexivity.
Qed.

Lemma syncGoogleCalendar_noRefresh (env : main.Env) (account : Account.t)
      (item : CalendarItem) (w : main.World) :
  noRefresh w (snd (main.syncGoogleCalendar env account item w)).
Proof.
  unfold main.syncGoogleCalendar, main.bind, main.saveCalendar.
  match goal with
  | |- context [main.write ?op w] =>
      pose proof (write_calls op w) as [Hc _];
      destruct (main.write op w) as [err w1]
  end.
  simpl in Hc. destruct err.
  - simpl. now apply noRefresh_same_calls.
  - eapply noRefresh_trans; [apply noRefresh_same_calls; exact Hc|].
    apply fetchGoogleEvents_noRefresh.
Qed.

(** From the calendar list on there is one list request, first, and no
    request to the token endpoint. *)
Lemma listAndFetch_calls (env : main.Env) (account : Account.t) (w : main.World) :
  exists more,
    main.calls (snd (main.listAndFetch env account w))
    = (main.calls w ++ main.CalendarListGet (Account.AccessToken account) :: more)%list
    /\ tokenPosts more = 0%nat.
Proof.
  unfold main.listAndFetch, main.bind, main.request. simpl.
  destruct (main.calendarListEndpoint env (Account.AccessToken account)) as [resp|err].
  - destruct (negb (StatusCode resp =? 200)).
    + exists []. simpl. auto.
    + destruct (Body resp) as [items|err]; [|exists []; simpl; auto].
      set (w0 := main.mkWorld (main.db w) (main.reads w)
                   (main.calls w ++ [main.CalendarListGet (Account.AccessToken account)])).
      pose proof (forEach_noRefresh (main.syncGoogleCalendar env account) items
                    (syncGoogleCalendar_noRefresh env account) w0) as [more [Hm Pm]].
      destruct (main.forEach items (main.syncGoogleCalendar env account) w0) as [u w1].
      simpl in Hm. unfold main.Now, main.saveAccount. simpl.
      exists more. rewrite Hm, <- app_assoc. simpl. auto.
  - exists []. simpl. auto.
Qed.

Lemma find_upsert {R : Type} (key : R -> string) (doUpdate : R -> R -> R)
      (x : R) (tbl : list R) :
  (forall old excluded, key old = key excluded -> doUpdate old excluded = excluded) ->
  find (hasKey key (key x)) (upsert key doUpdate x tbl) = Some x.
Proof.
  intro Hupd. induction tbl as [|r tbl IH]; simpl.
  - unfold hasKey. now rewrite String.eqb_refl.
  - destruct (String.eqb_spec (key r) (key x)) as [E|E]; simpl.
    + rewrite (Hupd _ _ E). unfold hasKey. now rewrite String.eqb_refl.
    + unfold hasKey at 1. apply String.eqb_neq in E. now rewrite E.
Qed.

Lemma GetAccount_SaveAccount (s : Store) (a : Account.t) :
  exists s', SaveAccount s a = Ok s' /\ GetAccount s' (Account.ID a) = Ok a.
Proof.
  eexists. split; [reflexivity|]. unfold GetAccount. simpl.
  change (Account.ID a) with (AccountRow.id (accountRow a)).
  rewrite (find_upsert AccountRow.id updateAccount _ _ updateAccount_same_key).
  now rewrite scanAccount_accountRow.
Qed.



(** ** The window of the event fetch (C8) *)



(** The CalDAV loop computes its window the same way. *)
Lemma caldav_fetch_window (env : main.Env) (client : caldav.Client)
      (cal : Calendar.t) (w : main.World) :
  main.calls (snd (main.fetchCalDAVEvents env client cal w))
  = (main.calls w
     ++ [main.CalDAVQuery (Calendar.ID cal)
           (AddDate (main.clock env (main.reads w)) 0 (-1) 0)
           (AddDate (main.clock env (S (main.reads w))) 0 3 0)])%list.
Proof.
  unfold main.fetchCalDAVEvents, main.bind, main.Now, main.request. simpl.
  match goal with
  | |- context [caldav.GetEvents ?k ?c ?i ?a ?b] =>
      destruct (caldav.GetEvents k c i a b) as [events_|err]
  end; [|reflexivity].
  now rewrite forEach_saveInto.
Qed.

(** ** First-run bootstrap (C9) *)

(** With an account stored but no calendar, the bootstrap still creates
    a local account. *)
Lemma bootstrap_with_an_account_stored :
  let w := main.mkWorld accountWithoutCalendars 0 [] in
  let s' := main.db (snd (main.ensureDefaultCalendar silentEnv w)) in
  accounts (main.db w) <> []
  /\ map AccountRow.id (accounts s') = ["acc-1"; "acc-1718020800000000000"]
  /\ map AccountRow.type (accounts s') = [AccountTypeGoogle; AccountTypeLocal]
  /\ map CalendarRow.name (calendars s') = ["My Calendar"].
Proof. vm_compute. repeat split; discriminate. Qed.

Lemma GetAllCalendars_length (s : Store) :
  exists l, GetAllCalendars s = Ok l /\ List.length l = List.length (calendars s).
Proof.
  eexists. split; [reflexivity|]. now rewrite length_map, orderBy_length.
Qed.

(** C9, as amended.  [ensureDefaultCalendar] does nothing when the store
    holds a calendar.  When it holds none, it saves an account [Local] of
    type [local], then a visible calendar [My Calendar] of colour
    [#4285f4] owned by it, which is then the only calendar; the account
    is a new row, added after the stored ones, when its identifier (made
    from the clock) is not in use.  On a consistent store, no accounts
    means no calendars, so the bootstrap runs then. *)
Theorem bootstrap_when_no_calendars (env : main.Env) (w : main.World) :
  let now1 := main.clock env (main.reads w) in
  let now2 := main.clock env (S (main.reads w)) in
  (calendars (main.db w) <> [] -> main.ensureDefaultCalendar env w = (tt, w))
  /\ (calendars (main.db w) = [] ->
      exists s1 s2,
        SaveAccount (main.db w) (localAccount now1) = Ok s1
        /\ SaveCalendar s1 (defaultCalendar now1 now2) = Ok s2
        /\ main.ensureDefaultCalendar env w
           = (tt, main.mkWorld s2 (S (S (main.reads w))) (main.calls w))
        /\ calendars s2 = [calendarRow (defaultCalendar now1 now2)]
        /\ events s2 = events (main.db w)
        /\ (~ In (Account.ID (localAccount now1))
                 (map AccountRow.id (accounts (main.db w))) ->
            accounts s2
            = (accounts (main.db w) ++ [accountRow (localAccount now1)])%list))
  /\ (consistent (main.db w) -> accounts (main.db w) = [] ->
      calendars (main.db w) = []).
Proof.
  intros now1 now2. subst now1 now2. repeat apply conj.
  - intro Hsome. unfold main.ensureDefaultCalendar.
    destruct (GetAllCalendars_length (main.db w)) as [l [Hl Hlen]]. rewrite Hl.
    destruct (calendars (main.db w)) as [|c cs]; [contradiction|].
    destruct l; [discriminate|]. reflexivity.
  - intro Hnone.
    set (acc := localAccount (main.clock env (main.reads w))).
    set (cal := defaultCalendar (main.clock env (main.reads w))
                                (main.clock env (S (main.reads w)))).
    set (s1 := mkStore (upsert AccountRow.id updateAccount (accountRow acc)
                               (accounts (main.db w)))
                       (calendars (main.db w)) (events (main.db w))).
    assert (accountExists s1 (Calendar.AccountID cal) = true) as Hex.
    { apply accountExists_In. unfold s1. simpl.
      apply (upsert_keys _ _ updateAccount_same_key). now left. }
    assert (SaveCalendar s1 cal
            = Ok (mkStore (accounts s1)
                          (upsert CalendarRow.id updateCalendar (calendarRow cal)
                                  (calendars s1))
                          (events s1))) as Hcal
        by (unfold SaveCalendar; now rewrite Hex).
    exists s1. eexists. split; [reflexivity|]. split; [exact Hcal|].
    split; [|split; [|split]].
    + unfold main.ensureDefaultCalendar.
      destruct (GetAllCalendars_length (main.db w)) as [l [Hl Hlen]]. rewrite Hl.
      rewrite Hnone in Hlen. destruct l; [|discriminate].
      change ((List.length (@nil Calendar.t) =? 0)%nat) with true. cbv beta iota.
      unfold main.bind, main.Now, main.saveAccount, main.saveCalendar, main.write,
        SaveAccount.
      cbv beta iota. unfold SaveCalendar.
      match goal with
      | |- context [accountExists ?s ?i] =>
          replace (accountExists s i) with true by (symmetry; exact Hex)
      end.
      reflexivity.
    + unfold s1. cbn [calendars]. rewrite Hnone. reflexivity.
    + reflexivity.
    + intro Hfresh. unfold s1. cbn [accounts]. now apply upsert_absent.
  - intros [_ [Fc _]] Hnone.
    destruct (calendars (main.db w)) as [|c cs]; [reflexivity|].
    assert (accountExists (main.db w) (CalendarRow.account_id c) = true) as Hex
        by (apply Fc; now left).
    unfold accountExists in Hex. rewrite Hnone in Hex. discriminate.
Qed.

(** ** The OAuth redirect listener (C7) *)

Lemma wake_resolved (w : main.Waiting) (fired : bool) (r : main.Resolution) :
  main.resolved w = Some r -> main.wake w fired = w.
Proof. unfold main.wake. now intros ->. Qed.

Lemma deliver_resolved (w : main.Waiting) (req : Duration * main.Arrival)
      (r : main.Resolution) :
  main.resolved w = Some r -> main.resolved (main.deliver w req) = Some r.
Proof.
  intro H. unfold main.deliver.
  assert ((if main.timeout <=? fst req then main.wake w true else w) = w) as ->
      by (destruct (main.timeout <=? fst req); [now apply wake_resolved with r | reflexivity]).
  unfold main.wake. simpl. now rewrite H.
Qed.

Lemma deliveries_resolved (requests : list (Duration * main.Arrival))
      (w : main.Waiting) (r : main.Resolution) :
  main.resolved w = Some r ->
  main.resolved (main.wake (fold_left main.deliver requests w) true) = Some r.
Proof.
  revert w. induction requests as [|req rest IH]; intros w H; simpl.
  - now rewrite (wake_resolved w true r H).
  - apply IH. now apply deliver_resolved.
Qed.

(** The first callback that arrives before the timer fires decides, and
    later callbacks change nothing: with a code it is the code ... *)
Lemma listener_takes_code (t : Duration) (q : Query)
      (rest : list (Duration * main.Arrival)) :
  t < main.timeout -> QueryGet q "code" <> "" ->
  main.resolved (main.awaitCallback ((t, main.Callback q) :: rest))
  = Some (main.GotCode (QueryGet q "code")).
Proof.
  intros Ht Hc. unfold main.awaitCallback. simpl fold_left.
  apply deliveries_resolved. unfold main.deliver. simpl.
  apply Z.leb_gt in Ht. rewrite Ht. unfold main.arrive, main.callback. simpl.
  apply String.eqb_neq in Hc. rewrite Hc. reflexivity.
Qed.

(** ... and without a code it is the error [no code received], whatever
    else the request carries. *)
Lemma listener_takes_error (t : Duration) (q : Query)
      (rest : list (Duration * main.Arrival)) :
  t < main.timeout -> QueryGet q "code" = "" ->
  main.resolved (main.awaitCallback ((t, main.Callback q) :: rest))
  = Some (main.GotError "no code received").
Proof.
  intros Ht Hc. unfold main.awaitCallback. simpl fold_left.
  apply deliveries_resolved. unfold main.deliver. simpl.
  apply Z.leb_gt in Ht. rewrite Ht. unfold main.arrive, main.callback. simpl.
  rewrite Hc. reflexivity.
Qed.

(** With no callback in the five minutes, the wait times out. *)
Lemma listener_times_out (requests : list (Duration * main.Arrival)) :
  match requests with
  | [] => True
  | (t, _) :: _ => 5 * Minute <= t
  end ->
  main.resolved (main.awaitCallback requests) = Some main.TimedOut.
Proof.
  destruct requests as [|[t q] rest]; intro H.
  - reflexivity.
  - unfold main.awaitCallback. simpl fold_left.
    apply deliveries_resolved. unfold main.deliver. simpl fst.
    change main.timeout with (5 * Minute).
    apply Z.leb_le in H. rewrite H. reflexivity.
Qed.

(** C7, at the callback [GET /callback?error=access_denied] arriving one
    second into the wait of [startGoogleOAuth]: the waiting goroutine gets
    the error [no code received] and shows [Error: no code received];
    [access_denied] is not in it.  The callback server of package google
    does hand the parameter on, as [OAuth error: access_denied]. *)
Theorem oauth_error_parameter_dropped :
  let denied := [("error", "access_denied")] in
  main.resolved (main.awaitCallback [(1 * Second, main.Callback denied)])
  = Some (main.GotError "no code received")
  /\ main.statusLabel (main.GotError "no code received")
     = Some "Error: no code received"
  /\ contains "access_denied" "Error: no code received" = false
  /\ google.returned (google.listen (5 * Minute) [(1 * Second, denied)])
     = Some ("", Some "OAuth error: access_denied")
  /\ contains "access_denied" "OAuth error: access_denied" = true.
Proof. vm_compute. repeat split. Qed.

(** The other two outcomes of the wait, on the requests of the claim. *)
Example oauth_code_and_timeout :
  main.resolved (main.awaitCallback
                   [(1 * Second, main.Callback [("code", "abc123")])])
  = Some (main.GotCode "abc123")
  /\ main.resolved (main.awaitCallback
                      [(1 * Second, main.Callback [("code", "abc123")]);
                       (2 * Second, main.Callback [("code", "second")])])
     = Some (main.GotCode "abc123")
  /\ main.resolved (main.awaitCallback []) = Some main.TimedOut
  /\ main.resolved (main.awaitCallback
                      [(5 * Minute, main.Callback [("code", "late")])])
     = Some main.TimedOut
  /\ google.returned (google.listen (5 * Minute) [(1 * Second, [("code", "abc123")])])
     = Some ("abc123", None)
  /\ google.returned (google.listen (5 * Minute) [])
     = Some ("", Some google.ctxErr).
Proof. vm_compute. repeat split. Qed.

(** ** The iCalendar codec: encode, then decode (C5) *)

Lemma getUID_view (props : ical.Props) (e : Event.t) :
  view (caldav.getUID props e) = view e.
Proof. unfold caldav.getUID. destruct (ical.Get props ical.PropUID); reflexivity. Qed.

Lemma getSummary_view (props : ical.Props) (e : Event.t) :
  view (caldav.getSummary props e)
  = (propValue props ical.PropSummary (Event.Title e), Event.Description e,
     Event.Location e, Event.AllDay e, Event.Start e, Event.End e).
Proof.
  unfold caldav.getSummary, propValue.
  destruct (ical.Get props ical.PropSummary); reflexivity.
Qed.

Lemma getDescription_view (props : ical.Props) (e : Event.t) :
  view (caldav.getDescription props e)
  = (Event.Title e, propValue props ical.PropDescription (Event.Description e),
     Event.Location e, Event.AllDay e, Event.Start e, Event.End e).
Proof.
  unfold caldav.getDescription, propValue.
  destruct (ical.Get props ical.PropDescription); reflexivity.
Qed.

Lemma getLocation_view (props : ical.Props) (e : Event.t) :
  view (caldav.getLocation props e)
  = (Event.Title e, Event.Description e,
     propValue props ical.PropLocation (Event.Location e),
     Event.AllDay e, Event.Start e, Event.End e).
Proof.
  unfold caldav.getLocation, propValue.
  destruct (ical.Get props ical.PropLocation); reflexivity.
Qed.

Lemma getStart_view (k : ical.Codec) (props : ical.Props) (e : Event.t) :
  view (caldav.getStart k props e)
  = (Event.Title e, Event.Description e, Event.Location e,
     propIsDate props ical.PropDateTimeStart (Event.AllDay e),
     propTime k props ical.PropDateTimeStart (Event.Start e), Event.End e).
Proof.
  unfold caldav.getStart, propIsDate, propTime.
  destruct (ical.Get props ical.PropDateTimeStart) as [prop|]; [|reflexivity].
  destruct (ical.DateTime k prop),
    (String.eqb (ical.ParamsGet (ical.Parameters prop) "VALUE") "DATE"); reflexivity.
Qed.

Lemma getEnd_view (k : ical.Codec) (props : ical.Props) (e : Event.t) :
  view (caldav.getEnd k props e)
  = (Event.Title e, Event.Description e, Event.Location e, Event.AllDay e,
     Event.Start e, propTime k props ical.PropDateTimeEnd (Event.End e)).
Proof.
  unfold caldav.getEnd, propTime.
  destruct (ical.Get props ical.PropDateTimeEnd) as [prop|]; [|reflexivity].
  destruct (ical.DateTime k prop); reflexivity.
Qed.

Lemma getCreated_view (k : ical.Codec) (props : ical.Props) (e : Event.t) :
  view (caldav.getCreated k props e) = view e.
Proof.
  unfold caldav.getCreated.
  destruct (ical.Get props ical.PropCreated) as [prop|]; [|reflexivity].
  destruct (ical.DateTime k prop); reflexivity.
Qed.

Lemma getModified_view (k : ical.Codec) (props : ical.Props) (e : Event.t) :
  view (caldav.getModified k props e) = view e.
Proof.
  unfold caldav.getModified.
  destruct (ical.Get props ical.PropLastModified) as [prop|]; [|reflexivity].
  destruct (ical.DateTime k prop); reflexivity.
Qed.

Lemma getStatus_view (props : ical.Props) (e : Event.t) :
  view (caldav.getStatus props e) = view e.
Proof.
  unfold caldav.getStatus.
  destruct (ical.Get props ical.PropStatus) as [prop|]; [|reflexivity].
  destruct (String.eqb (ical.Value prop) "CONFIRMED"),
    (String.eqb (ical.Value prop) "TENTATIVE"),
    (String.eqb (ical.Value prop) "CANCELLED"); reflexivity.
Qed.

(** What the decoder reads into the fields: the raw [Value] of SUMMARY,
    DESCRIPTION and LOCATION, the VALUE parameter of DTSTART, and the
    times of DTSTART and DTEND. *)
Lemma parseComponent_view (k : ical.Codec) (etag calendarID : string)
      (component : ical.Component) :
  let props := ical.CompProps component in
  view (caldav.parseComponent k etag calendarID component)
  = (propValue props ical.PropSummary "",
     propValue props ical.PropDescription "",
     propValue props ical.PropLocation "",
     propIsDate props ical.PropDateTimeStart false,
     propTime k props ical.PropDateTimeStart GoTime.zero,
     propTime k props ical.PropDateTimeEnd GoTime.zero).
Proof.
  intro props. unfold caldav.parseComponent. fold props.
  rewrite getStatus_view, getModified_view, getCreated_view.
  rewrite getEnd_view.
  set (e5 := caldav.getStart k props _).
  pose proof (getStart_view k props
                (caldav.getLocation props
                   (caldav.getDescription props
                      (caldav.getSummary props
                         (caldav.getUID props
                            (Event.mk "" calendarID "" "" "" "" GoTime.zero GoTime.zero
                               false "" None [] GoTime.zero GoTime.zero etag
                               StatusConfirmed false)))))) as H5.
  fold e5 in H5. injection H5 as -> -> -> -> -> ->.
  set (e4 := caldav.getLocation props _).
  pose proof (getLocation_view props
                (caldav.getDescription props
                   (caldav.getSummary props
                      (caldav.getUID props
                         (Event.mk "" calendarID "" "" "" "" GoTime.zero GoTime.zero
                            false "" None [] GoTime.zero GoTime.zero etag
                            StatusConfirmed false))))) as H4.
  fold e4 in H4. injection H4 as -> -> -> -> -> ->.
  set (e3 := caldav.getDescription props _).
  pose proof (getDescription_view props
                (caldav.getSummary props
                   (caldav.getUID props
                      (Event.mk "" calendarID "" "" "" "" GoTime.zero GoTime.zero
                         false "" None [] GoTime.zero GoTime.zero etag
                         StatusConfirmed false)))) as H3.
  fold e3 in H3. injection H3 as -> -> -> -> -> ->.
  set (e2 := caldav.getSummary props _).
  pose proof (getSummary_view props
                (caldav.getUID props
                   (Event.mk "" calendarID "" "" "" "" GoTime.zero GoTime.zero
                      false "" None [] GoTime.zero GoTime.zero etag
                      StatusConfirmed false))) as H2.
  fold e2 in H2. injection H2 as -> -> -> -> -> ->.
  set (e1 := caldav.getUID props _).
  pose proof (getUID_view props
                (Event.mk "" calendarID "" "" "" "" GoTime.zero GoTime.zero
                   false "" None [] GoTime.zero GoTime.zero etag
                   StatusConfirmed false)) as H1.
  fold e1 in H1. injection H1 as -> -> -> -> -> ->.
  reflexivity.
Qed.

(** The properties the encoder leaves in its VEVENT. *)
Lemma eventToICal_props (k : ical.Codec) (now : Time) (e : Event.t) :
  exists props,
    ical.Children (caldav.eventToICal k now e)
    = [ical.mkComponent ical.CompEvent props]
    /\ ical.Get props ical.PropSummary
       = Some (ical.SetText k (ical.NewProp ical.PropSummary) (Event.Title e))
    /\ ical.Get props ical.PropDescription
       = (if String.eqb (Event.Description e) "" then None
          else Some (ical.SetText k (ical.NewProp ical.PropDescription)
                                  (Event.Description e)))
    /\ ical.Get props ical.PropLocation
       = (if String.eqb (Event.Location e) "" then None
          else Some (ical.SetText k (ical.NewProp ical.PropLocation)
                                  (Event.Location e)))
    /\ ical.Get props ical.PropDateTimeStart
       = Some (timeProp k (Event.AllDay e) ical.PropDateTimeStart (Event.Start e))
    /\ ical.Get props ical.PropDateTimeEnd
       = Some (timeProp k (Event.AllDay e) ical.PropDateTimeEnd (Event.End e)).
Proof.
  unfold caldav.eventToICal, timeProp. eexists. split; [reflexivity|].
  destruct (String.eqb (Event.Description e) ""),
           (String.eqb (Event.Location e) ""),
           (Event.AllDay e),
           (String.eqb (Event.Status e) StatusConfirmed),
           (String.eqb (Event.Status e) StatusTentative),
           (String.eqb (Event.Status e) StatusCancelled);
    repeat split.
Qed.

(** What the decoder makes of an encoded event, for any codec. *)
Lemma decode_encoded (k : ical.Codec) (now : Time) (e : Event.t)
      (path etag calendarID : string) :
  exists e',
    caldav.parseICalEvent k (caldav.stored path etag (caldav.eventToICal k now e))
                          calendarID = Ok e'
    /\ view e'
       = (textValue k ical.PropSummary (Event.Title e),
          (if String.eqb (Event.Description e) "" then ""
           else textValue k ical.PropDescription (Event.Description e)),
          (if String.eqb (Event.Location e) "" then ""
           else textValue k ical.PropLocation (Event.Location e)),
          String.eqb
            (ical.ParamsGet
               (ical.Parameters
                  (timeProp k (Event.AllDay e) ical.PropDateTimeStart (Event.Start e)))
               "VALUE") "DATE",
          timeValue k (timeProp k (Event.AllDay e) ical.PropDateTimeStart (Event.Start e)),
          timeValue k (timeProp k (Event.AllDay e) ical.PropDateTimeEnd (Event.End e))).
Proof.
  destruct (eventToICal_props k now e) as [props [Hc [Hs [Hd [Hl [Hst Hen]]]]]].
  unfold caldav.parseICalEvent, caldav.stored. cbn [caldav.Data caldav.ETag].
  rewrite Hc. cbn [caldav.firstEvent ical.CompName].
  change (negb (String.eqb ical.CompEvent ical.CompEvent)) with false. cbv iota.
  eexists. split; [reflexivity|].
  rewrite parseComponent_view. cbn [ical.CompProps].
  unfold propValue, propIsDate, propTime, textValue, timeValue.
  rewrite Hs, Hd, Hl, Hst, Hen.
  destruct (String.eqb (Event.Description e) ""), (String.eqb (Event.Location e) "");
    repeat f_equal;
    match goal with
    | |- (if ?c then true else false) = ?c => destruct c; reflexivity
    end.
Qed.

(** Encode, then decode, gives the fields back when the codec stores the
    three texts as they are, marks exactly the date form with
    [VALUE=DATE], and reads the two times back as [start'] and [end']
    (for go-ical: the instants to the second, or the dates). *)
Lemma ical_roundtrip (k : ical.Codec) (now : Time) (e : Event.t)
      (path etag calendarID : string) (start' end' : Time) :
  textValue k ical.PropSummary (Event.Title e) = Event.Title e ->
  textValue k ical.PropDescription (Event.Description e) = Event.Description e ->
  textValue k ical.PropLocation (Event.Location e) = Event.Location e ->
  String.eqb
    (ical.ParamsGet
       (ical.Parameters
          (timeProp k (Event.AllDay e) ical.PropDateTimeStart (Event.Start e)))
       "VALUE") "DATE" = Event.AllDay e ->
  ical.DateTime k (timeProp k (Event.AllDay e) ical.PropDateTimeStart (Event.Start e))
  = Ok start' ->
  ical.DateTime k (timeProp k (Event.AllDay e) ical.PropDateTimeEnd (Event.End e))
  = Ok end' ->
  exists e',
    caldav.parseICalEvent k (caldav.stored path etag (caldav.eventToICal k now e))
                          calendarID = Ok e'
    /\ view e' = (Event.Title e, Event.Description e, Event.Location e,
                  Event.AllDay e, start', end').
Proof.
  intros Ht Hd Hl Ha Hs He.
  destruct (decode_encoded k now e path etag calendarID) as [e' [Hp Hv]].
  exists e'. split; [exact Hp|]. rewrite Hv. unfold timeValue.
  rewrite Ht, Hd, Hl, Ha, Hs, He.
  destruct (String.eqb_spec (Event.Description e) "") as [->|_],
           (String.eqb_spec (Event.Location e) "") as [->|_]; reflexivity.
Qed.

(** They come back: the timed one with its instants to the second, the
    all-day one with its dates. *)
Example review_round_trip :
  exists e',
    caldav.parseICalEvent goical.codec
      (caldav.stored "/cal/work/e2.ics" "etag-2"
         (caldav.eventToICal goical.codec (Date 2024 6 1 0 0 0 0 UTC) review))
      "/cal/work/" = Ok e'
    /\ view e' = (Event.Title review, Event.Description review, Event.Location review,
                  Event.AllDay review,
                  goical.inUTC (truncSecond (Event.Start review)),
                  goical.inUTC (truncSecond (Event.End review))).
Proof. apply ical_roundtrip; vm_compute; reflexivity. Qed.

Example holiday_round_trip :
  exists e',
    caldav.parseICalEvent goical.codec
      (caldav.stored "/cal/home/e3.ics" "etag-3"
         (caldav.eventToICal goical.codec (Date 2024 6 1 0 0 0 0 UTC) holiday))
      "/cal/home/" = Ok e'
    /\ view e' = (Event.Title holiday, Event.Description holiday,
                  Event.Location holiday, true,
                  Event.Start holiday, Event.End holiday).
Proof. apply ical_roundtrip; vm_compute; reflexivity. Qed.

(** C5, where it fails.  For every codec the decoder returns as title,
    description and location the raw values [SetText] stored, not the
    texts; with a codec that escapes text as go-ical does, the event
    [lunch], titled [Lunch, then coffee], encoded and decoded, is titled
    [Lunch\, then coffee], while its location, all-day flag, start and
    end come back as they were. *)
Theorem ical_text_read_back_raw :
  (forall k now e path etag calendarID,
      exists e',
        caldav.parseICalEvent k (caldav.stored path etag (caldav.eventToICal k now e))
                              calendarID = Ok e'
        /\ Event.Title e' = textValue k ical.PropSummary (Event.Title e)
        /\ Event.Description e'
           = (if String.eqb (Event.Description e) "" then ""
              else textValue k ical.PropDescription (Event.Description e))
        /\ Event.Location e'
           = (if String.eqb (Event.Location e) "" then ""
              else textValue k ical.PropLocation (Event.Location e)))
  /\ (exists e',
        caldav.parseICalEvent goical.codec
          (caldav.stored "/cal/work/e1.ics" "etag-1"
             (caldav.eventToICal goical.codec (Date 2024 6 1 0 0 0 0 UTC) lunch))
          "/cal/work/" = Ok e'
        /\ Event.Title e' = "Lunch" ++ backslash ++ ", then coffee"
        /\ Event.Title e' <> Event.Title lunch
        /\ Event.Location e' = Event.Location lunch
        /\ Event.AllDay e' = Event.AllDay lunch
        /\ Event.Start e' = Event.Start lunch
        /\ Event.End e' = Event.End lunch).
Proof.
  split.
  - intros k now e path etag calendarID.
    destruct (decode_encoded k now e path etag calendarID) as [e' [Hp Hv]].
    exists e'. split; [exact Hp|].
    unfold view in Hv. injection Hv as Ht Hd Hl _ _ _. auto.
  - eexists. split; [vm_compute; reflexivity|].
    vm_compute. repeat split. discriminate.
Qed.

(** ** The properties on a small database *)

Lemma demoStore_consistent : consistent demoStore.
Proof.
  repeat split; simpl.
  - repeat constructor; simpl; tauto.
  - repeat constructor; simpl; intuition discriminate.
  - repeat constructor; simpl; intuition discriminate.
  - intros c [<-|[<-|[]]]; reflexivity.
  - intros e [<-|[<-|[<-|[]]]]; reflexivity.
Defined.

(** The end-to-end scenario of the specification. *)
Example standup_scenario :
  GetEventsForDate demoStore (Date 2024 6 10 0 0 0 0 UTC)
  = Ok [scanEvent standupRow; scanEvent midnightRow]
  /\ GetEventsForDate demoStore (Date 2024 6 11 0 0 0 0 UTC)
     = Ok [scanEvent midnightRow]
  /\ GetEventsForDate demoStore (Date 2024 6 9 0 0 0 0 UTC) = Ok [].
Proof. vm_compute. repeat split. Qed.


Lemma save_existing_witness :
  keysUnique demoStore
  /\ (exists s', SaveAccount demoStore renamedAccount = Ok s'
                 /\ GetAccount s' "acc-1" = Ok renamedAccount
                 /\ calendars s' = calendars demoStore
                 /\ events s' = events demoStore)
  /\ (exists s', SaveCalendar demoStore recolouredCalendar = Ok s'
                 /\ GetCalendar s' "cal-1" = Ok recolouredCalendar
                 /\ events s' = events demoStore)
  /\ (exists s', SaveEvent demoStore movedStandup = Ok s'
                 /\ GetEvent s' "evt-A" = Ok movedStandup
                 /\ List.length (events s') = 3%nat).
Proof.
  split; [exact (proj1 demoStore_consistent)|].
  destruct (save_existing_updates_in_place demoStore renamedAccount
              recolouredCalendar movedStandup (proj1 demoStore_consistent))
    as [[sa [Ha [_ [Ga [Ca Ea]]]]] [[sc [Hc [_ [Gc [_ Ec]]]]] [se [He [Re [Ge _]]]]]].
  - simpl. tauto.
  - simpl. tauto.
  - reflexivity.
  - simpl. tauto.
  - reflexivity.
  - split; [|split].
    + exists sa. auto.
    + exists sc. repeat split; auto.
    + exists se. repeat split; auto.
      destruct Re as [[before [old [after [H1 [_ H2]]]]] _].
      rewrite H2. apply (f_equal (@List.length _)) in H1.
      rewrite length_app in H1 |- *. simpl in H1 |- *. lia.
Defined.

Lemma delete_cascades_witness :
  consistent demoStore
  /\ (exists s', DeleteAccount demoStore "acc-1" = Ok s'
                 /\ accounts s' = [] /\ calendars s' = [] /\ events s' = [])
  /\ (exists s', DeleteCalendar demoStore "cal-1" = Ok s'
                 /\ calendars s' = [archiveRow] /\ events s' = [archivedRow]
                 /\ consistent s').
Proof.
  split; [exact demoStore_consistent|].
  destruct (delete_cascades demoStore "acc-1" demoStore_consistent)
    as [[sa [Ha _]] _].
  destruct (delete_cascades demoStore "cal-1" demoStore_consistent)
    as [_ [sc [Hc [_ [_ [_ Cc]]]]]].
  split.
  - exists sa. split; [exact Ha|].
    assert (sa = deleteAccountsWhere (hasKey AccountRow.id "acc-1") demoStore) as ->
        by (unfold DeleteAccount in Ha; congruence).
    repeat split.
  - exists sc. split; [exact Hc|].
    assert (sc = deleteCalendarsWhere (hasKey CalendarRow.id "cal-1") demoStore) as Hsc
        by (unfold DeleteCalendar in Hc; congruence).
    split; [|split]; [rewrite Hsc; reflexivity | rewrite Hsc; reflexivity | exact Cc].
Defined.

Lemma read_events_have_status_witness :
  returnedByRead demoStore (scanEvent archivedRow)
  /\ Event.Status (scanEvent archivedRow) = StatusConfirmed.
Proof.
  assert (returnedByRead demoStore (scanEvent archivedRow)) as H
      by (left; exists "evt-C"; reflexivity).
  split; [exact H|].
  destruct (read_events_have_status demoStore (scanEvent archivedRow) H)
    as [r [Hin [Heq [_ [Hnull _]]]]].
  apply Hnull.
  destruct Hin as [<-|[<-|[<-|[]]]]; try discriminate Heq. reflexivity.
Defined.

Lemma cancelled_events_witness :
  let w := main.mkWorld googleStore 0 [] in
  map EventRow.id
      (events (main.db (snd (main.fetchGoogleEvents googleEnv expiredNoRefreshToken
                               primaryCalendar w))))
  = ["evt2"]
  /\ Event.Cancelled (google.itemEvent (main.parse googleEnv) "primary" cancelledItem)
     = true
  /\ Event.Cancelled (caldav.parseComponent goical.codec "etag" "/cal/" cancelledVEvent)
     = true.
Proof.
  intro w.
  destruct cancelled_events_by_provider as [H1 [_ [_ [H4 [H5 _]]]]].
  split; [|split].
  - rewrite (H1 googleEnv expiredNoRefreshToken primaryCalendar w
               (mkResponse 200 "200 OK" (Ok [cancelledItem; liveItem]))
               [cancelledItem; liveItem]); reflexivity.
  - apply H4. reflexivity.
  - apply (H5 goical.codec "etag" "/cal/" cancelledVEvent
              (ical.mkProp ical.PropStatus [] "CANCELLED")); reflexivity.
Defined.


Lemma bootstrap_witness :
  (* a store with calendars is left alone *)
  (calendars demoStore <> []
   /\ main.ensureDefaultCalendar silentEnv (main.mkWorld demoStore 0 [])
      = (tt, main.mkWorld demoStore 0 []))
  (* an empty store gets the local account and its calendar *)
  /\ (calendars NewStore = []
      /\ exists s2,
          main.ensureDefaultCalendar silentEnv (main.mkWorld NewStore 0 [])
          = (tt, main.mkWorld s2 2 [])
          /\ map AccountRow.name (accounts s2) = ["Local"]
          /\ map CalendarRow.name (calendars s2) = ["My Calendar"]).
Proof.
  destruct (bootstrap_when_no_calendars silentEnv (main.mkWorld demoStore 0 []))
    as [H1 _].
  destruct (bootstrap_when_no_calendars silentEnv (main.mkWorld NewStore 0 []))
    as [_ [H2 _]].
  split.
  - split; [discriminate|]. apply H1. discriminate.
  - split; [reflexivity|].
    destruct (H2 eq_refl) as [s1 [s2 [Hs1 [Hs2 [Hrun [Hc [_ Ha]]]]]]].
    exists s2. split; [exact Hrun|]. split.
    + simpl in Ha. rewrite Ha by (simpl; tauto). reflexivity.
    + simpl in Hc. rewrite Hc. reflexivity.
Defined.

(* ================================================================== *)
(** * Further properties of the store, the providers and the views     *)
(* ================================================================== *)

(** ** The store as its callers use it *)

Lemma store_eta (s : Store) : mkStore (accounts s) (calendars s) (events s) = s.
Proof. now destruct s. Qed.

Lemma find_filter_out {R : Type} (key : R -> string) (k : string) (tbl : list R) :
  find (hasKey key k) (filter (fun r => negb (hasKey key k r)) tbl) = None.
Proof.
  induction tbl as [|r tbl IH]; simpl; [reflexivity|].
  destruct (hasKey key k r) eqn:E; simpl; [exact IH|]. now rewrite E.
Qed.

Lemma existsb_filter_out {R : Type} (key : R -> string) (k : string) (tbl : list R) :
  existsb (hasKey key k) (filter (fun r => negb (hasKey key k r)) tbl) = false.
Proof.
  induction tbl as [|r tbl IH]; simpl; [reflexivity|].
  destruct (hasKey key k r) eqn:E; simpl; [exact IH|]. now rewrite E.
Qed.

Lemma filter_out_absent {R : Type} (key : R -> string) (k : string) (tbl : list R) :
  ~ In k (map key tbl) ->
  filter (hasKey key k) tbl = [] /\ filter (fun r => negb (hasKey key k r)) tbl = tbl.
Proof.
  intro Hno. apply filter_none. intros r Hin. unfold hasKey.
  apply String.eqb_neq. intro E. apply Hno. rewrite <- E. now apply in_map.
Qed.

Lemma Sorted_map {A B : Type} (f : A -> B) (P : B -> B -> Prop) (l : list A) :
  Sorted (fun a b => P (f a) (f b)) l -> Sorted P (map f l).
Proof.
  induction 1 as [|a l Hs IH Hd]; simpl; constructor; [exact IH|].
  destruct Hd; simpl; constructor; assumption.
Qed.

Lemma scanCalendar_savedCalendar (c : Calendar.t) :
  scanCalendar (calendarRow c) = savedCalendar c.
Proof.
  unfold savedCalendar, scanCalendar, calendarRow. destruct c as [i a n d col v ro st ls].
  cbn. destruct (String.eqb col ""); reflexivity.
Qed.

Lemma scanEvent_savedEvent (e : Event.t) : scanEvent (eventRow e) = savedEvent e.
Proof.
  unfold savedEvent, scanEvent, eventRow. destruct e. cbn.
  destruct (String.eqb Status ""); reflexivity.
Qed.

(** X1.  A row that was saved is the row a lookup by its identifier
    returns, whether the identifier was new or not: an account as it
    was given, a calendar and an event with the default colour and status
    in place of an empty one. *)
Theorem save_then_get (s : Store) (a : Account.t) (c : Calendar.t) (e : Event.t) :
  accountExists s (Calendar.AccountID c) = true ->
  calendarExists s (Event.CalendarID e) = true ->
  (exists s', SaveAccount s a = Ok s' /\ GetAccount s' (Account.ID a) = Ok a)
  /\ (exists s', SaveCalendar s c = Ok s'
                 /\ GetCalendar s' (Calendar.ID c) = Ok (savedCalendar c))
  /\ (exists s', SaveEvent s e = Ok s'
                 /\ GetEvent s' (Event.ID e) = Ok (savedEvent e)).
Proof.
  intros Ha Hc. split; [|split].
  - apply GetAccount_SaveAccount.
  - unfold SaveCalendar. rewrite Ha. eexists. split; [reflexivity|].
    unfold GetCalendar. cbn [calendars].
    change (Calendar.ID c) with (CalendarRow.id (calendarRow c)).
    rewrite (find_upsert CalendarRow.id updateCalendar _ _ updateCalendar_same_key).
    now rewrite scanCalendar_savedCalendar.
  - unfold SaveEvent. rewrite Hc. eexists. split; [reflexivity|].
    unfold GetEvent. cbn [events].
    change (Event.ID e) with (EventRow.id (eventRow e)).
    rewrite (find_upsert EventRow.id updateEvent _ _ updateEvent_same_key).
    now rewrite scanEvent_savedEvent.
Qed.

Lemma DeleteAccount_tables (s : Store) (id : string) :
  consistent s ->
  accounts (deleteAccountsWhere (hasKey AccountRow.id id) s)
  = filter (fun a => negb (hasKey AccountRow.id id a)) (accounts s)
  /\ calendars (deleteAccountsWhere (hasKey AccountRow.id id) s)
     = filter (fun c => negb (hasKey CalendarRow.account_id id c)) (calendars s).
Proof.
  intro Hs. rewrite (deleteAccount_unfold s id Hs).
  match goal with
  | |- context [deleteCalendarsWhere ?p ?s0] =>
      destruct (deleteCalendarsWhere_tables p s0) as [Ta Tc]
  end.
  split; [exact Ta|exact Tc].
Qed.

Lemma no_events_of_deleted_calendar (s : Store) (id : string) :
  consistent s ->
  filter (ofCalendar id) (events (deleteCalendarsWhere (hasKey CalendarRow.id id) s)) = [].
Proof.
  intros [_ [_ Fe]]. apply filter_none. intros e Hin.
  apply deleteCalendarsWhere_events in Hin. destruct Hin as [Hin Hall].
  unfold ofCalendar. destruct (String.eqb_spec (EventRow.calendar_id e) id) as [E|E];
    [|reflexivity].
  pose proof (Fe e Hin) as Hex. apply calendarExists_In, in_map_iff in Hex.
  destruct Hex as [c [Hid Hc]]. pose proof (Hall c Hc Hid) as Hp.
  unfold hasKey in Hp. apply String.eqb_neq in Hp. congruence.
Qed.

(** X2.  What was deleted is gone for the reads and for the foreign
    keys: on a consistent database, after [DeleteEvent] the identifier has
    no row; after [DeleteEventsByCalendar] the calendar lists no event;
    after [DeleteCalendar] the calendar has no row, lists no event and
    takes no event; after [DeleteAccount] the account has no row, lists
    no calendar and takes no calendar. *)
Theorem deleted_rows_are_gone (s : Store) (id : string) :
  consistent s ->
  (exists s', DeleteEvent s id = Ok s' /\ GetEvent s' id = Err errNoRows)
  /\ (exists s', DeleteEventsByCalendar s id = Ok s'
                 /\ GetEventsByCalendar s' id = Ok [])
  /\ (exists s', DeleteCalendar s id = Ok s'
                 /\ GetCalendar s' id = Err errNoRows
                 /\ GetEventsByCalendar s' id = Ok []
                 /\ forall e, Event.CalendarID e = id ->
                              SaveEvent s' e = Err errForeignKey)
  /\ (exists s', DeleteAccount s id = Ok s'
                 /\ GetAccount s' id = Err errNoRows
                 /\ GetCalendarsByAccount s' id = Ok []
                 /\ forall c, Calendar.AccountID c = id ->
                              SaveCalendar s' c = Err errForeignKey).
Proof.
  intro Hs. split; [|split; [|split]].
  - eexists. split; [reflexivity|]. unfold GetEvent, deleteEventsWhere.
    cbn [events]. now rewrite find_filter_out.
  - eexists. split; [reflexivity|]. unfold GetEventsByCalendar, deleteEventsWhere.
    cbn [events]. rewrite filter_filter.
    match goal with
    | |- context [filter ?p (events s)] =>
        replace (filter p (events s)) with (@nil EventRow.t)
    end; [reflexivity|].
    symmetry. apply filter_none. intros e _. unfold hasKey.
    now destruct (String.eqb (EventRow.calendar_id e) id).
  - eexists. split; [reflexivity|].
    destruct (deleteCalendarsWhere_tables (hasKey CalendarRow.id id) s) as [Ta Tc].
    split; [|split].
    + unfold GetCalendar. rewrite Tc. now rewrite find_filter_out.
    + unfold GetEventsByCalendar.
      change (fun e => String.eqb (EventRow.calendar_id e) id
                       && negb (EventRow.cancelled e)) with (ofCalendar id).
      now rewrite no_events_of_deleted_calendar.
    + intros e He. unfold SaveEvent, calendarExists. rewrite Tc, He.
      now rewrite existsb_filter_out.
  - eexists. split; [reflexivity|].
    destruct (DeleteAccount_tables s id Hs) as [Ta Tc]. split; [|split].
    + unfold GetAccount. rewrite Ta. now rewrite find_filter_out.
    + unfold GetCalendarsByAccount. rewrite Tc, filter_filter.
      match goal with
      | |- context [filter ?p (calendars s)] =>
          replace (filter p (calendars s)) with (@nil CalendarRow.t)
      end; [reflexivity|].
      symmetry. apply filter_none. intros c _. unfold hasKey.
      now destruct (String.eqb (CalendarRow.account_id c) id).
    + intros c Hc. unfold SaveCalendar, accountExists. rewrite Ta, Hc.
      now rewrite existsb_filter_out.
Qed.

(** X3.  Deleting under an identifier that has no row changes nothing
    and is no error. *)
Theorem delete_missing_changes_nothing (s : Store) (id : string) :
  (~ In id (map EventRow.id (events s)) -> DeleteEvent s id = Ok s)
  /\ (~ In id (map EventRow.calendar_id (events s)) ->
      DeleteEventsByCalendar s id = Ok s)
  /\ (~ In id (map CalendarRow.id (calendars s)) -> DeleteCalendar s id = Ok s)
  /\ (~ In id (map AccountRow.id (accounts s)) -> DeleteAccount s id = Ok s).
Proof.
  split; [|split; [|split]]; intro Hno.
  - unfold DeleteEvent, deleteEventsWhere.
    destruct (filter_out_absent EventRow.id id (events s) Hno) as [_ ->].
    now rewrite store_eta.
  - unfold DeleteEventsByCalendar, deleteEventsWhere.
    destruct (filter_out_absent EventRow.calendar_id id (events s) Hno) as [_ ->].
    now rewrite store_eta.
  - unfold DeleteCalendar, deleteCalendarsWhere.
    destruct (filter_out_absent CalendarRow.id id (calendars s) Hno) as [-> ->].
    cbn [fold_left]. now rewrite store_eta.
  - unfold DeleteAccount, deleteAccountsWhere.
    destruct (filter_out_absent AccountRow.id id (accounts s) Hno) as [-> ->].
    cbn [fold_left]. now rewrite store_eta.
Qed.

Lemma deleteEventsWhere_consistent (p : EventRow.t -> bool) (s : Store) :
  consistent s -> consistent (deleteEventsWhere p s).
Proof.
  intros [[Ha [Hc He]] [Fc Fe]]. unfold deleteEventsWhere. repeat split; cbn.
  - exact Ha.
  - exact Hc.
  - now apply NoDup_map_filter.
  - exact Fc.
  - intros e Hin. apply filter_In in Hin. apply Fe. tauto.
Qed.

Lemma DeleteAccount_consistent (s : Store) (id : string) :
  consistent s -> consistent (deleteAccountsWhere (hasKey AccountRow.id id) s).
Proof.
  intro Hs. destruct (DeleteAccount_tables s id Hs) as [Ta Tc].
  rewrite (deleteAccount_unfold s id Hs) in *.
  destruct Hs as [[Ha [Hc He]] [Fc Fe]].
  set (s0 := mkStore (filter (fun a => negb (hasKey AccountRow.id id a)) (accounts s))
                     (calendars s) (events s)) in *.
  repeat split.
  - rewrite Ta. now apply NoDup_map_filter.
  - rewrite Tc. now apply NoDup_map_filter.
  - unfold deleteCalendarsWhere. rewrite cascadeCalendar_fold. cbn.
    now apply NoDup_map_filter.
  - intros c Hin. rewrite Tc in Hin. apply filter_In in Hin.
    destruct Hin as [Hin Hne]. apply negb_true_iff, String.eqb_neq in Hne.
    apply accountExists_In. rewrite Ta.
    pose proof (Fc c Hin) as Hex. apply accountExists_In, in_map_iff in Hex.
    destruct Hex as [a [Hai Hain]]. apply in_map_iff. exists a.
    split; [exact Hai|]. apply filter_In. split; [exact Hain|].
    apply negb_true_iff, String.eqb_neq. congruence.
  - intros e Hin. apply deleteCalendarsWhere_events in Hin.
    destruct Hin as [Hin Hall]. cbn in Hin, Hall.
    pose proof (Fe e Hin) as Hex. apply calendarExists_In, in_map_iff in Hex.
    destruct Hex as [c [Hid Hcin]].
    apply calendarExists_In. rewrite Tc. apply in_map_iff. exists c.
    split; [exact Hid|]. apply filter_In. split; [exact Hcin|].
    now rewrite (Hall c Hcin Hid).
Qed.

Lemma afterOp_consistent (s : Store) (op : StoreOp) :
  consistent s -> consistent (afterOp s op).
Proof.
  intro Hs. unfold afterOp. destruct (runOp s op) as [s'|err] eqn:E; [|exact Hs].
  destruct op; cbn in E.
  - eapply SaveAccount_consistent; eauto.
  - eapply SaveCalendar_consistent; eauto.
  - eapply SaveEvent_consistent; eauto.
  - inversion E. now apply DeleteAccount_consistent.
  - inversion E. now apply deleteCalendarsWhere_consistent.
  - inversion E. now apply deleteEventsWhere_consistent.
  - inversion E. now apply deleteEventsWhere_consistent.
Qed.

(** X4.  Whatever sequence of saves and deletes runs against the store,
    from a fresh database on, the identifiers of each table stay unique
    and every calendar has its account, every event its calendar. *)
Theorem store_stays_consistent (ops : list StoreOp) :
  consistent (fold_left afterOp ops NewStore).
Proof.
  assert (forall s, consistent s -> consistent (fold_left afterOp ops s)) as H.
  { induction ops as [|op ops IH]; intros s Hs; [exact Hs|].
    cbn. apply IH. now apply afterOp_consistent. }
  apply H, NewStore_consistent.
Qed.


Lemma scanCalendarRows_scanCalendar (r : CalendarRow.t) :
  scanCalendarRows r = scanCalendar r.
Proof. reflexivity. Qed.

Lemma scanCalendar_color (r : CalendarRow.t) : Calendar.Color (scanCalendar r) <> "".
Proof.
  unfold scanCalendar. cbn.
  destruct (String.eqb_spec (nullString (CalendarRow.color r)) ""); [discriminate|assumption].
Qed.

Lemma byCalendarName_sorted (rows : list CalendarRow.t) :
  Sorted calendarNameOrder (map scanCalendarRows (orderBy byCalendarName rows)).
Proof.
  apply Sorted_map.
  apply (orderBy_sorted byCalendarName).
  intros a b. apply String.leb_total.
Qed.

(** X6.  The calendar listings: [GetAllCalendars] returns every stored
    calendar once, in name order; [GetVisibleCalendars] the visible ones
    among them and [GetCalendarsByAccount] those of the account, in the
    same order; no listed calendar has an empty colour; and each listed
    calendar is what [GetCalendar] returns for its identifier. *)
Theorem calendar_listings (s : Store) :
  exists all visible,
    GetAllCalendars s = Ok all
    /\ GetVisibleCalendars s = Ok visible
    /\ Permutation all (map scanCalendar (calendars s))
    /\ Sorted calendarNameOrder all
    /\ Sorted calendarNameOrder visible
    /\ (forall c, In c visible <-> In c all /\ Calendar.Visible c = true)
    /\ (forall accountID,
          exists l, GetCalendarsByAccount s accountID = Ok l
                    /\ Sorted calendarNameOrder l
                    /\ forall c, In c l <-> In c all /\ Calendar.AccountID c = accountID)
    /\ (forall c, In c all -> Calendar.Color c <> "")
    /\ (keysUnique s ->
        forall c, In c all -> GetCalendar s (Calendar.ID c) = Ok c).
Proof.
  do 2 eexists. split; [reflexivity|]. split; [reflexivity|].
  split; [|split; [|split; [|split; [|split; [|split]]]]].
  - apply Permutation_map. apply Permutation_sym, orderBy_perm.
  - apply byCalendarName_sorted.
  - apply byCalendarName_sorted.
  - intro c. rewrite !in_map_iff. split.
    + intros [r [Hc Hin]]. apply (proj1 (orderBy_In _ _ _)), filter_In in Hin.
      destruct Hin as [Hin Hv]. split.
      * exists r. split; [exact Hc|]. now apply (proj2 (orderBy_In _ _ _)).
      * now rewrite <- Hc.
    + intros [[r [Hc Hin]] Hv]. exists r. split; [exact Hc|].
      apply (proj1 (orderBy_In _ _ _)) in Hin.
      apply (proj2 (orderBy_In _ _ _)), filter_In. split; [exact Hin|].
      now rewrite <- Hc in Hv.
  - intro accountID. eexists. split; [reflexivity|]. split.
    + apply byCalendarName_sorted.
    + intro c. rewrite !in_map_iff. split.
      * intros [r [Hc Hin]]. apply (proj1 (orderBy_In _ _ _)), filter_In in Hin.
        destruct Hin as [Hin Hv]. apply String.eqb_eq in Hv. split.
        -- exists r. split; [exact Hc|]. now apply (proj2 (orderBy_In _ _ _)).
        -- now rewrite <- Hc.
      * intros [[r [Hc Hin]] Hv]. exists r. split; [exact Hc|].
        apply (proj1 (orderBy_In _ _ _)) in Hin.
        apply (proj2 (orderBy_In _ _ _)), filter_In. split; [exact Hin|].
        apply String.eqb_eq. now rewrite <- Hc in Hv.
  - intros c Hin. apply in_map_iff in Hin. destruct Hin as [r [<- _]].
    apply scanCalendar_color.
  - intros [_ [Hk _]] c Hin. apply in_map_iff in Hin. destruct Hin as [r [<- Hin]].
    apply (proj1 (orderBy_In _ _ _)) in Hin.
    unfold GetCalendar. cbn [Calendar.ID scanCalendarRows].
    destruct (filter_key_unique CalendarRow.id (CalendarRow.id r) (calendars s) Hk)
      as [Hnone|[r' [Hin' [Hid Hone]]]].
    + exfalso. apply (filter_key_none _ _ _ Hnone). now apply in_map.
    + assert (r' = r) as -> by (eapply key_inj_In; eauto).
      now rewrite (find_present _ _ _ Hone).
Qed.

Lemma byAccountName_sorted (rows : list AccountRow.t) :
  Sorted accountNameOrder
    (map scanAccountRows
       (orderBy (fun a b => String.leb (AccountRow.name a) (AccountRow.name b)) rows)).
Proof.
  apply Sorted_map.
  apply (orderBy_sorted (fun a b => String.leb (AccountRow.name a) (AccountRow.name b))).
  intros a b. apply String.leb_total.
Qed.

(** X7.  [GetAllAccounts] returns every stored account once, in name
    order, and each listed account is what [GetAccount] returns for its
    identifier. *)
Theorem account_listing (s : Store) :
  exists l,
    GetAllAccounts s = Ok l
    /\ Permutation l (map scanAccount (accounts s))
    /\ Sorted accountNameOrder l
    /\ (keysUnique s -> forall a, In a l -> GetAccount s (Account.ID a) = Ok a).
Proof.
  eexists. split; [reflexivity|]. split; [|split].
  - apply Permutation_map. apply Permutation_sym, orderBy_perm.
  - apply byAccountName_sorted.
  - intros [Hk _] a Hin. apply in_map_iff in Hin. destruct Hin as [r [<- Hin]].
    apply (proj1 (orderBy_In _ _ _)) in Hin.
    unfold GetAccount. cbn [Account.ID scanAccountRows].
    destruct (filter_key_unique AccountRow.id (AccountRow.id r) (accounts s) Hk)
      as [Hnone|[r' [Hin' [Hid Hone]]]].
    + exfalso. apply (filter_key_none _ _ _ Hnone). now apply in_map.
    + assert (r' = r) as -> by (eapply key_inj_In; eauto).
      now rewrite (find_present _ _ _ Hone).
Qed.


(** X9.  [Overlaps] is symmetric; two events that contain a common
    instant overlap; and two overlapping events that both last contain a
    common instant, the later of their starts. *)
Theorem overlap_is_a_common_instant (e other : Event.t) :
  Event.Overlaps e other = Event.Overlaps other e
  /\ (forall x, Event.ContainsTime e x = true -> Event.ContainsTime other x = true ->
                Event.Overlaps e other = true)
  /\ (0 < Event.Duration e -> 0 < Event.Duration other ->
      Event.Overlaps e other = true ->
      let later := if Before (Event.Start e) (Event.Start other)
                   then Event.Start other else Event.Start e in
      Event.ContainsTime e later = true /\ Event.ContainsTime other later = true).
Proof.
  unfold Event.Overlaps, Event.ContainsTime, Event.Duration, Before, After, Sub.
  split; [|split].
  - apply andb_comm.
  - intro x. rewrite !andb_true_iff, !negb_true_iff, !Z.ltb_lt, !Z.ltb_ge. lia.
  - intros He Ho. rewrite !andb_true_iff, !Z.ltb_lt. intros [H1 H2]. cbv zeta.
    destruct (Z.ltb_spec (unixNano (Event.Start e)) (unixNano (Event.Start other)));
      rewrite !negb_true_iff, !Z.ltb_ge; lia.
Qed.

(** ** Package google: the client *)

(** X10.  A Google client makes no request before it holds a token:
    fresh from [NewClient], every request method answers [not
    authenticated]; [Authenticate] succeeds exactly when the account's
    access token is not empty and parses, and then installs the client
    for it. *)
Theorem google_client_needs_token
        (tokenClient : string -> Result google.API) (wr : google.Writes)
        (parse : Parser) (a : Account.t) (cfg : google.OAuthConfig) :
  let fresh := google.NewClient a cfg in
  (google.ListCalendars fresh = Err "not authenticated"
   /\ (forall id x y, google.GetEvents parse fresh id x y = Err "not authenticated")
   /\ (forall id e, google.CreateEvent wr fresh id e = Some "not authenticated")
   /\ (forall id e, google.UpdateEvent wr fresh id e = Some "not authenticated")
   /\ (forall id e, google.DeleteEvent wr fresh id e = Some "not authenticated"))
  /\ (Account.AccessToken a = "" ->
      google.Authenticate tokenClient fresh
      = (fresh, Some "no access token - OAuth flow required"))
  /\ (forall c, google.Authenticate tokenClient fresh = (c, None)
                <-> Account.AccessToken a <> ""
                    /\ exists api, tokenClient (Account.AccessToken a) = Ok api
                                   /\ c = google.mkClient a (Some api)).
Proof.
  intro fresh. split; [|split].
  - repeat split.
  - intro He. unfold google.Authenticate. cbn. now rewrite He.
  - intro c. unfold google.Authenticate, google.SetToken. cbn. split.
    + destruct (String.eqb_spec (Account.AccessToken a) "") as [E|E]; cbn;
        [discriminate|].
      destruct (tokenClient (Account.AccessToken a)) as [api|err]; [|discriminate].
      intro H. inversion H. split; [exact E|]. now exists api.
    + intros [E [api [Ht ->]]]. apply String.eqb_neq in E. rewrite E. cbn.
      now rewrite Ht.
Qed.

(** X11.  The writing methods of the Google client.  [UpdateEvent]
    returns an error in every state.  [CreateEvent] posts without a body:
    what it returns does not depend on the event, and with a token and an
    accepted URL it succeeds exactly when the POST is answered 200 or 201.
    [DeleteEvent] succeeds exactly when the DELETE is answered 200 or
    204. *)
Theorem google_writes (wr : google.Writes) (c : google.Client) (id : string) :
  (forall e, google.UpdateEvent wr c id e <> None)
  /\ (forall e1 e2, google.CreateEvent wr c id e1 = google.CreateEvent wr c id e2)
  /\ (forall e,
        google.CreateEvent wr c id e = None
        <-> google.httpClient c <> None
            /\ google.NewRequest wr "POST" (google.eventsURL id) = None
            /\ exists code status,
                google.Post wr (google.eventsURL id) None = Ok (code, status)
                /\ (code = 200 \/ code = 201))
  /\ (forall eventID,
        google.DeleteEvent wr c id eventID = None
        <-> google.httpClient c <> None
            /\ google.NewRequest wr "DELETE" (google.eventURL id eventID) = None
            /\ exists code status,
                google.Delete wr (google.eventURL id eventID) = Ok (code, status)
                /\ (code = 200 \/ code = 204)).
Proof.
  split; [|split; [|split]].
  - intro e. unfold google.UpdateEvent.
    destruct (google.httpClient c); [|discriminate].
    cbv zeta. destruct (google.NewRequest wr "PUT" _); discriminate.
  - reflexivity.
  - intro e. unfold google.CreateEvent.
    destruct (google.httpClient c) as [api|]; cbv zeta.
    2: { split; [discriminate|]. intros [H _]. now contradiction H. }
    destruct (google.NewRequest wr "POST" _) as [err|].
    { split; [discriminate|]. intros [_ [H _]]. discriminate. }
    destruct (google.Post wr _ None) as [[code status]|err].
    2: { split; [discriminate|]. intros [_ [_ [c0 [s0 [H1 _]]]]]. discriminate. }
    split.
    + intro H. split; [discriminate|]. split; [reflexivity|].
      exists code, status. split; [reflexivity|].
      destruct (Z.eqb_spec code 200); [now left|].
      destruct (Z.eqb_spec code 201); [now right|]. discriminate.
    + intros [_ [_ [c0 [s0 [H1 H2]]]]]. injection H1 as <- <-.
      destruct H2 as [->| ->]; reflexivity.
  - intro eventID. unfold google.DeleteEvent.
    destruct (google.httpClient c) as [api|]; cbv zeta.
    2: { split; [discriminate|]. intros [H _]. now contradiction H. }
    destruct (google.NewRequest wr "DELETE" _) as [err|].
    { split; [discriminate|]. intros [_ [H _]]. discriminate. }
    destruct (google.Delete wr _) as [[code status]|err].
    2: { split; [discriminate|]. intros [_ [_ [c0 [s0 [H1 _]]]]]. discriminate. }
    split.
    + intro H. split; [discriminate|]. split; [reflexivity|].
      exists code, status. split; [reflexivity|].
      destruct (Z.eqb_spec code 200); [now left|].
      destruct (Z.eqb_spec code 204); [now right|]. discriminate.
    + intros [_ [_ [c0 [s0 [H1 H2]]]]]. injection H1 as <- <-.
      destruct H2 as [->| ->]; reflexivity.
Qed.

(** X12.  The calendars [ListCalendars] returns: one per item of the
    list, in its order, under the client's account, visible, named after
    the item, and read-only exactly for the access roles [reader] and
    [freeBusyReader]. *)
Theorem google_calendar_list (c : google.Client) (l : list Calendar.t) :
  google.ListCalendars c = Ok l ->
  exists api resp items,
    google.httpClient c = Some api
    /\ google.CalendarList api = Ok resp /\ StatusCode resp = 200
    /\ Body resp = Ok items
    /\ map Calendar.ID l = map CalItemID items
    /\ map Calendar.Name l = map CalItemSummary items
    /\ map Calendar.Color l = map BackgroundColor items
    /\ map Calendar.ReadOnly l
       = map (fun item => String.eqb (AccessRole item) "reader"
                          || String.eqb (AccessRole item) "freeBusyReader") items
    /\ Forall (fun cal => Calendar.AccountID cal = Account.ID (google.account c)
                          /\ Calendar.Visible cal = true) l.
Proof.
  unfold google.ListCalendars.
  destruct (google.httpClient c) as [api|]; [|discriminate].
  destruct (google.CalendarList api) as [resp|err] eqn:Hl; [|discriminate].
  destruct (Z.eqb_spec (StatusCode resp) 200) as [Hs|Hs]; cbn; [|discriminate].
  destruct (Body resp) as [items|err] eqn:Hb; [|discriminate].
  intro H. injection H as <-. exists api, resp, items.
  rewrite !map_map. cbn. do 8 (split; [reflexivity || assumption|]).
  apply Forall_forall. intros cal Hin. apply in_map_iff in Hin.
  destruct Hin as [item [<- _]]. cbn. auto.
Qed.

(** X13.  The two mappings of a Google events item, the one of the
    client ([GetEvents]) and the one of the sync ([fetchGoogleEvents]),
    give the same event for a confirmed item whose start reads alike; for
    an item without a status the client leaves the status empty where
    the sync says confirmed, and for a start date that does not parse the
    sync marks the event all-day where the client does not. *)
Theorem google_mappings_agree (env : main.Env) (cal : Calendar.t) (item : EventItem) :
  (ItemStatus item = "confirmed" -> startReadsAlike (main.parse env) item ->
   google.itemEvent (main.parse env) (Calendar.ID cal) item
   = main.fetchedEvent env cal item)
  /\ (ItemStatus item = "" ->
      Event.Status (google.itemEvent (main.parse env) (Calendar.ID cal) item) = ""
      /\ Event.Status (main.fetchedEvent env cal item) = StatusConfirmed)
  /\ (StartDateTime item = "" -> StartDate item <> "" ->
      (forall x, main.parse env DateOnly (StartDate item) <> Ok x) ->
      Event.AllDay (google.itemEvent (main.parse env) (Calendar.ID cal) item) = false
      /\ Event.AllDay (main.fetchedEvent env cal item) = true).
Proof.
  split; [|split].
  - intros Hst Hal. unfold google.itemEvent, main.fetchedEvent. rewrite Hst. cbn.
    unfold startReadsAlike in Hal.
    destruct (String.eqb_spec (StartDateTime item) "") as [Es|Es]; cbn.
    + destruct (String.eqb_spec (StartDate item) "") as [Ed|Ed]; cbn.
      * destruct (String.eqb (EndDateTime item) ""); cbn.
        -- destruct (String.eqb (EndDate item) ""); cbn; [reflexivity|].
           destruct (main.parse env DateOnly (EndDate item)); reflexivity.
        -- destruct (main.parse env RFC3339 (EndDateTime item)); reflexivity.
      * destruct (Hal Es Ed) as [x Hx]. rewrite Hx. cbn.
        destruct (String.eqb (EndDateTime item) ""); cbn.
        -- destruct (String.eqb (EndDate item) ""); cbn; [reflexivity|].
           destruct (main.parse env DateOnly (EndDate item)); reflexivity.
        -- destruct (main.parse env RFC3339 (EndDateTime item)); reflexivity.
    + destruct (main.parse env RFC3339 (StartDateTime item)); cbn;
        (destruct (String.eqb (EndDateTime item) ""); cbn;
         [destruct (String.eqb (EndDate item) ""); cbn; [reflexivity|];
          destruct (main.parse env DateOnly (EndDate item)); reflexivity
         |destruct (main.parse env RFC3339 (EndDateTime item)); reflexivity]).
  - intro Hst. unfold google.itemEvent, main.fetchedEvent. rewrite Hst. cbn. split.
    + destruct (String.eqb (StartDateTime item) ""); cbn;
        [destruct (String.eqb (StartDate item) ""); cbn;
         [|destruct (main.parse env DateOnly (StartDate item)); cbn]
        |destruct (main.parse env RFC3339 (StartDateTime item)); cbn];
        (destruct (String.eqb (EndDateTime item) ""); cbn;
         [destruct (String.eqb (EndDate item) ""); cbn; [reflexivity|];
          destruct (main.parse env DateOnly (EndDate item)); reflexivity
         |destruct (main.parse env RFC3339 (EndDateTime item)); reflexivity]).
    + destruct (String.eqb (StartDateTime item) ""); cbn;
        [destruct (String.eqb (StartDate item) ""); cbn|];
        (destruct (String.eqb (EndDateTime item) ""); cbn;
         [destruct (String.eqb (EndDate item) ""); reflexivity|reflexivity]).
  - intros Es Ed Hno. unfold google.itemEvent, main.fetchedEvent. rewrite Es.
    apply String.eqb_neq in Ed. rewrite Ed. cbn.
    destruct (main.parse env DateOnly (StartDate item)) as [x|err] eqn:Hp;
      [exfalso; now apply (Hno x)|].
    split.
    + destruct (String.eqb (EndDateTime item) ""); cbn;
        [destruct (String.eqb (EndDate item) ""); cbn;
         [|destruct (main.parse env DateOnly (EndDate item)); cbn]
        |destruct (main.parse env RFC3339 (EndDateTime item)); cbn];
        destruct (String.eqb (ItemStatus item) "confirmed"); try reflexivity;
        destruct (String.eqb (ItemStatus item) "tentative"); try reflexivity;
        destruct (String.eqb (ItemStatus item) "cancelled"); reflexivity.
    + destruct (String.eqb (EndDateTime item) ""); cbn;
        [destruct (String.eqb (EndDate item) ""); reflexivity|reflexivity].
Qed.

(** ** Package caldav *)

(** X14.  The calendars the CalDAV client lists: none before
    [Authenticate] succeeded; afterwards one per calendar the server
    reports, in its order and under its path, each under the client's
    account, visible, writable and of colour [#4285f4]; for a Google
    account a calendar without a name is called [Primary Calendar]. *)
Theorem caldav_calendar_list (a : Account.t) (c : caldav.Client) (l : list Calendar.t) :
  caldav.ListCalendars (caldav.NewClient a) = Err "not authenticated"
  /\ (caldav.ListCalendars c = Ok l ->
      exists srv home cals,
        caldav.caldavClient c = Some srv
        /\ caldav.FindCalendars srv home = Ok cals
        /\ map Calendar.ID l = map caldav.RemotePath cals
        /\ Forall (fun cal => Calendar.AccountID cal = Account.ID (caldav.account c)
                              /\ Calendar.Visible cal = true
                              /\ Calendar.ReadOnly cal = false
                              /\ Calendar.Color cal = "#4285f4"
                              /\ (Account.Type_ (caldav.account c) = AccountTypeGoogle ->
                                  Calendar.Name cal <> ""))
                  l).
Proof.
  split; [reflexivity|]. unfold caldav.ListCalendars.
  destruct (caldav.caldavClient c) as [srv|]; [|discriminate].
  destruct (String.eqb_spec (Account.Type_ (caldav.account c)) AccountTypeGoogle)
    as [Hg|Hg].
  - destruct (caldav.FindCalendars srv _) as [cals|err] eqn:Hf; [|discriminate].
    intro H. injection H as <-. exists srv, (Account.ServerURL (caldav.account c)), cals.
    split; [reflexivity|]. split; [exact Hf|]. rewrite map_map. cbn.
    split; [reflexivity|].
    apply Forall_forall. intros cal Hin. apply in_map_iff in Hin.
    destruct Hin as [r [<- _]]. cbn. repeat split.
    intros _. destruct (String.eqb_spec (caldav.RemoteName r) ""); [discriminate|assumption].
  - destruct (caldav.FindCalendarHomeSet srv) as [home|err]; [|discriminate].
    destruct (caldav.FindCalendars srv home) as [cals|err] eqn:Hf; [|discriminate].
    intro H. injection H as <-. exists srv, home, cals.
    split; [reflexivity|]. split; [exact Hf|]. rewrite map_map. cbn.
    split; [reflexivity|].
    apply Forall_forall. intros cal Hin. apply in_map_iff in Hin.
    destruct Hin as [r [<- _]]. cbn. repeat split. intro. contradiction.
Qed.

Lemma parseObjects_spec (k : ical.Codec) (calendarID : string)
      (objects : list caldav.CalendarObject) (e : Event.t) :
  In e (caldav.parseObjects k calendarID objects)
  <-> exists obj, In obj objects /\ caldav.parseICalEvent k obj calendarID = Ok e.
Proof.
  induction objects as [|obj rest IH]; cbn.
  - split; [contradiction|]. intros [obj [[] _]].
  - destruct (caldav.parseICalEvent k obj calendarID) as [e0|err] eqn:Hp.
    + cbn. rewrite IH. split.
      * intros [<-|[o [Ho Hpo]]]; [exists obj; auto|exists o; auto].
      * intros [o [[<-|Ho] Hpo]]; [left; congruence|right; exists o; auto].
    + rewrite IH. split.
      * intros [o [Ho Hpo]]. exists o; auto.
      * intros [o [[<-|Ho] Hpo]]; [congruence|exists o; auto].
Qed.

Lemma parseObjects_length (k : ical.Codec) (calendarID : string)
      (objects : list caldav.CalendarObject) :
  List.length (caldav.parseObjects k calendarID objects)
  = List.length (filter hasVEvent objects).
Proof.
  induction objects as [|obj rest IH]; cbn; [reflexivity|].
  unfold caldav.parseICalEvent, hasVEvent at 1.
  destruct (caldav.Data obj) as [data|]; [|exact IH].
  assert (forall children,
             match caldav.firstEvent k (caldav.ETag obj) calendarID children with
             | Ok _ => true | Err _ => false
             end
             = existsb (fun c => String.eqb (ical.CompName c) ical.CompEvent) children)
    as Hfirst.
  { induction children as [|c cs IHc]; cbn; [reflexivity|].
    destruct (String.eqb (ical.CompName c) ical.CompEvent); cbn; [reflexivity|exact IHc]. }
  specialize (Hfirst (ical.Children data)).
  destruct (caldav.firstEvent k (caldav.ETag obj) calendarID (ical.Children data));
    rewrite <- Hfirst; cbn; [now rewrite IH|exact IH].
Qed.

Lemma getUID_meta (props : ical.Props) (e : Event.t) :
  meta (caldav.getUID props e)
  = (propValue props ical.PropUID (Event.ID e),
     propValue props ical.PropUID (Event.UID e),
     Event.CalendarID e, Event.ETag e, Event.Status e, Event.Cancelled e,
     Event.Created e, Event.Modified e, Event.Color e, Event.Recurrence e,
     Event.Reminders e).
Proof.
  unfold caldav.getUID, propValue. destruct (ical.Get props ical.PropUID); reflexivity.
Qed.

Lemma getSummary_meta (props : ical.Props) (e : Event.t) :
  meta (caldav.getSummary props e) = meta e.
Proof.
  unfold caldav.getSummary. destruct (ical.Get props ical.PropSummary); reflexivity.
Qed.

Lemma getDescription_meta (props : ical.Props) (e : Event.t) :
  meta (caldav.getDescription props e) = meta e.
Proof.
  unfold caldav.getDescription.
  destruct (ical.Get props ical.PropDescription); reflexivity.
Qed.

Lemma getLocation_meta (props : ical.Props) (e : Event.t) :
  meta (caldav.getLocation props e) = meta e.
Proof.
  unfold caldav.getLocation. destruct (ical.Get props ical.PropLocation); reflexivity.
Qed.

Lemma getStart_meta (k : ical.Codec) (props : ical.Props) (e : Event.t) :
  meta (caldav.getStart k props e) = meta e.
Proof.
  unfold caldav.getStart.
  destruct (ical.Get props ical.PropDateTimeStart) as [prop|]; [|reflexivity].
  destruct (ical.DateTime k prop);
    destruct (String.eqb (ical.ParamsGet (ical.Parameters prop) "VALUE") "DATE");
    reflexivity.
Qed.

Lemma getEnd_meta (k : ical.Codec) (props : ical.Props) (e : Event.t) :
  meta (caldav.getEnd k props e) = meta e.
Proof.
  unfold caldav.getEnd.
  destruct (ical.Get props ical.PropDateTimeEnd) as [prop|]; [|reflexivity].
  destruct (ical.DateTime k prop); reflexivity.
Qed.

Lemma getCreated_meta (k : ical.Codec) (props : ical.Props) (e : Event.t) :
  meta (caldav.getCreated k props e)
  = (Event.ID e, Event.UID e, Event.CalendarID e, Event.ETag e, Event.Status e,
     Event.Cancelled e, propTime k props ical.PropCreated (Event.Created e),
     Event.Modified e, Event.Color e, Event.Recurrence e, Event.Reminders e).
Proof.
  unfold caldav.getCreated, propTime.
  destruct (ical.Get props ical.PropCreated) as [prop|]; [|reflexivity].
  destruct (ical.DateTime k prop); reflexivity.
Qed.

Lemma getModified_meta (k : ical.Codec) (props : ical.Props) (e : Event.t) :
  meta (caldav.getModified k props e)
  = (Event.ID e, Event.UID e, Event.CalendarID e, Event.ETag e, Event.Status e,
     Event.Cancelled e, Event.Created e,
     propTime k props ical.PropLastModified (Event.Modified e),
     Event.Color e, Event.Recurrence e, Event.Reminders e).
Proof.
  unfold caldav.getModified, propTime.
  destruct (ical.Get props ical.PropLastModified) as [prop|]; [|reflexivity].
  destruct (ical.DateTime k prop); reflexivity.
Qed.

Lemma getStatus_meta (props : ical.Props) (e : Event.t) :
  meta (caldav.getStatus props e)
  = (Event.ID e, Event.UID e, Event.CalendarID e, Event.ETag e,
     fst (propStatus props (Event.Status e, Event.Cancelled e)),
     snd (propStatus props (Event.Status e, Event.Cancelled e)),
     Event.Created e, Event.Modified e, Event.Color e, Event.Recurrence e,
     Event.Reminders e).
Proof.
  unfold caldav.getStatus, propStatus.
  destruct (ical.Get props ical.PropStatus) as [prop|]; [|reflexivity].
  destruct (String.eqb (ical.Value prop) "CONFIRMED"); [reflexivity|].
  destruct (String.eqb (ical.Value prop) "TENTATIVE"); [reflexivity|].
  destruct (String.eqb (ical.Value prop) "CANCELLED"); reflexivity.
Qed.

(** What the decoder makes of a VEVENT, beside the view: the identifier
    and the UID are the raw UID, the calendar and the entity tag are those
    of the call, the status comes from STATUS, the two times from CREATED
    and LAST-MODIFIED; colour, recurrence and reminders stay empty. *)
Lemma parseComponent_meta (k : ical.Codec) (etag calendarID : string)
      (component : ical.Component) :
  let props := ical.CompProps component in
  meta (caldav.parseComponent k etag calendarID component)
  = (propValue props ical.PropUID "", propValue props ical.PropUID "",
     calendarID, etag,
     fst (propStatus props (StatusConfirmed, false)),
     snd (propStatus props (StatusConfirmed, false)),
     propTime k props ical.PropCreated GoTime.zero,
     propTime k props ical.PropLastModified GoTime.zero,
     "", None, []).
Proof.
  intro props. unfold caldav.parseComponent. fold props.
  set (e0 := Event.mk "" calendarID "" "" "" "" GoTime.zero GoTime.zero
                      false "" None [] GoTime.zero GoTime.zero etag
                      StatusConfirmed false).
  set (e1 := caldav.getUID props e0).
  set (e2 := caldav.getSummary props e1).
  set (e3 := caldav.getDescription props e2).
  set (e4 := caldav.getLocation props e3).
  set (e5 := caldav.getStart k props e4).
  set (e6 := caldav.getEnd k props e5).
  set (e7 := caldav.getCreated k props e6).
  set (e8 := caldav.getModified k props e7).
  assert (meta e6 = meta e1) as H6.
  { unfold e6. rewrite getEnd_meta. unfold e5. rewrite getStart_meta.
    unfold e4. rewrite getLocation_meta. unfold e3. rewrite getDescription_meta.
    unfold e2. now rewrite getSummary_meta. }
  pose proof (getUID_meta props e0) as H1. fold e1 in H1. rewrite H1 in H6.
  pose proof (getCreated_meta k props e6) as H7. fold e7 in H7.
  pose proof (getModified_meta k props e7) as H8. fold e8 in H8.
  rewrite getStatus_meta.
  unfold meta in H6, H7, H8.
  injection H8 as -> -> -> -> -> -> -> -> -> -> ->.
  injection H7 as -> -> -> -> -> -> -> -> -> -> ->.
  injection H6 as -> -> -> -> -> -> -> -> -> -> ->.
  reflexivity.
Qed.

Lemma firstEvent_CalendarID (k : ical.Codec) (etag calendarID : string)
      (children : list ical.Component) (e : Event.t) :
  caldav.firstEvent k etag calendarID children = Ok e -> Event.CalendarID e = calendarID.
Proof.
  induction children as [|c cs IH]; cbn; [discriminate|].
  destruct (String.eqb (ical.CompName c) ical.CompEvent); cbn; [|exact IH].
  intro H. injection H as <-.
  pose proof (parseComponent_meta k etag calendarID c) as Hm.
  unfold meta in Hm. cbv zeta in Hm. now injection Hm.
Qed.

(** X15.  [GetEvents] of the CalDAV client: without authentication it is
    an error; when the server answers the query, the call succeeds
    whatever the objects are, an object without data or without a VEVENT
    is left out and costs no other object its event, and every event
    returned belongs to the calendar that was asked for. *)
Theorem caldav_GetEvents_skips_bad_objects
        (k : ical.Codec) (a : Account.t) (srv : caldav.Server)
        (calendarID : string) (start end_ : Time)
        (objects : list caldav.CalendarObject) :
  caldav.GetEvents k (caldav.NewClient a) calendarID start end_
  = Err "not authenticated"
  /\ (caldav.QueryCalendar srv calendarID start end_ = Ok objects ->
      exists events_,
        caldav.GetEvents k (caldav.mkClient a (Some srv)) calendarID start end_
        = Ok events_
        /\ (forall e, In e events_
                      <-> exists obj, In obj objects
                                      /\ caldav.parseICalEvent k obj calendarID = Ok e)
        /\ List.length events_ = List.length (filter hasVEvent objects)
        /\ Forall (fun e => Event.CalendarID e = calendarID) events_).
Proof.
  split; [reflexivity|]. intro Hq. unfold caldav.GetEvents. cbn. rewrite Hq.
  eexists. split; [reflexivity|]. split; [|split].
  - intro e. apply parseObjects_spec.
  - apply parseObjects_length.
  - apply Forall_forall. intros e Hin. apply parseObjects_spec in Hin.
    destruct Hin as [obj [_ Hp]]. unfold caldav.parseICalEvent in Hp.
    destruct (caldav.Data obj); [|discriminate].
    eapply firstEvent_CalendarID; eauto.
Qed.

Lemma firstEvent_split (k : ical.Codec) (etag calendarID : string)
      (before after : list ical.Component) (v : ical.Component) :
  (forall c, In c before -> ical.CompName c <> ical.CompEvent) ->
  ical.CompName v = ical.CompEvent ->
  caldav.firstEvent k etag calendarID (before ++ v :: after)
  = Ok (caldav.parseComponent k etag calendarID v).
Proof.
  intros Hb Hv. induction before as [|c cs IH]; cbn.
  - rewrite Hv. now rewrite String.eqb_refl.
  - assert (ical.CompName c <> ical.CompEvent) as Hc by (apply Hb; now left).
    apply String.eqb_neq in Hc. rewrite Hc. cbn. apply IH.
    intros c' Hin. apply Hb. now right.
Qed.

Lemma firstEvent_none (k : ical.Codec) (etag calendarID : string)
      (children : list ical.Component) :
  (forall c, In c children -> ical.CompName c <> ical.CompEvent) ->
  caldav.firstEvent k etag calendarID children = Err "no VEVENT found".
Proof.
  intro Hb. induction children as [|c cs IH]; cbn; [reflexivity|].
  assert (ical.CompName c <> ical.CompEvent) as Hc by (apply Hb; now left).
  apply String.eqb_neq in Hc. rewrite Hc. cbn. apply IH.
  intros c' Hin. apply Hb. now right.
Qed.

Lemma propStatus_cases (props : ical.Props) :
  let value := propValue props ical.PropStatus "" in
  propStatus props (StatusConfirmed, false)
  = if String.eqb value "TENTATIVE" then (StatusTentative, false)
    else if String.eqb value "CANCELLED" then (StatusCancelled, true)
    else (StatusConfirmed, false).
Proof.
  unfold propStatus, propValue.
  destruct (ical.Get props ical.PropStatus) as [prop|]; [|reflexivity]. cbn.
  destruct (String.eqb_spec (ical.Value prop) "CONFIRMED") as [->|_]; [reflexivity|].
  destruct (String.eqb (ical.Value prop) "TENTATIVE"); [reflexivity|].
  destruct (String.eqb (ical.Value prop) "CANCELLED"); reflexivity.
Qed.

(** X16.  What [parseICalEvent] makes of an object: an error for an
    object without data and for one without a VEVENT; otherwise the event
    of the first VEVENT, whatever follows it.  That event has the raw UID
    as its identifier, the calendar and the entity tag of the call, one of
    the three statuses (confirmed unless STATUS says TENTATIVE or
    CANCELLED), and is cancelled exactly when STATUS is CANCELLED. *)
Theorem parseICalEvent_first_VEVENT
        (k : ical.Codec) (obj : caldav.CalendarObject) (calendarID : string) :
  (caldav.Data obj = None ->
   caldav.parseICalEvent k obj calendarID = Err "no data in calendar object")
  /\ (forall data,
        caldav.Data obj = Some data ->
        (forall c, In c (ical.Children data) -> ical.CompName c <> ical.CompEvent) ->
        caldav.parseICalEvent k obj calendarID = Err "no VEVENT found")
  /\ (forall data before v after,
        caldav.Data obj = Some data ->
        ical.Children data = (before ++ v :: after)%list ->
        (forall c, In c before -> ical.CompName c <> ical.CompEvent) ->
        ical.CompName v = ical.CompEvent ->
        let status := propValue (ical.CompProps v) ical.PropStatus "" in
        exists e,
          caldav.parseICalEvent k obj calendarID = Ok e
          /\ e = caldav.parseComponent k (caldav.ETag obj) calendarID v
          /\ Event.ID e = propValue (ical.CompProps v) ical.PropUID ""
          /\ Event.UID e = Event.ID e
          /\ Event.CalendarID e = calendarID
          /\ Event.ETag e = caldav.ETag obj
          /\ Event.Status e
             = (if String.eqb status "TENTATIVE" then StatusTentative
                else if String.eqb status "CANCELLED" then StatusCancelled
                else StatusConfirmed)
          /\ (Event.Cancelled e = true <-> status = "CANCELLED")).
Proof.
  split; [|split].
  - intro Hd. unfold caldav.parseICalEvent. now rewrite Hd.
  - intros data Hd Hno. unfold caldav.parseICalEvent. rewrite Hd.
    now apply firstEvent_none.
  - intros data before v after Hd Hch Hb Hv status.
    unfold caldav.parseICalEvent. rewrite Hd, Hch.
    rewrite (firstEvent_split k _ _ before after v Hb Hv).
    eexists. split; [reflexivity|]. split; [reflexivity|].
    pose proof (parseComponent_meta k (caldav.ETag obj) calendarID v) as Hm.
    cbv zeta in Hm. rewrite propStatus_cases in Hm. fold status in Hm.
    unfold meta in Hm.
    injection Hm as Hid Huid Hcal Hetag Hst Hcn _ _ _ _ _.
    rewrite Hid, Huid, Hcal, Hetag, Hst, Hcn.
    do 4 (split; [reflexivity|]).
    destruct (String.eqb_spec status "TENTATIVE") as [E|E]; cbn.
    + split; [reflexivity|]. split; [discriminate|]. rewrite E. discriminate.
    + destruct (String.eqb_spec status "CANCELLED") as [E'|E']; cbn.
      * split; [reflexivity|]. split; auto.
      * split; [reflexivity|]. split; [discriminate|]. intro. contradiction.
Qed.

(** The properties the encoder leaves in its VEVENT, beside those of the
    view. *)
Lemma eventToICal_meta_props (k : ical.Codec) (now : Time) (e : Event.t) :
  exists props,
    ical.Children (caldav.eventToICal k now e)
    = [ical.mkComponent ical.CompEvent props]
    /\ ical.Get props ical.PropUID
       = Some (ical.SetText k (ical.NewProp ical.PropUID) (Event.UID e))
    /\ ical.Get props ical.PropStatus
       = (if String.eqb (Event.Status e) StatusConfirmed
          then Some (ical.SetText k (ical.NewProp ical.PropStatus) "CONFIRMED")
          else if String.eqb (Event.Status e) StatusTentative
          then Some (ical.SetText k (ical.NewProp ical.PropStatus) "TENTATIVE")
          else if String.eqb (Event.Status e) StatusCancelled
          then Some (ical.SetText k (ical.NewProp ical.PropStatus) "CANCELLED")
          else None)
    /\ ical.Get props ical.PropCreated = None
    /\ ical.Get props ical.PropLastModified = None.
Proof.
  unfold caldav.eventToICal. eexists. split; [reflexivity|].
  destruct (String.eqb (Event.Description e) ""),
           (String.eqb (Event.Location e) ""),
           (Event.AllDay e),
           (String.eqb (Event.Status e) StatusConfirmed),
           (String.eqb (Event.Status e) StatusTentative),
           (String.eqb (Event.Status e) StatusCancelled);
    repeat split.
Qed.

(** X17.  Encode, then decode: what comes back beside the view.  For a
    codec that stores the three STATUS words as they are, the event read
    back from an encoded event has the stored UID as identifier and UID,
    the calendar and the entity tag of the read, the status of the
    original if that is tentative or cancelled and confirmed otherwise,
    and is cancelled exactly when the original status is cancelled; the
    original identifier, cancelled flag, creation and modification times,
    colour, recurrence and reminders are not carried. *)
Theorem ical_roundtrip_identity_and_status
        (k : ical.Codec) (now : Time) (e : Event.t) (path etag calendarID : string) :
  keepsStatusWords k ->
  exists e',
    caldav.parseICalEvent k (caldav.stored path etag (caldav.eventToICal k now e))
                          calendarID = Ok e'
    /\ Event.ID e' = textValue k ical.PropUID (Event.UID e)
    /\ Event.UID e' = textValue k ical.PropUID (Event.UID e)
    /\ Event.CalendarID e' = calendarID
    /\ Event.ETag e' = etag
    /\ Event.Status e' = statusAfterRoundTrip (Event.Status e)
    /\ Event.Cancelled e' = String.eqb (Event.Status e) StatusCancelled
    /\ Event.Created e' = GoTime.zero /\ Event.Modified e' = GoTime.zero
    /\ Event.Color e' = "" /\ Event.Recurrence e' = None /\ Event.Reminders e' = [].
Proof.
  intro Hk.
  destruct (eventToICal_meta_props k now e) as [props [Hc [Hu [Hs [Hcr Hmo]]]]].
  unfold caldav.parseICalEvent, caldav.stored. cbn [caldav.Data caldav.ETag].
  rewrite Hc. cbn [caldav.firstEvent ical.CompName].
  change (negb (String.eqb ical.CompEvent ical.CompEvent)) with false. cbv iota.
  eexists. split; [reflexivity|].
  pose proof (parseComponent_meta k etag calendarID
                (ical.mkComponent ical.CompEvent props)) as Hm.
  cbv zeta in Hm. cbn [ical.CompProps] in Hm.
  unfold propValue, propTime, propStatus in Hm. rewrite Hu, Hs, Hcr, Hmo in Hm.
  unfold meta in Hm.
  injection Hm as -> -> -> -> Hst Hcn -> -> -> -> ->.
  rewrite Hst, Hcn. unfold textValue, statusAfterRoundTrip.
  assert (textValue k ical.PropStatus "CONFIRMED" = "CONFIRMED") as H1
      by (apply Hk; cbn; auto).
  assert (textValue k ical.PropStatus "TENTATIVE" = "TENTATIVE") as H2
      by (apply Hk; cbn; auto).
  assert (textValue k ical.PropStatus "CANCELLED" = "CANCELLED") as H3
      by (apply Hk; cbn; auto).
  unfold textValue in H1, H2, H3.
  destruct (String.eqb_spec (Event.Status e) StatusConfirmed) as [E1|E1].
  - rewrite E1, H1. cbn. repeat split.
  - destruct (String.eqb_spec (Event.Status e) StatusTentative) as [E2|E2].
    + rewrite H2, E2. cbn. repeat split.
    + destruct (String.eqb_spec (Event.Status e) StatusCancelled) as [E3|E3].
      * rewrite H3. cbn. repeat split.
      * cbn. repeat split.
Qed.

(** ** Package google: the callback server *)

Lemma google_wake_returned (w : google.Waiter) (done : bool) (r : string * option error) :
  google.returned w = Some r -> google.wake w done = w.
Proof. unfold google.wake. now intros ->. Qed.

Lemma google_deliver_returned (deadline : Duration) (w : google.Waiter)
      (req : Duration * Query) (r : string * option error) :
  google.returned w = Some r ->
  google.returned (google.deliver deadline w req) = Some r.
Proof.
  intro H. unfold google.deliver.
  rewrite (google_wake_returned w true r H).
  destruct (deadline <=? fst req); unfold google.wake; cbn; now rewrite H.
Qed.

Lemma google_deliveries_returned (deadline : Duration) (requests : list (Duration * Query))
      (w : google.Waiter) (r : string * option error) :
  google.returned w = Some r ->
  google.returned (fold_left (google.deliver deadline) requests w) = Some r.
Proof.
  revert w. induction requests as [|req rest IH]; intros w H; [exact H|].
  cbn. apply IH. now apply google_deliver_returned.
Qed.

(** X18.  [WaitForCode] on the callback server returns what the first
    callback brings, if it arrives before the context ends: its code; or,
    without a code, an error that carries the [error] parameter of the
    callback, or says that no authorization code was received.  Later
    callbacks change nothing.  With no callback in time it returns the
    error of the context. *)
Theorem google_callback_server_outcome
        (deadline t : Duration) (q : Query) (rest : list (Duration * Query)) :
  (t < deadline ->
   let outcome := google.returned (google.listen deadline ((t, q) :: rest)) in
   (QueryGet q "code" <> "" -> outcome = Some (QueryGet q "code", None))
   /\ (QueryGet q "code" = "" -> QueryGet q "error" <> "" ->
       outcome = Some ("", Some ("OAuth error: " ++ QueryGet q "error")))
   /\ (QueryGet q "code" = "" -> QueryGet q "error" = "" ->
       outcome = Some ("", Some "OAuth error: no authorization code received")))
  /\ ((forall req, In req rest -> deadline <= fst req) ->
      google.returned (google.listen deadline rest) = Some ("", Some google.ctxErr)).
Proof.
  split.
  - intros Ht outcome. subst outcome. unfold google.listen. cbn [fold_left].
    assert (forall r,
               google.returned
                 (google.deliver deadline
                    (google.mkWaiter google.NewOAuthCallbackServer None) (t, q)) = Some r ->
               google.returned
                 (google.wake
                    (fold_left (google.deliver deadline) rest
                       (google.deliver deadline
                          (google.mkWaiter google.NewOAuthCallbackServer None) (t, q)))
                    true) = Some r) as Hkeep.
    { intros r Hr.
      pose proof (google_deliveries_returned deadline rest _ r Hr) as Hf.
      now rewrite (google_wake_returned _ true r Hf). }
    unfold google.deliver in Hkeep |- *. cbn [fst snd] in Hkeep |- *.
    apply Z.leb_gt in Ht. rewrite Ht in Hkeep |- *.
    unfold google.handleCallback, google.wake at 2 in Hkeep.
    cbn [google.returned google.server google.codeChan google.errChan
         google.NewOAuthCallbackServer] in Hkeep.
    split; [|split].
    + intro Hc. apply Hkeep. apply String.eqb_neq in Hc. rewrite Hc. reflexivity.
    + intros Hc He. apply Hkeep. rewrite Hc. cbn.
      apply String.eqb_neq in He. rewrite He. reflexivity.
    + intros Hc He. apply Hkeep. rewrite Hc, He. reflexivity.
  - intro Hlate. unfold google.listen.
    assert (forall w, google.returned w = None ->
                      google.server w = google.NewOAuthCallbackServer ->
                      google.returned
                        (google.wake (fold_left (google.deliver deadline) rest w) true)
                      = Some ("", Some google.ctxErr)) as H.
    { induction rest as [|req rest' IH]; intros w Hr Hs.
      - cbn. unfold google.wake. rewrite Hr, Hs. reflexivity.
      - cbn [fold_left].
        assert (google.returned (google.deliver deadline w req)
                = Some ("", Some google.ctxErr)) as Hd.
        { unfold google.deliver.
          assert (deadline <= fst req) as Hle by (apply Hlate; now left).
          apply Z.leb_le in Hle. rewrite Hle.
          assert (google.wake w true
                  = google.mkWaiter google.NewOAuthCallbackServer
                      (Some ("", Some google.ctxErr))) as Hw.
          { unfold google.wake. rewrite Hr, Hs. reflexivity. }
          rewrite Hw. reflexivity. }
        pose proof (google_deliveries_returned deadline rest' _ _ Hd) as Hf.
        now rewrite (google_wake_returned _ true _ Hf). }
    now apply H.
Qed.

(** ** Runs of the sync: what every step keeps *)

Section Always.

Variable R : main.World -> main.World -> Prop.
Variable ok : main.Call -> bool.
Hypothesis R_refl : forall w, R w w.
Hypothesis R_trans : forall a b c, R a b -> R b c -> R a c.
Hypothesis R_Now : forall env, always R (main.Now env).
Hypothesis R_request : forall c, ok c = true -> always R (main.request c).
Hypothesis R_saveAccount : forall a, always R (main.saveAccount a).
Hypothesis R_saveCalendar : forall c, always R (main.saveCalendar c).
Hypothesis R_saveEvent : forall e, always R (main.saveEvent e).
Hypothesis ok_REST : forall c, isCalDAVQuery c = false -> ok c = true.

Lemma always_ret {A : Type} (a : A) : always R (main.ret a).
Proof. intro w. apply R_refl. Qed.

Lemma always_bind {A B : Type} (m : main.M A) (k : A -> main.M B) :
  always R m -> (forall a, always R (k a)) -> always R (main.bind m k).
Proof.
  intros Hm Hk w. unfold main.bind. specialize (Hm w).
  destruct (m w) as [a w1]. cbn in Hm. eapply R_trans; [exact Hm|apply Hk].
Qed.

Lemma always_forEach {A : Type} (xs : list A) (body : A -> main.M unit) :
  (forall x, always R (body x)) -> always R (main.forEach xs body).
Proof.
  intro Hb. induction xs as [|x xs IH]; cbn.
  - apply always_ret.
  - apply always_bind; [apply Hb|intros _; exact IH].
Qed.

Lemma refreshGoogleToken_always (env : main.Env) (account : Account.t) :
  always R (main.refreshGoogleToken env account).
Proof.
  unfold main.refreshGoogleToken.
  destruct (String.eqb (Account.RefreshToken account) ""); [apply always_ret|].
  cbv zeta. apply always_bind; [apply R_request, ok_REST; reflexivity|]. intros _.
  destruct (main.tokenEndpoint env (main.refreshForm env account))
    as [err|err|status [result|err]]; try apply always_ret.
  destruct (negb (String.eqb (main.ResultError result) "")); [apply always_ret|].
  apply always_bind; [apply R_Now|]. intro now.
  apply always_bind; [apply R_saveAccount|]. intro err. apply always_ret.
Qed.

Lemma saveFetched_always (env : main.Env) (cal : Calendar.t) (item : EventItem) :
  always R (main.saveFetched env cal item).
Proof.
  unfold main.saveFetched.
  destruct (String.eqb (ItemStatus item) "cancelled"); [apply always_ret|].
  apply always_bind; [apply R_saveEvent|]. intros _. apply always_ret.
Qed.

Lemma fetchGoogleEvents_always (env : main.Env) (account : Account.t)
      (cal : Calendar.t) :
  always R (main.fetchGoogleEvents env account cal).
Proof.
  unfold main.fetchGoogleEvents.
  apply always_bind; [apply R_Now|]. intro now1.
  apply always_bind; [apply R_Now|]. intro now2. cbv zeta.
  apply always_bind; [apply R_request, ok_REST; reflexivity|]. intros _.
  match goal with
  | |- context [main.eventsEndpoint ?e ?a ?b ?c ?d] =>
      destruct (main.eventsEndpoint e a b c d) as [resp|err]
  end; [|apply always_ret].
  destruct (negb (StatusCode resp =? 200)); [apply always_ret|].
  destruct (Body resp) as [items|err]; [|apply always_ret].
  apply always_forEach. intro item. apply saveFetched_always.
Qed.

Lemma syncGoogleCalendar_always (env : main.Env) (account : Account.t)
      (item : CalendarItem) :
  always R (main.syncGoogleCalendar env account item).
Proof.
  unfold main.syncGoogleCalendar. cbv zeta.
  apply always_bind; [apply R_saveCalendar|]. intros [err|];
    [apply always_ret|apply fetchGoogleEvents_always].
Qed.

Lemma listAndFetch_always (env : main.Env) (account : Account.t) :
  always R (main.listAndFetch env account).
Proof.
  unfold main.listAndFetch.
  apply always_bind; [apply R_request, ok_REST; reflexivity|]. intros _.
  destruct (main.calendarListEndpoint env (Account.AccessToken account))
    as [resp|err]; [|apply always_ret].
  destruct (negb (StatusCode resp =? 200)); [apply always_ret|].
  destruct (Body resp) as [items|err]; [|apply always_ret].
  apply always_bind;
    [apply always_forEach; intro item; apply syncGoogleCalendar_always|].
  intros _. apply always_bind; [apply R_Now|]. intro now. cbv zeta.
  apply always_bind; [apply R_saveAccount|]. intros _. apply always_ret.
Qed.

Lemma syncGoogleCalendarAPI_always (env : main.Env) (account : Account.t) :
  always R (main.syncGoogleCalendarAPI env account).
Proof.
  unfold main.syncGoogleCalendarAPI.
  apply always_bind; [apply R_Now|]. intro now.
  apply always_bind.
  - destruct (After now (Account.TokenExpiry account));
      [apply refreshGoogleToken_always|apply always_ret].
  - intros [account' [err|]]; [apply always_ret|apply listAndFetch_always].
Qed.

Lemma syncAllAccounts_always (env : main.Env) :
  always R (main.syncAllAccounts env).
Proof.
  intro w. unfold main.syncAllAccounts.
  destruct (GetAllAccounts (main.db w)) as [accounts_|err]; [|apply R_refl].
  apply always_forEach. intro account.
  destruct (String.eqb_spec (Account.Type_ account) AccountTypeGoogle) as [Hg|Hg];
    cbn; [|apply always_ret].
  destruct (negb (String.eqb (Account.AccessToken account) "")); [|apply always_ret].
  apply always_bind; [|intros _; apply always_ret].
  unfold main.syncCalDAVAccount. apply String.eqb_eq in Hg. rewrite Hg.
  apply syncGoogleCalendarAPI_always.
Qed.

Hypothesis ok_all : forall c, ok c = true.

Lemma saveInto_always (cal : Calendar.t) (event : Event.t) :
  always R (main.saveInto cal event).
Proof.
  unfold main.saveInto. cbv zeta.
  apply always_bind; [apply R_saveEvent|]. intros _. apply always_ret.
Qed.

Lemma fetchCalDAVEvents_always (env : main.Env) (client : caldav.Client)
      (cal : Calendar.t) :
  always R (main.fetchCalDAVEvents env client cal).
Proof.
  unfold main.fetchCalDAVEvents.
  apply always_bind; [apply R_Now|]. intro now1.
  apply always_bind; [apply R_Now|]. intro now2. cbv zeta.
  apply always_bind; [apply R_request, ok_all|]. intros _.
  match goal with
  | |- context [caldav.GetEvents ?k ?c ?i ?a ?b] =>
      destruct (caldav.GetEvents k c i a b) as [events_|err]
  end; [|apply always_ret].
  apply always_forEach. intro event. apply saveInto_always.
Qed.

Lemma syncCalDAVAccount_always (env : main.Env) (account : Account.t) :
  always R (main.syncCalDAVAccount env account).
Proof.
  unfold main.syncCalDAVAccount.
  destruct (String.eqb (Account.Type_ account) AccountTypeGoogle);
    [apply syncGoogleCalendarAPI_always|]. cbv zeta.
  destruct (caldav.Authenticate (main.caldavServer env account)
              (caldav.NewClient account)) as [client [err|]]; [apply always_ret|].
  destruct (caldav.ListCalendars client) as [cals|err]; [|apply always_ret].
  apply always_bind.
  - apply always_forEach. intro cal. cbv zeta.
    apply always_bind; [apply R_saveCalendar|]. intros [err|];
      [apply always_ret|apply fetchCalDAVEvents_always].
  - intros _. apply always_bind; [apply R_Now|]. intro now. cbv zeta.
    apply always_bind; [apply R_saveAccount|]. intros _. apply always_ret.
Qed.

End Always.

(** *** The database through a run *)

Lemma rowsKept_refl (s : Store) : rowsKept s s.
Proof. repeat split; apply incl_refl. Qed.

Lemma soundStep_refl (w : main.World) : soundStep w w.
Proof. split; [auto|apply rowsKept_refl]. Qed.

Lemma soundStep_trans (a b c : main.World) :
  soundStep a b -> soundStep b c -> soundStep a c.
Proof.
  intros [C1 [A1 [K1 E1]]] [C2 [A2 [K2 E2]]]. split; [auto|].
  repeat split; eapply incl_tran; eauto.
Qed.

Lemma upsert_keeps_keys {R : Type} (key : R -> string) (doUpdate : R -> R -> R)
      (x : R) (tbl : list R) :
  (forall old excluded, key old = key excluded -> doUpdate old excluded = excluded) ->
  incl (map key tbl) (map key (upsert key doUpdate x tbl)).
Proof.
  intros Hupd k Hin. apply (upsert_keys key doUpdate Hupd). now right.
Qed.

Lemma soundStep_write (op : Store -> Result Store) :
  (forall s s', op s = Ok s' ->
                (consistent s -> consistent s') /\ rowsKept s s') ->
  always soundStep (main.write op).
Proof.
  intros Hop w. unfold main.write.
  destruct (op (main.db w)) as [s'|err] eqn:E; cbn; [|apply soundStep_refl].
  exact (Hop _ _ E).
Qed.

Lemma soundStep_saveAccount (a : Account.t) : always soundStep (main.saveAccount a).
Proof.
  apply soundStep_write. intros s s' H. split.
  - intro Hs. eapply SaveAccount_consistent; eauto.
  - injection H as <-. repeat split; cbn; try apply incl_refl.
    apply upsert_keeps_keys, updateAccount_same_key.
Qed.

Lemma soundStep_saveCalendar (c : Calendar.t) : always soundStep (main.saveCalendar c).
Proof.
  apply soundStep_write. intros s s' H. split.
  - intro Hs. eapply SaveCalendar_consistent; eauto.
  - unfold SaveCalendar in H.
    destruct (accountExists s (Calendar.AccountID c)); [|discriminate].
    injection H as <-. repeat split; cbn; try apply incl_refl.
    apply upsert_keeps_keys, updateCalendar_same_key.
Qed.

Lemma soundStep_saveEvent (e : Event.t) : always soundStep (main.saveEvent e).
Proof.
  apply soundStep_write. intros s s' H. split.
  - intro Hs. eapply SaveEvent_consistent; eauto.
  - unfold SaveEvent in H.
    destruct (calendarExists s (Event.CalendarID e)); [|discriminate].
    injection H as <-. repeat split; cbn; try apply incl_refl.
    apply upsert_keeps_keys, updateEvent_same_key.
Qed.

Lemma soundStep_Now (env : main.Env) : always soundStep (main.Now env).
Proof. intro w. split; [auto|apply rowsKept_refl]. Qed.

Lemma soundStep_request (c : main.Call) : always soundStep (main.request c).
Proof. intro w. split; [auto|apply rowsKept_refl]. Qed.

(** X19.  A sync keeps the database sound and removes nothing: through
    the sync of an account of any type, and through the sync of all
    accounts at startup, a consistent database stays consistent and every
    account, calendar and event that was stored is still stored (an event
    the server no longer has, or reports as cancelled, stays as it
    was). *)
Theorem sync_keeps_rows (env : main.Env) (account : Account.t) (w : main.World) :
  soundStep w (snd (main.syncCalDAVAccount env account w))
  /\ soundStep w (snd (main.syncAllAccounts env w)).
Proof.
  split.
  - apply (syncCalDAVAccount_always soundStep (fun _ => true)
             soundStep_refl soundStep_trans soundStep_Now
             (fun c _ => soundStep_request c)
             soundStep_saveAccount soundStep_saveCalendar soundStep_saveEvent
             (fun _ _ => eq_refl) (fun _ => eq_refl)).
  - apply (syncAllAccounts_always soundStep (fun _ => true)
             soundStep_refl soundStep_trans soundStep_Now
             (fun c _ => soundStep_request c)
             soundStep_saveAccount soundStep_saveCalendar soundStep_saveEvent
             (fun _ _ => eq_refl)).
Qed.

(** *** The requests of a run *)

Lemma onlyCalls_refl (ok : main.Call -> bool) (w : main.World) : onlyCalls ok w w.
Proof. exists []. now rewrite app_nil_r. Qed.

Lemma onlyCalls_trans (ok : main.Call -> bool) (a b c : main.World) :
  onlyCalls ok a b -> onlyCalls ok b c -> onlyCalls ok a c.
Proof.
  intros [m1 [H1 P1]] [m2 [H2 P2]]. exists (m1 ++ m2)%list.
  rewrite H2, H1, app_assoc, forallb_app, P1, P2. auto.
Qed.

Lemma onlyCalls_write (ok : main.Call -> bool) (op : Store -> Result Store) :
  always (onlyCalls ok) (main.write op).
Proof.
  intro w. exists []. rewrite app_nil_r. split; [|reflexivity].
  apply write_calls.
Qed.

Lemma forEach_skip {A : Type} (xs : list A) (body : A -> main.M unit) (w : main.World) :
  (forall x, In x xs -> body x = main.ret tt) ->
  main.forEach xs body w = (tt, w).
Proof.
  induction xs as [|x xs IH]; intro H; [reflexivity|].
  cbn. unfold main.bind. rewrite (H x) by now left. cbn. apply IH.
  intros y Hy. apply H. now right.
Qed.

(** X20.  The sync at startup is for Google accounts that hold an access
    token, and goes through the Calendar API: whatever is stored, it
    sends no CalDAV query; and when no stored account is such an account,
    it sends nothing, reads no clock and leaves the database as it
    is. *)
Theorem startup_sync_is_google_only (env : main.Env) (w : main.World) :
  onlyCalls (fun c => negb (isCalDAVQuery c)) w (snd (main.syncAllAccounts env w))
  /\ ((forall r, In r (accounts (main.db w)) ->
                 syncedAtStartup (scanAccountRows r) = false) ->
      main.syncAllAccounts env w = (tt, w)).
Proof.
  split.
  - apply (syncAllAccounts_always (onlyCalls (fun c => negb (isCalDAVQuery c)))
             (fun c => negb (isCalDAVQuery c))
             (onlyCalls_refl _) (onlyCalls_trans _)).
    + intros env0 w0. exists []. now rewrite app_nil_r.
    + intros c Hc w0. exists [c]. cbn. now rewrite Hc.
    + intro a. apply onlyCalls_write.
    + intro c. apply onlyCalls_write.
    + intro e. apply onlyCalls_write.
    + intros c Hc. now rewrite Hc.
  - intro Hnone. unfold main.syncAllAccounts. cbn.
    apply forEach_skip. intros a Hin. apply in_map_iff in Hin.
    destruct Hin as [r [<- Hin]]. apply (proj1 (orderBy_In _ _ _)) in Hin.
    specialize (Hnone r Hin). unfold syncedAtStartup in Hnone. now rewrite Hnone.
Qed.

(** *** The calendars of a Google sync *)

Lemma find_upsert_other {R : Type} (key : R -> string) (doUpdate : R -> R -> R)
      (x : R) (tbl : list R) (k : string) :
  (forall old excluded, key old = key excluded -> doUpdate old excluded = excluded) ->
  k <> key x ->
  find (hasKey key k) (upsert key doUpdate x tbl) = find (hasKey key k) tbl.
Proof.
  intros Hupd Hk. induction tbl as [|r tbl IH]; cbn.
  - unfold hasKey. apply not_eq_sym, String.eqb_neq in Hk. now rewrite Hk.
  - destruct (String.eqb_spec (key r) (key x)) as [E|E]; cbn.
    + rewrite (Hupd _ _ E). unfold hasKey.
      assert (String.eqb (key x) k = false) as ->
          by (apply String.eqb_neq; congruence).
      assert (String.eqb (key r) k = false) as ->
          by (apply String.eqb_neq; congruence).
      reflexivity.
    + destruct (hasKey key k r); [reflexivity|exact IH].
Qed.

Lemma tables_always_fetch (env : main.Env) (account : Account.t) (cal : Calendar.t) :
  always (fun w w' => accounts (main.db w') = accounts (main.db w)
                      /\ calendars (main.db w') = calendars (main.db w))
         (main.fetchGoogleEvents env account cal).
Proof.
  apply (fetchGoogleEvents_always _ (fun _ => true)).
  - auto.
  - intros a b c [A1 C1] [A2 C2]. split; congruence.
  - intros env0 w. auto.
  - intros c _ w. auto.
  - intros e w. unfold main.saveEvent, main.write, SaveEvent.
    destruct (calendarExists (main.db w) (Event.CalendarID e)); cbn; auto.
  - auto.
Qed.

Lemma syncGoogleCalendar_shows (env : main.Env) (account : Account.t)
      (item : CalendarItem) (w : main.World) :
  accountExists (main.db w) (Account.ID account) = true ->
  let w' := snd (main.syncGoogleCalendar env account item w) in
  accounts (main.db w') = accounts (main.db w)
  /\ shownUnder (Account.ID account) (CalItemID item) (main.db w')
  /\ (forall id, shownUnder (Account.ID account) id (main.db w) ->
                 shownUnder (Account.ID account) id (main.db w')).
Proof.
  intros Hex w'. subst w'. unfold main.syncGoogleCalendar. cbv zeta.
  set (cal := if String.eqb _ "" then _ else _).
  assert (Calendar.ID cal = CalItemID item /\ Calendar.AccountID cal = Account.ID account
          /\ Calendar.Visible cal = true) as [Hid [Hacc Hvis]].
  { unfold cal. cbn. destruct (String.eqb (BackgroundColor item) ""); cbn; auto. }
  unfold main.bind, main.saveCalendar, main.write, SaveCalendar.
  rewrite Hacc, Hex.
  set (w1 := main.mkWorld _ _ _).
  destruct (tables_always_fetch env account cal w1) as [Ha Hc].
  destruct (main.fetchGoogleEvents env account cal w1) as [u w2]. cbn in Ha, Hc |- *.
  split; [exact Ha|]. split.
  - exists (calendarRow cal). rewrite Hc. split; [|split].
    + rewrite <- Hid. change (Calendar.ID cal) with (CalendarRow.id (calendarRow cal)).
      apply find_upsert, updateCalendar_same_key.
    + exact Hacc.
    + exact Hvis.
  - intros id [r [Hf [Hra Hrv]]]. unfold shownUnder. rewrite Hc.
    destruct (String.eqb_spec id (Calendar.ID cal)) as [E|E].
    + exists (calendarRow cal). split; [|split].
      * rewrite E. change (Calendar.ID cal) with (CalendarRow.id (calendarRow cal)).
        apply find_upsert, updateCalendar_same_key.
      * exact Hacc.
      * exact Hvis.
    + exists r. split; [|auto].
      rewrite find_upsert_other; [exact Hf|apply updateCalendar_same_key|exact E].
Qed.

Lemma forEach_syncGoogleCalendar_shows (env : main.Env) (account : Account.t)
      (items : list CalendarItem) (w : main.World) :
  accountExists (main.db w) (Account.ID account) = true ->
  let w' := snd (main.forEach items (main.syncGoogleCalendar env account) w) in
  accounts (main.db w') = accounts (main.db w)
  /\ (forall item, In item items ->
                   shownUnder (Account.ID account) (CalItemID item) (main.db w'))
  /\ (forall id, shownUnder (Account.ID account) id (main.db w) ->
                 shownUnder (Account.ID account) id (main.db w')).
Proof.
  revert w. induction items as [|item items IH]; intros w Hex; cbn.
  - split; [reflexivity|]. split; [contradiction|auto].
  - unfold main.bind.
    destruct (syncGoogleCalendar_shows env account item w Hex) as [Ha [Hs Hk]].
    destruct (main.syncGoogleCalendar env account item w) as [u w1]. cbn in Ha, Hs, Hk.
    assert (accountExists (main.db w1) (Account.ID account) = true) as Hex1
        by (unfold accountExists in *; now rewrite Ha).
    destruct (IH w1 Hex1) as [Ha' [Hs' Hk']]. cbn in Ha', Hs', Hk'.
    split; [congruence|]. split.
    + intros i [<-|Hin]; [apply Hk', Hs|now apply Hs'].
    + intros id Hid. apply Hk', Hk, Hid.
Qed.

(** X21.  After a sync of a Google account whose token has not expired
    and whose calendar list is answered, every calendar of the list is
    stored under the account and visible, whatever it was before: a
    calendar the user had hidden is shown again, and its colour is not
    empty. *)
Theorem google_sync_shows_listed_calendars
        (env : main.Env) (account : Account.t) (w : main.World)
        (resp : Response (list CalendarItem)) (items : list CalendarItem) :
  accountExists (main.db w) (Account.ID account) = true ->
  After (main.clock env (main.reads w)) (Account.TokenExpiry account) = false ->
  main.calendarListEndpoint env (Account.AccessToken account) = Ok resp ->
  StatusCode resp = 200 -> Body resp = Ok items ->
  forall item, In item items ->
    exists c,
      GetCalendar (main.db (snd (main.syncGoogleCalendarAPI env account w)))
                  (CalItemID item) = Ok c
      /\ Calendar.AccountID c = Account.ID account
      /\ Calendar.Visible c = true
      /\ Calendar.Color c <> "".
Proof.
  intros Hex Hfresh Hl Hs Hb item Hin.
  unfold main.syncGoogleCalendarAPI, main.bind, main.Now. cbn. rewrite Hfresh. cbn.
  unfold main.listAndFetch, main.bind, main.request. cbn. rewrite Hl, Hs, Hb. cbn.
  set (w0 := main.mkWorld _ _ _).
  assert (accountExists (main.db w0) (Account.ID account) = true) as Hex0 by exact Hex.
  destruct (forEach_syncGoogleCalendar_shows env account items w0 Hex0) as [_ [Hshow _]].
  destruct (main.forEach items (main.syncGoogleCalendar env account) w0) as [u w1].
  cbn in Hshow. destruct (Hshow item Hin) as [r [Hf [Hra Hrv]]].
  unfold main.Now, main.saveAccount, main.write, SaveAccount. cbn.
  unfold GetCalendar. cbn. rewrite Hf. eexists. split; [reflexivity|].
  split; [exact Hra|]. split; [exact Hrv|]. apply scanCalendar_color.
Qed.

(** *** The sync of a CalDAV account *)

Lemma reads_write (op : Store -> Result Store) :
  always (fun a b => (main.reads a <= main.reads b)%nat) (main.write op).
Proof. intro w. pose proof (write_calls op w) as [_ H]. rewrite H. lia. Qed.

Lemma caldav_loop_reads (env : main.Env) (account : Account.t) (client : caldav.Client)
      (cals : list Calendar.t) (w : main.World) :
  (main.reads w
   <= main.reads
        (snd (main.forEach cals
                (fun cal =>
                   main.bind
                     (main.saveCalendar (Calendar.set_AccountID cal (Account.ID account)))
                     (fun err =>
                        match err with
                        | Some _ => main.ret tt
                        | None =>
                            main.fetchCalDAVEvents env client
                              (Calendar.set_AccountID cal (Account.ID account))
                        end)) w)))%nat.
Proof.
  set (R := fun a b => (main.reads a <= main.reads b)%nat).
  assert (forall x, R x x) as Hrefl by (intro; unfold R; lia).
  assert (forall a b c, R a b -> R b c -> R a c) as Htrans by (unfold R; intros; lia).
  revert w. apply (always_forEach R Hrefl Htrans). intro cal.
  apply (always_bind R Htrans); [apply reads_write|].
  intros [err|]; [intro w; apply Hrefl|].
  apply (fetchCalDAVEvents_always R (fun _ => true) Hrefl Htrans).
  - intros env0 w. unfold R. cbn. lia.
  - intros c _ w. unfold R. cbn. lia.
  - intro e. apply reads_write.
  - auto.
Qed.


(** *** The Google sign-in *)

(** X23.  The code exchange fails exactly when the POST fails or the
    answer carries an [error] field; in every other case it succeeds,
    with the access and refresh tokens as the answer gave them (empty if
    it gave none, as for a body that is not JSON) and with an email that
    is never empty: the one userinfo gave, or [Google Account]. *)
Theorem code_exchange_outcome (env : main.Env) (peers : main.OAuthPeers)
        (code redirectURI : string) :
  match main.exchangeEndpoint peers (main.exchangeForm env code redirectURI) with
  | main.ExchangePostFailed err =>
      main.exchangeGoogleCode env peers code redirectURI = Err err
  | main.ExchangeReplied result =>
      (main.ExError result <> "" ->
       main.exchangeGoogleCode env peers code redirectURI
       = Err (main.ExError result ++ ": " ++ main.ExErrorDesc result))
      /\ (main.ExError result = "" ->
          exists email,
            main.exchangeGoogleCode env peers code redirectURI
            = Ok (main.ExAccessToken result, main.ExRefreshToken result, email)
            /\ email <> ""
            /\ (email = "Google Account"
                \/ main.userinfoEndpoint peers (main.ExAccessToken result)
                   = Some email))
  end.
Proof.
  unfold main.exchangeGoogleCode.
  destruct (main.exchangeEndpoint peers _) as [err|result]; [reflexivity|].
  split.
  - intro He. apply String.eqb_neq in He. now rewrite He.
  - intro He. rewrite He. cbn. eexists. split; [reflexivity|].
    unfold main.getUserEmail.
    destruct (main.userinfoEndpoint peers _) as [email|]; [|split; [discriminate|auto]].
    destruct (String.eqb_spec email ""); cbn; [split; [discriminate|auto]|auto].
Qed.

Lemma listAndFetch_account (env : main.Env) (account : Account.t) (w : main.World) :
  exists x, fst (main.listAndFetch env account w) = x
            /\ (x = account \/ exists now, x = Account.set_LastSync account now).
Proof.
  eexists. split; [reflexivity|].
  unfold main.listAndFetch, main.bind, main.request. cbn.
  destruct (main.calendarListEndpoint env (Account.AccessToken account)) as [resp|err];
    [|now left].
  destruct (negb (StatusCode resp =? 200)); [now left|].
  destruct (Body resp) as [items|err]; [|now left].
  destruct (main.forEach items _ _) as [u w1]. cbn. right. eexists. reflexivity.
Qed.

(** X24.  The account the sign-in creates, and its first sync: when the
    code exchange succeeds, the account is a Google account named after
    the email, holds the two tokens as given and expires one hour after
    the second clock reading; its first sync, started before that hour
    is over, makes the calendar-list request with the new access token
    first and makes no request to the token endpoint. *)
Theorem signin_account_syncs_without_refresh
        (env : main.Env) (peers : main.OAuthPeers) (code : string) (w : main.World)
        (accessToken refreshToken email : string) :
  main.exchangeGoogleCode env peers code main.redirectURI
  = Ok (accessToken, refreshToken, email) ->
  After (main.clock env (S (S (main.reads w))))
        (Add (main.clock env (S (main.reads w))) Hour) = false ->
  exists account w' more,
    main.gotCode env peers code w = ((None, Some account), w')
    /\ Account.ID account = "acc-" ++ main.decimal (UnixNano (main.clock env (main.reads w)))
    /\ Account.Name account = "Google - " ++ email
    /\ Account.Type_ account = AccountTypeGoogle
    /\ Account.AccessToken account = accessToken
    /\ Account.RefreshToken account = refreshToken
    /\ Account.TokenExpiry account = Add (main.clock env (S (main.reads w))) Hour
    /\ main.calls w'
       = (main.calls w ++ main.CalendarListGet accessToken :: more)%list
    /\ tokenPosts more = 0%nat.
Proof.
  intros Hx Hfresh. unfold main.gotCode. rewrite Hx. cbv zeta.
  unfold main.bind at 1. unfold main.Now at 1. cbv beta iota.
  unfold main.bind at 1. unfold main.Now at 1. cbv beta iota.
  cbn [main.reads main.db main.calls].
  set (account := Account.mk _ _ _ _ _ _ _ _ _ _ _ _).
  unfold main.bind at 1. unfold main.saveAccount, main.write, SaveAccount.
  cbv beta iota. cbn [main.reads main.db main.calls].
  set (w2 := main.mkWorld _ _ _).
  unfold main.bind, main.syncCalDAVAccount.
  change (String.eqb (Account.Type_ account) AccountTypeGoogle) with true. cbv iota.
  unfold main.syncGoogleCalendarAPI, main.bind, main.Now.
  cbn [main.reads main.db main.calls w2 Account.TokenExpiry account].
  rewrite Hfresh. cbn [main.ret].
  set (w3 := main.mkWorld _ _ _).
  destruct (listAndFetch_calls env account w3) as [more [Hc Hp]].
  destruct (listAndFetch_account env account w3) as [x [Hfst Hor]].
  destruct (main.listAndFetch env account w3) as [acc' w'] eqn:El.
  cbn in Hc, Hfst. subst x.
  exists acc', w', more. split; [reflexivity|].
  assert (Account.ID acc' = Account.ID account /\ Account.Name acc' = Account.Name account
          /\ Account.Type_ acc' = Account.Type_ account
          /\ Account.AccessToken acc' = Account.AccessToken account
          /\ Account.RefreshToken acc' = Account.RefreshToken account
          /\ Account.TokenExpiry acc' = Account.TokenExpiry account)
    as [H1 [H2 [H3 [H4 [H5 H6]]]]].
  { destruct Hor as [->|[now ->]]; repeat split. }
  rewrite H1, H2, H3, H4, H5, H6. repeat split. exact Hc. exact Hp.
Qed.

(** *** The first-run bootstrap, again *)

(** X25.  After [ensureDefaultCalendar] the store holds a calendar, and
    running it again changes nothing. *)
Theorem bootstrap_is_idempotent (env : main.Env) (w : main.World) :
  let w1 := snd (main.ensureDefaultCalendar env w) in
  calendars (main.db w1) <> []
  /\ main.ensureDefaultCalendar env w1 = (tt, w1).
Proof.
  intro w1.
  assert (calendars (main.db w1) <> []) as Hne.
  { subst w1. unfold main.ensureDefaultCalendar.
    destruct (GetAllCalendars_length (main.db w)) as [l [Hl Hlen]]. rewrite Hl.
    destruct l as [|c l]; cbn [List.length Nat.eqb].
    - unfold main.bind, main.Now, main.saveAccount, main.saveCalendar, main.write,
        SaveAccount. cbv beta iota. cbn [main.db main.reads main.calls].
      match goal with
      | |- context [SaveCalendar ?s ?c] =>
          assert (accountExists s (Calendar.AccountID c) = true) as Hex
      end.
      { apply accountExists_In. cbn [accounts Calendar.AccountID].
        apply (upsert_keys _ _ updateAccount_same_key). now left. }
      unfold SaveCalendar. rewrite Hex. cbn [snd main.db calendars].
      destruct (calendars (main.db w)); cbn; discriminate.
    - cbn. destruct (calendars (main.db w)); [discriminate|discriminate]. }
  split; [exact Hne|].
  unfold main.ensureDefaultCalendar.
  destruct (GetAllCalendars_length (main.db w1)) as [l [Hl Hlen]]. rewrite Hl.
  destruct (calendars (main.db w1)) as [|c cs]; [contradiction|].
  destruct l; [discriminate|]. reflexivity.
Qed.

(** *** Labels *)

Lemma length_append (a b : string) :
  String.length (a ++ b) = (String.length a + String.length b)%nat.
Proof. induction a as [|c a IH]; cbn; [reflexivity|now rewrite IH]. Qed.

Lemma length_substring0 (n : nat) (s : string) :
  (n <= String.length s)%nat -> String.length (substring 0 n s) = n.
Proof.
  revert s. induction n as [|n IH]; intros s H.
  - now destruct s.
  - destruct s as [|c s]; cbn in *; [lia|]. rewrite IH; [reflexivity|lia].
Qed.

Lemma prefix_substring0 (n : nat) (s : string) :
  prefix (substring 0 n s) s = true.
Proof.
  revert s. induction n as [|n IH]; intros s.
  - now destruct s.
  - destruct s as [|c s]; cbn; [reflexivity|].
    destruct (Ascii.ascii_dec c c); [apply IH|contradiction].
Qed.

(** X26.  [truncate]: a string of at most [maxLen] bytes is returned as
    it is; a longer one is cut to its first [maxLen - 1] bytes, wherever
    that falls, and the ellipsis literal is appended, which makes the
    result longer than [maxLen] bytes; for [maxLen] below 1 and a longer
    string the slice is out of range and the call panics. *)
Theorem truncate_spec (s : string) (maxLen : Z) :
  (Z.of_nat (String.length s) <= maxLen -> main.truncate s maxLen = Some s)
  /\ (maxLen < Z.of_nat (String.length s) -> 1 <= maxLen ->
      exists head,
        main.truncate s maxLen = Some (head ++ main.ellipsis)
        /\ prefix head s = true
        /\ Z.of_nat (String.length head) = maxLen - 1
        /\ maxLen < Z.of_nat (String.length (head ++ main.ellipsis)))
  /\ (maxLen < Z.of_nat (String.length s) -> maxLen < 1 ->
      main.truncate s maxLen = None).
Proof.
  unfold main.truncate. split; [|split].
  - intro H. apply Z.leb_le in H. now rewrite H.
  - intros H1 H2. apply Z.leb_gt in H1 as H1'. rewrite H1'.
    assert ((maxLen - 1 <? 0) = false) as -> by (apply Z.ltb_ge; lia).
    eexists. split; [reflexivity|]. split; [apply prefix_substring0|].
    assert (String.length (substring 0 (Z.to_nat (maxLen - 1)) s)
            = Z.to_nat (maxLen - 1)) as Hl by (apply length_substring0; lia).
    split; [rewrite Hl; lia|].
    rewrite length_append, Hl.
    change (String.length main.ellipsis) with 7%nat. lia.
  - intros H1 H2. apply Z.leb_gt in H1. rewrite H1.
    now assert ((maxLen - 1 <? 0) = true) as -> by (apply Z.ltb_lt; lia).
Qed.

(** ** Civil dates: [time.Date] and the date of an instant *)

Lemma civilInMonth_one_era :
  checkDays civilInMonth (Z.to_nat 146097) (- 719468) = true.
Proof. vm_compute. reflexivity. Qed.

Lemma monthLength_shift (y m k : Z) : monthLength (y + 400 * k) m = monthLength y m.
Proof. unfold monthLength. now rewrite isLeap_shift. Qed.

Lemma civil_validDate (n y m d : Z) :
  civil n = (y, m, d) -> validDate y m d /\ daysOf y m d = n.
Proof.
  intro Hc. destruct (civil_daysOf n y m d Hc) as [Hn [Hm Hd]].
  split; [|exact Hn]. split; [exact Hm|]. split; [lia|].
  destruct (era_split n) as [doe [k [Hdoe Hk]]].
  rewrite Hk, civil_shift in Hc.
  destruct (civil (doe - 719468)) as [[y0 m0] d0] eqn:E.
  assert (civilInMonth (doe - 719468) = true) as Hera.
  { apply (checkDays_spec civilInMonth (Z.to_nat 146097) (- 719468)).
    - exact civilInMonth_one_era.
    - rewrite Z2Nat.id; lia. }
  unfold civilInMonth in Hera. rewrite E in Hera. apply Z.leb_le in Hera.
  assert (y = y0 + 400 * k /\ m = m0 /\ d = d0) as [-> [-> ->]]
      by (repeat split; congruence).
  now rewrite monthLength_shift.
Qed.

Lemma year_start_mono (y y' : Z) :
  y < y' -> daysSinceEpoch (y + 1) <= daysSinceEpoch y'.
Proof.
  intro H. unfold daysSinceEpoch. replace (y + 1 - 1) with y by ring.
  Z.to_euclidean_division_equations. lia.
Qed.

(** The day number of a date of month [m], counted from January 1. *)
Lemma daysOf_in_year (y m d : Z) :
  1 <= m <= 12 ->
  daysOf y m d
  = daysSinceEpoch y + daysBefore (m - 1)
    + (if isLeap y && (3 <=? m) then 1 else 0) + (d - 1).
Proof.
  intro Hm. unfold daysOf. cbv zeta.
  assert ((m - 1) / 12 = 0) as -> by (apply Z.div_small; lia).
  assert ((m - 1) mod 12 = m - 1) as -> by (apply Z.mod_small; lia).
  rewrite Z.add_0_r.
  assert ((2 <=? m - 1) = (3 <=? m)) as ->.
  { destruct (Z.leb_spec 2 (m - 1)), (Z.leb_spec 3 m); auto; lia. }
  reflexivity.
Qed.

Ltac twelve m :=
  let H := fresh in
  assert (m = 1 \/ m = 2 \/ m = 3 \/ m = 4 \/ m = 5 \/ m = 6 \/ m = 7
          \/ m = 8 \/ m = 9 \/ m = 10 \/ m = 11 \/ m = 12) as H by lia;
  repeat (destruct H as [H|H]; [subst m|]); [..|subst m].

(** Closed comparisons between month offsets, in leap and other years. *)
Ltac closed_months y :=
  destruct (isLeap y); vm_compute;
  repeat match goal with
         | |- _ /\ _ => split
         end;
  try (let H := fresh in intro H; discriminate H); try reflexivity.

(** Day [d] of month [m] is day [off + d] of its year, for an offset
    [off] of the month. *)
Lemma month_offsets (y m : Z) :
  1 <= m <= 12 ->
  exists off,
    (forall d, daysOf y m d = daysSinceEpoch y + off + (d - 1))
    /\ 0 <= off
    /\ off + monthLength y m <= (if isLeap y then 366 else 365)
    /\ (forall m' off',
           m < m' <= 12 ->
           (forall d, daysOf y m' d = daysSinceEpoch y + off' + (d - 1)) ->
           off + monthLength y m <= off').
Proof.
  intro Hm.
  exists (daysBefore (m - 1) + (if isLeap y && (3 <=? m) then 1 else 0)).
  split; [intro d; rewrite (daysOf_in_year y m d Hm); ring|].
  unfold monthLength.
  split; [|split].
  - twelve m; closed_months y.
  - twelve m; closed_months y.
  - intros m' off' Hm' Hoff. specialize (Hoff 1).
    rewrite (daysOf_in_year y m' 1) in Hoff by lia.
    assert (off' = daysBefore (m' - 1) + (if isLeap y && (3 <=? m') then 1 else 0))
      as -> by lia.
    clear Hoff.
    twelve m; twelve m'; try lia; closed_months y.
Qed.

Lemma validDate_in_year (y m d : Z) :
  validDate y m d ->
  daysSinceEpoch y <= daysOf y m d < daysSinceEpoch (y + 1).
Proof.
  intros [Hm Hd]. destruct (month_offsets y m Hm) as [off [Hof [H0 [Hlen _]]]].
  rewrite Hof, year_after. destruct (isLeap y); lia.
Qed.

(** No two dates have the same day number. *)
Lemma daysOf_inj (y m d y' m' d' : Z) :
  validDate y m d -> validDate y' m' d' ->
  daysOf y m d = daysOf y' m' d' -> y = y' /\ m = m' /\ d = d'.
Proof.
  intros V V' E.
  pose proof (validDate_in_year _ _ _ V) as B.
  pose proof (validDate_in_year _ _ _ V') as B'.
  assert (y = y') as <-.
  { destruct (Z.lt_trichotomy y y') as [L|[L|L]]; [|exact L|].
    - pose proof (year_start_mono y y' L). lia.
    - pose proof (year_start_mono y' y L). lia. }
  split; [reflexivity|].
  destruct V as [Hm Hd], V' as [Hm' Hd'].
  destruct (month_offsets y m Hm) as [off [Hof [H0 [Hlen Hnext]]]].
  destruct (month_offsets y m' Hm') as [off' [Hof' [H0' [Hlen' Hnext']]]].
  assert (m = m') as <-.
  { destruct (Z.lt_trichotomy m m') as [L|[L|L]]; [|exact L|].
    - pose proof (Hnext m' off' ltac:(lia) Hof'). rewrite Hof, Hof' in E. lia.
    - pose proof (Hnext' m off ltac:(lia) Hof). rewrite Hof, Hof' in E. lia. }
  split; [reflexivity|]. rewrite !Hof in E. lia.
Qed.

(** The civil date of the day number of a date is that date. *)
Lemma civil_of_daysOf (y m d : Z) :
  validDate y m d -> civil (daysOf y m d) = (y, m, d).
Proof.
  intro V. destruct (civil (daysOf y m d)) as [[y' m'] d'] eqn:E.
  destruct (civil_validDate _ _ _ _ E) as [V' Hn].
  destruct (daysOf_inj _ _ _ _ _ _ V' V Hn) as [-> [-> ->]]. reflexivity.
Qed.

(** [time.Date] of a date and a time of day, read back. *)
Lemma Date_fields (y m d h mi sec ns loc : Z) :
  validDate y m d -> 0 <= h < 24 -> 0 <= mi < 60 -> 0 <= sec < 60 ->
  0 <= ns < Second ->
  let x := Date y m d h mi sec ns loc in
  abs x / 86400 = daysOf y m d
  /\ Year x = y /\ Month x = m /\ Day x = d
  /\ HourOf x = h /\ MinuteOf x = mi /\ SecondOf x = sec /\ NanosecondOf x = ns
  /\ GoTime.Location x = loc.
Proof.
  intros V Hh Hmi Hs Hns x.
  assert (abs x = daysOf y m d * 86400 + h * 3600 + mi * 60 + sec) as Habs.
  { unfold x, abs, Date. cbn [unixNano zoneOffset]. unfold Second in *.
    Z.to_euclidean_division_equations. lia. }
  assert (abs x / 86400 = daysOf y m d) as Hday.
  { rewrite Habs. Z.to_euclidean_division_equations. lia. }
  unfold Year, Month, Day, HourOf, MinuteOf, SecondOf, NanosecondOf, GoTime.Location.
  rewrite Hday, (civil_of_daysOf y m d V). cbn [fst snd].
  split; [reflexivity|]. do 3 (split; [reflexivity|]).
  rewrite Habs.
  split; [Z.to_euclidean_division_equations; lia|].
  split; [Z.to_euclidean_division_equations; lia|].
  split; [Z.to_euclidean_division_equations; lia|].
  split; [|reflexivity].
  unfold x, Date. cbn [unixNano]. unfold Second in *.
  Z.to_euclidean_division_equations. lia.
Qed.

Lemma monthLength_range (y m : Z) : 1 <= m <= 12 -> 28 <= monthLength y m <= 31.
Proof.
  intro Hm. unfold monthLength. twelve m; closed_months y.
Qed.

Ltac calc_closed :=
  repeat match goal with
         | |- context [daysBefore ?k] =>
             let v := eval vm_compute in (daysBefore k) in
             progress change (daysBefore k) with v
         | |- context [Z.leb ?a ?b] =>
             let v := eval vm_compute in (Z.leb a b) in
             progress change (Z.leb a b) with v
         | |- context [Z.eqb ?a ?b] =>
             let v := eval vm_compute in (Z.eqb a b) in
             progress change (Z.eqb a b) with v
         end;
  cbn [andb]; cbv beta iota.

(** Day 0 of the next month is the last day of the month. *)
Lemma daysOf_last (y m : Z) :
  1 <= m <= 12 -> daysOf y (m + 1) 0 = daysOf y m (monthLength y m).
Proof.
  intro Hm. destruct (Z.eq_dec m 12) as [->|Hne].
  - rewrite (daysOf_in_year y 12) by lia. unfold daysOf. cbv zeta.
    change ((12 + 1 - 1) / 12) with 1. change ((12 + 1 - 1) mod 12) with 0.
    rewrite year_after. unfold monthLength.
    generalize (daysSinceEpoch y). intro base.
    calc_closed. rewrite ?andb_false_r.
    destruct (isLeap y); calc_closed; lia.
  - rewrite (daysOf_in_year y (m + 1)), (daysOf_in_year y m) by lia.
    unfold monthLength. generalize (daysSinceEpoch y). intro base.
    twelve m; try lia; destruct (isLeap y); calc_closed; lia.
Qed.

(** ** The month view *)

Lemma NoDup_map_on {A B : Type} (f : A -> B) (l : list A) :
  NoDup l -> (forall a b, In a l -> In b l -> f a = f b -> a = b) -> NoDup (map f l).
Proof.
  induction 1 as [|a l Hn Hd IH]; intro Hinj; cbn; constructor.
  - intro Hin. apply in_map_iff in Hin. destruct Hin as [b [Hb Hbin]].
    assert (b = a) as -> by (apply Hinj; cbn; auto). contradiction.
  - apply IH. intros x y Hx Hy. apply Hinj; cbn; auto.
Qed.

Lemma upTo_S (count : nat) : upTo (S count) = 0 :: map Z.succ (upTo count).
Proof.
  unfold upTo. cbn [seq map]. f_equal. rewrite <- seq_shift, !map_map.
  apply map_ext. intro k. apply Nat2Z.inj_succ.
Qed.

Lemma upTo_In (count : nat) (k : Z) : In k (upTo count) <-> 0 <= k < Z.of_nat count.
Proof.
  unfold upTo. rewrite in_map_iff. split.
  - intros [n [<- Hn]]. apply in_seq in Hn. lia.
  - intro H. exists (Z.to_nat k). split; [lia|]. apply in_seq. lia.
Qed.

Lemma upTo_NoDup (count : nat) : NoDup (upTo count).
Proof.
  unfold upTo. apply NoDup_map_on; [apply seq_NoDup|].
  intros a b _ _. apply Nat2Z.inj.
Qed.

Lemma fillDays_cells (format : main.Formatter) (eventsByDate : main.EventsByDate)
      (currentDate today selectedDate : Time) (count : nat) (day col row : Z) :
  0 <= col <= 6 ->
  main.fillDays format eventsByDate currentDate today selectedDate count day col row
  = map (cellAfter format eventsByDate currentDate today selectedDate day col row)
        (upTo count).
Proof.
  revert day col row. induction count as [|count IH]; intros day col row Hc;
    [reflexivity|].
  rewrite upTo_S. cbn [main.fillDays map]. cbv zeta.
  assert (cellAfter format eventsByDate currentDate today selectedDate day col row 0
          = main.mkDayCell day
              (Date (Year currentDate) (Month currentDate) day 0 0 0 0
                    (GoTime.Location currentDate))
              (eventsByDate
                 (format DateOnly
                    (Date (Year currentDate) (Month currentDate) day 0 0 0 0
                          (GoTime.Location currentDate))))
              (main.sameDate
                 (Date (Year currentDate) (Month currentDate) day 0 0 0 0
                       (GoTime.Location currentDate)) today)
              (main.sameDate
                 (Date (Year currentDate) (Month currentDate) day 0 0 0 0
                       (GoTime.Location currentDate)) selectedDate)
              col row) as H0.
  { unfold cellAfter. rewrite !Z.add_0_r.
    rewrite (Z.mod_small col 7), (Z.div_small col 7) by lia.
    now rewrite Z.add_0_r. }
  rewrite map_map.
  destruct (Z.ltb_spec 6 (col + 1)) as [Hw|Hw].
  - rewrite IH by lia. rewrite H0. f_equal. apply map_ext. intro k.
    unfold cellAfter.
    replace (day + 1 + k) with (day + Z.succ k) by lia.
    assert (col = 6) as -> by lia.
    replace (6 + Z.succ k) with (0 + k + 1 * 7) by lia.
    rewrite Z.mod_add, Z.div_add by lia. f_equal. lia.
  - rewrite IH by lia. rewrite H0. f_equal. apply map_ext. intro k.
    unfold cellAfter.
    replace (day + 1 + k) with (day + Z.succ k) by lia.
    replace (col + 1 + k) with (col + Z.succ k) by lia. reflexivity.
Qed.

Lemma Date_midnight_day (y m d loc : Z) :
  abs (Date y m d 0 0 0 0 loc) / 86400 = daysOf y m d.
Proof.
  unfold abs, Date. cbn [unixNano zoneOffset]. unfold Second.
  Z.to_euclidean_division_equations. lia.
Qed.

Lemma daysOf_day (y m d k : Z) : daysOf y m (d + k) = daysOf y m d + k.
Proof. unfold daysOf. cbv zeta. ring. Qed.

(** The first of the month of an instant, and the last day of that
    month as [updateMonthViewWithEvents] computes it. *)
Lemma firstOfMonth_fields (x : Time) :
  let first := Date (Year x) (Month x) 1 0 0 0 0 (GoTime.Location x) in
  validDate (Year x) (Month x) 1
  /\ AddDate first 0 1 (-1) = Date (Year x) (Month x + 1) 0 0 0 0 0 (GoTime.Location x)
  /\ Day (AddDate first 0 1 (-1)) = monthLength (Year x) (Month x).
Proof.
  intro first.
  pose proof (Month_range x) as Hm.
  pose proof (monthLength_range (Year x) (Month x) Hm) as Hl.
  assert (validDate (Year x) (Month x) 1) as V by (split; [exact Hm|lia]).
  split; [exact V|].
  destruct (Date_fields (Year x) (Month x) 1 0 0 0 0 (GoTime.Location x) V
              ltac:(lia) ltac:(lia) ltac:(lia) ltac:(unfold Second; lia))
    as [_ [Hy [Hmo [Hd [Hh [Hmi [Hs [Hn Hloc]]]]]]]].
  fold first in Hy, Hmo, Hd, Hh, Hmi, Hs, Hn, Hloc.
  assert (AddDate first 0 1 (-1)
          = Date (Year x) (Month x + 1) 0 0 0 0 0 (GoTime.Location x)) as Hlast.
  { unfold AddDate. rewrite Hy, Hmo, Hd, Hh, Hmi, Hs, Hn, Hloc.
    now rewrite Z.add_0_r. }
  split; [exact Hlast|]. rewrite Hlast. unfold Day.
  rewrite Date_midnight_day, (daysOf_last _ _ Hm).
  rewrite civil_of_daysOf; [reflexivity|]. split; [exact Hm|lia].
Qed.

Lemma monday_first (w : Z) :
  0 <= w < 7 ->
  (if w =? 0 then 7 else w) - 1 = mondayColumn w
  /\ 0 <= (if w =? 0 then 7 else w) - 1 <= 6.
Proof.
  intro H. unfold mondayColumn. destruct (Z.eqb_spec w 0) as [->|E].
  - split; [reflexivity|lia].
  - split; [|lia]. Z.to_euclidean_division_equations. lia.
Qed.

Lemma Weekday_range (t : Time) : 0 <= GoTime.Weekday t < 7.
Proof. unfold GoTime.Weekday. apply Z.mod_pos_bound. lia. Qed.

(** The cells of the month view are those the loop attaches after the
    first of the month. *)
Lemma monthView_cells (format : main.Formatter) (eventsByDate : main.EventsByDate)
      (currentDate today selectedDate : Time) (w : Z) :
  w = GoTime.Weekday (Date (Year currentDate) (Month currentDate) 1 0 0 0 0
                            (GoTime.Location currentDate)) ->
  main.updateMonthViewWithEvents format eventsByDate currentDate today selectedDate
  = map (cellAfter format eventsByDate currentDate today selectedDate 1
                   ((if w =? 0 then 7 else w) - 1) 1)
        (upTo (Z.to_nat (monthLength (Year currentDate) (Month currentDate)))).
Proof.
  intro Hw.
  destruct (firstOfMonth_fields currentDate) as [_ [_ Hday]].
  unfold main.updateMonthViewWithEvents. rewrite <- Hw.
  etransitivity; [|apply fillDays_cells].
  - f_equal. f_equal. exact Hday.
  - apply monday_first. rewrite Hw. apply Weekday_range.
Qed.

Lemma Weekday_days_later (y m k loc : Z) :
  validDate y m (1 + k) ->
  GoTime.Weekday (Date y m (1 + k) 0 0 0 0 loc)
  = (GoTime.Weekday (Date y m 1 0 0 0 0 loc) + k) mod 7.
Proof.
  intro V. unfold GoTime.Weekday.
  rewrite !Date_midnight_day, daysOf_day.
  generalize (daysOf y m 1). intro n.
  Z.to_euclidean_division_equations. lia.
Qed.

Lemma cell_places_differ (w0 a b : Z) :
  (w0 + a) mod 7 = (w0 + b) mod 7 -> 1 + (w0 + a) / 7 = 1 + (w0 + b) / 7 -> a = b.
Proof. Z.to_euclidean_division_equations. lia. Qed.

Lemma cell_place (w k : Z) :
  0 <= w < 7 -> 0 <= k < 31 ->
  let w0 := (if w =? 0 then 7 else w) - 1 in
  0 <= (w0 + k) mod 7 <= 6
  /\ 1 <= 1 + (w0 + k) / 7 <= 6
  /\ (w0 + k) mod 7 = mondayColumn ((w + k) mod 7).
Proof.
  intros Hw Hk w0. destruct (monday_first w Hw) as [E R]. fold w0 in E, R.
  clearbody w0. unfold mondayColumn in *.
  Z.to_euclidean_division_equations. lia.
Qed.

Lemma cellAfter_layout (format : main.Formatter) (eventsByDate : main.EventsByDate)
      (currentDate today selectedDate : Time) (w k : Z) :
  w = GoTime.Weekday (Date (Year currentDate) (Month currentDate) 1 0 0 0 0
                            (GoTime.Location currentDate)) ->
  0 <= k < monthLength (Year currentDate) (Month currentDate) ->
  let c := cellAfter format eventsByDate currentDate today selectedDate 1
                     ((if w =? 0 then 7 else w) - 1) 1 k in
  (Year (main.CellDate c), Month (main.CellDate c), Day (main.CellDate c))
  = (Year currentDate, Month currentDate, main.CellDay c)
  /\ 0 <= main.CellCol c <= 6
  /\ 1 <= main.CellRow c <= 6
  /\ main.CellCol c = mondayColumn (GoTime.Weekday (main.CellDate c)).
Proof.
  intros Hw Hk c.
  pose proof (Month_range currentDate) as Hm.
  pose proof (monthLength_range (Year currentDate) _ Hm) as Hl.
  assert (validDate (Year currentDate) (Month currentDate) (1 + k)) as Vk
      by (split; [exact Hm|lia]).
  assert (0 <= w < 7) as Hwr by (rewrite Hw; apply Weekday_range).
  destruct (Date_fields _ _ _ 0 0 0 0 (GoTime.Location currentDate) Vk
              ltac:(lia) ltac:(lia) ltac:(lia) ltac:(unfold Second; lia))
    as [_ [Hy [Hmo [Hd _]]]].
  destruct (cell_place w k Hwr ltac:(lia)) as [Hc [Hr Hcol]].
  unfold c, cellAfter.
  cbn [main.CellDate main.CellDay main.CellCol main.CellRow].
  rewrite Hy, Hmo, Hd. split; [reflexivity|].
  split; [exact Hc|]. split; [exact Hr|].
  rewrite (Weekday_days_later _ _ _ _ Vk), <- Hw. exact Hcol.
Qed.

Lemma cellAfter_days (format : main.Formatter) (eventsByDate : main.EventsByDate)
      (currentDate today selectedDate : Time) (col row : Z) (count : nat) :
  map main.CellDay
      (map (cellAfter format eventsByDate currentDate today selectedDate 1 col row)
           (upTo count))
  = map Z.of_nat (seq 1 count).
Proof.
  rewrite map_map. unfold upTo. rewrite map_map.
  rewrite <- seq_shift, map_map. apply map_ext. intro k.
  unfold cellAfter. cbn [main.CellDay]. lia.
Qed.

Lemma cellAfter_places (format : main.Formatter) (eventsByDate : main.EventsByDate)
      (currentDate today selectedDate : Time) (col : Z) (count : nat) :
  NoDup (map (fun c => (main.CellCol c, main.CellRow c))
             (map (cellAfter format eventsByDate currentDate today selectedDate 1 col 1)
                  (upTo count))).
Proof.
  rewrite map_map. apply NoDup_map_on; [apply upTo_NoDup|].
  intros a b _ _. unfold cellAfter. cbn [main.CellCol main.CellRow]. intro E.
  apply (cell_places_differ col).
  - exact (f_equal fst E).
  - exact (f_equal snd E).
Qed.

(** X27.  The month view lays out exactly the days of the month of the
    current date: one cell for each day from 1 to the length of the month
    (28 to 31), in order; the date of a cell is that day of that month
    and year; the cell stands in the column of the weekday of its date,
    Monday being column 0, in one of the rows 1 to 6; and no two days
    share a place. *)
Theorem month_grid_layout
        (format : main.Formatter) (eventsByDate : main.EventsByDate)
        (currentDate today selectedDate : Time) :
  let cells :=
    main.updateMonthViewWithEvents format eventsByDate currentDate today
                                    selectedDate in
  let len := monthLength (Year currentDate) (Month currentDate) in
  28 <= len <= 31
  /\ map main.CellDay cells = map Z.of_nat (seq 1 (Z.to_nat len))
  /\ Forall (fun c =>
               (Year (main.CellDate c), Month (main.CellDate c),
                Day (main.CellDate c))
               = (Year currentDate, Month currentDate, main.CellDay c)
               /\ 0 <= main.CellCol c <= 6
               /\ 1 <= main.CellRow c <= 6
               /\ main.CellCol c = mondayColumn (GoTime.Weekday (main.CellDate c)))
            cells
  /\ NoDup (map (fun c => (main.CellCol c, main.CellRow c)) cells).
Proof.
  intros cells len.
  pose proof (Month_range currentDate) as Hm.
  pose proof (monthLength_range (Year currentDate) _ Hm) as Hl.
  remember (GoTime.Weekday (Date (Year currentDate) (Month currentDate) 1 0 0 0 0
                                  (GoTime.Location currentDate))) as w eqn:Hw.
  pose proof (monthView_cells format eventsByDate currentDate today selectedDate w Hw)
    as Hcells.
  subst cells len. rewrite Hcells.
  split; [exact Hl|]. split; [|split].
  - apply cellAfter_days.
  - apply Forall_forall. intros c Hin. apply in_map_iff in Hin.
    destruct Hin as [k [<- Hk]]. apply upTo_In in Hk.
    apply cellAfter_layout; [exact Hw|lia].
  - apply cellAfter_places.
Qed.

Lemma grouped_In (format : main.Formatter) (events_ : list Event.t)
      (m : main.EventsByDate) (k : string) (e : Event.t) :
  In e (fold_left (fun m e => main.appendUnder m (format DateOnly (Event.Start e)) e)
                  events_ m k)
  <-> In e (m k) \/ (In e events_ /\ format DateOnly (Event.Start e) = k).
Proof.
  revert m. induction events_ as [|x xs IH]; intro m; cbn [fold_left In].
  - tauto.
  - rewrite IH. unfold main.appendUnder.
    destruct (String.eqb_spec k (format DateOnly (Event.Start x))) as [E|E].
    + rewrite in_app_iff. cbn [In]. split.
      * intros [[H|[H|[]]]|[H1 H2]]; [tauto| |tauto]. subst x.
        right. split; [now left|now symmetry].
      * intros [H|[[H|H] H2]]; tauto.
    + split.
      * intros [H|[H1 H2]]; tauto.
      * intros [H|[[H|H] H2]]; [tauto| |tauto]. subst x. congruence.
Qed.

Lemma Date_next_midnight (y m d loc : Z) :
  Add (Date y m d 0 0 0 0 loc) (24 * Hour) = Date y m (d + 1) 0 0 0 0 loc.
Proof.
  unfold Add, Date. cbn [unixNano zoneOffset]. f_equal.
  rewrite daysOf_day. unfold Hour, Minute, Second. ring.
Qed.

(** The range of [refreshMonthView]: from the first of the month at
    00:00 to the first of the next month at 00:00. *)
Lemma monthRange_bounds (x : Time) :
  main.monthRange x
  = (Date (Year x) (Month x) 1 0 0 0 0 (GoTime.Location x),
     Date (Year x) (Month x + 1) 1 0 0 0 0 (GoTime.Location x)).
Proof.
  destruct (firstOfMonth_fields x) as [_ [Hlast _]].
  unfold main.monthRange. f_equal.
  etransitivity; [exact (f_equal (fun t => Add t (24 * Hour)) Hlast)|].
  exact (Date_next_midnight (Year x) (Month x + 1) 0 (GoTime.Location x)).
Qed.

Lemma refreshMonthView_In (format : main.Formatter) (s : Store) (x : Time)
      (k : string) (r : EventRow.t) :
  keysUnique s -> In r (events s) ->
  (In (scanEvent r) (main.refreshMonthView format s x k)
   <-> selected s (fst (main.monthRange x)) (snd (main.monthRange x)) r = true
       /\ format DateOnly (EventRow.start_time r) = k).
Proof.
  intros Hk Hr. unfold main.refreshMonthView.
  destruct (main.monthRange x) as [monthStart monthEnd]. cbn [fst snd].
  destruct (GetEventsInRange s monthStart monthEnd) as [l|err] eqn:Hq;
    [|discriminate].
  rewrite grouped_In. cbn [Event.Start scanEvent].
  rewrite (GetEventsInRange_stored s monthStart monthEnd r l Hk Hr Hq).
  cbn [In]. tauto.
Qed.


(** ** Waybar mode and the sidebar *)

(** One day after a midnight is the midnight 24 hours later. *)
Lemma AddDate_next_day (x : Time) :
  AddDate (dayStart x) 0 0 1 = Add (dayStart x) (24 * Hour).
Proof.
  assert (validDate (Year x) (Month x) (Day x)) as V.
  { unfold Year, Month, Day.
    destruct (civil (abs x / 86400)) as [[y m] d] eqn:E.
    exact (proj1 (civil_validDate _ _ _ _ E)). }
  destruct (Date_fields (Year x) (Month x) (Day x) 0 0 0 0 (GoTime.Location x) V
              ltac:(lia) ltac:(lia) ltac:(lia) ltac:(unfold Second; lia))
    as [_ [Hy [Hmo [Hd [Hh [Hmi [Hs [Hn Hloc]]]]]]]].
  unfold dayStart, AddDate. rewrite Hy, Hmo, Hd, Hh, Hmi, Hs, Hn, Hloc.
  rewrite !Z.add_0_r. symmetry. apply Date_next_midnight.
Qed.


Lemma appendCalendar_fold (cals : list Calendar.t) (m : main.CalsByAccount)
      (k : string) :
  fold_left main.appendCalendar cals m k
  = (m k ++ filter (fun c => String.eqb k (Calendar.AccountID c)) cals)%list.
Proof.
  revert m. induction cals as [|c cals IH]; intro m; cbn [fold_left filter].
  - now rewrite app_nil_r.
  - rewrite IH. unfold main.appendCalendar.
    destruct (String.eqb k (Calendar.AccountID c)).
    + now rewrite <- app_assoc.
    + reflexivity.
Qed.

Lemma filter_split {A : Type} (p q : A -> bool) (l : list A) :
  (forall x, In x l -> p x = true -> q x = false) ->
  Permutation (filter p l ++ filter q l) (filter (fun x => p x || q x) l).
Proof.
  induction l as [|x l IH]; intro H; cbn [filter app]; [constructor|].
  assert (Permutation (filter p l ++ filter q l) (filter (fun x => p x || q x) l))
    as IH' by (apply IH; intros y Hy; apply H; now right).
  destruct (p x) eqn:Px.
  - rewrite (H x (or_introl eq_refl) Px). cbn [orb app]. now constructor.
  - cbn [orb]. destruct (q x).
    + apply Permutation_sym. eapply perm_trans.
      * apply perm_skip, Permutation_sym, IH'.
      * apply Permutation_middle.
    + exact IH'.
Qed.

(** Grouping by a key that takes each of its values once partitions a
    list whose keys are all among them. *)
Lemma groups_partition {A : Type} (key : A -> string) (keys : list string)
      (l : list A) :
  NoDup keys ->
  Permutation (List.concat (map (fun k => filter (fun x => String.eqb k (key x)) l) keys))
              (filter (fun x => existsb (fun k => String.eqb k (key x)) keys) l).
Proof.
  induction 1 as [|k keys Hk Hnd IH]; cbn [map List.concat existsb].
  - induction l as [|x l IHl]; cbn; [constructor|exact IHl].
  - eapply perm_trans; [apply Permutation_app_head, IH|].
    apply filter_split. intros x _ Hx. apply String.eqb_eq in Hx. subst k.
    apply not_true_is_false. intro He. apply existsb_exists in He.
    destruct He as [k' [Hin Heq]]. apply String.eqb_eq in Heq. subst k'.
    contradiction.
Qed.

Lemma filter_all {A : Type} (p : A -> bool) (l : list A) :
  (forall x, In x l -> p x = true) -> filter p l = l.
Proof.
  induction l as [|x l IH]; intro H; cbn [filter]; [reflexivity|].
  rewrite (H x (or_introl eq_refl)). f_equal. apply IH. intros y Hy. apply H. now right.
Qed.

Lemma scanCalendarRows_AccountID (r : CalendarRow.t) :
  Calendar.AccountID (scanCalendarRows r) = CalendarRow.account_id r.
Proof. reflexivity. Qed.

Lemma scanAccountRows_fields (r : AccountRow.t) :
  Account.ID (scanAccountRows r) = AccountRow.id r
  /\ Account.Name (scanAccountRows r) = AccountRow.name r.
Proof. split; reflexivity. Qed.

(** The sections [loadCalendars] appends for a list of accounts. *)
Lemma sections_rows (cals : list Calendar.t) (accts : list Account.t) :
  List.concat
    (map sectionRows
         (flat_map
            (fun account =>
               if (List.length
                     (fold_left main.appendCalendar cals (fun _ => [])
                                (Account.ID account)) =? 0)%nat
               then []
               else [main.AccountSection
                       (Account.Name account)
                       (fold_left main.appendCalendar cals (fun _ => [])
                                  (Account.ID account))])
            accts))
  = List.concat
      (map (fun k => filter (fun c => String.eqb k (Calendar.AccountID c)) cals)
           (map Account.ID accts)).
Proof.
  induction accts as [|a accts IH]; [reflexivity|].
  cbn [flat_map map List.concat]. rewrite map_app, concat_app, IH. f_equal.
  rewrite appendCalendar_fold. cbn [app].
  destruct (filter (fun c => String.eqb (Account.ID a) (Calendar.AccountID c)) cals);
    [reflexivity|].
  cbn [List.length Nat.eqb map sectionRows List.concat]. apply app_nil_r.
Qed.

(** X30.  The sidebar partitions the calendars by account: on a
    consistent database with a calendar, every item [loadCalendars]
    appends is the section of a stored account, bearing its name and
    holding only calendars of that account, at least one; and the rows
    of all sections together are the calendars [GetAllCalendars]
    returns, each as often as it is returned.  With no calendar stored
    the list holds the label alone. *)
Theorem sidebar_partitions_calendars (s : Store) :
  consistent s ->
  (calendars s = [] -> main.loadCalendars s = [main.NoCalendarsLabel])
  /\ (calendars s <> [] ->
      Forall (sectionOf s) (main.loadCalendars s)
      /\ exists cals,
           GetAllCalendars s = Ok cals
           /\ Permutation (List.concat (map sectionRows (main.loadCalendars s))) cals).
Proof.
  intros [[Ha [Hc _]] [Hfk _]].
  unfold main.loadCalendars, GetAllAccounts, GetAllCalendars.
  set (accts := orderBy (fun a b => String.leb (AccountRow.name a) (AccountRow.name b))
                        (accounts s)).
  set (rows := orderBy byCalendarName (calendars s)).
  assert (List.length (map scanCalendarRows rows) = List.length (calendars s)) as Hlen.
  { rewrite length_map. symmetry. apply Permutation_length, orderBy_perm. }
  rewrite Hlen. split.
  - intros ->. reflexivity.
  - intro Hne.
    assert ((List.length (calendars s) =? 0)%nat = false) as ->
        by (destruct (calendars s); [congruence|reflexivity]).
    split.
    + apply Forall_forall. intros item Hin. apply in_flat_map in Hin.
      destruct Hin as [a [Hain Hitem]]. cbv zeta in Hitem.
      rewrite appendCalendar_fold in Hitem. cbn [app] in Hitem.
      apply in_map_iff in Hain. destruct Hain as [ar [<- Har]].
      apply (proj1 (orderBy_In _ _ _)) in Har.
      destruct (filter _ (map scanCalendarRows rows)) as [|c l] eqn:Ef;
        [contradiction|].
      cbn [List.length Nat.eqb] in Hitem. destruct Hitem as [<-|[]].
      exists ar. cbn [sectionRows]. split; [exact Har|].
      split; [reflexivity|]. split; [discriminate|].
      rewrite <- Ef. apply Forall_forall. intros c' Hc'.
      apply filter_In in Hc'. destruct Hc' as [_ He].
      apply String.eqb_eq in He. now symmetry.
    + eexists. split; [reflexivity|].
      cbv zeta. rewrite sections_rows.
      eapply perm_trans.
      * apply groups_partition. rewrite map_map.
        apply (Permutation_NoDup (l := map AccountRow.id (accounts s))); [|exact Ha].
        apply Permutation_map, orderBy_perm.
      * rewrite filter_all; [apply Permutation_refl|].
        intros c Hin. apply in_map_iff in Hin. destruct Hin as [r [<- Hr]].
        apply (proj1 (orderBy_In _ _ _)) in Hr.
        pose proof (Hfk r Hr) as Hex. apply accountExists_In in Hex.
        apply existsb_exists. exists (CalendarRow.account_id r). split.
        -- rewrite map_map.
           apply (Permutation_in (l := map AccountRow.id (accounts s)));
             [apply Permutation_map, orderBy_perm|exact Hex].
        -- apply String.eqb_refl.
Qed.

(** ** The further properties on the examples *)

Lemma save_then_get_witness :
  accountExists demoStore (Calendar.AccountID plainCalendar) = true
  /\ calendarExists demoStore (Event.CalendarID plainEvent) = true
  /\ (exists s', SaveCalendar demoStore plainCalendar = Ok s'
                 /\ GetCalendar s' "cal-3"
                    = Ok (Calendar.set_Color plainCalendar "#4285f4"))
  /\ (exists s', SaveEvent demoStore plainEvent = Ok s'
                 /\ GetEvent s' "evt-D"
                    = Ok (Event.set_Status plainEvent StatusConfirmed)).
Proof.
  split; [reflexivity|]. split; [reflexivity|].
  exact (proj2 (save_then_get demoStore renamedAccount plainCalendar plainEvent
                              eq_refl eq_refl)).
Defined.

Lemma deleted_rows_are_gone_witness :
  consistent demoStore
  /\ (exists s', DeleteCalendar demoStore "cal-1" = Ok s'
                 /\ GetCalendar s' "cal-1" = Err errNoRows
                 /\ GetEventsByCalendar s' "cal-1" = Ok []
                 /\ SaveEvent s' plainEvent = Err errForeignKey).
Proof.
  split; [exact demoStore_consistent|].
  destruct (deleted_rows_are_gone demoStore "cal-1" demoStore_consistent)
    as [_ [_ [[s' [Hd [Hg [Hl Hs]]]] _]]].
  exists s'. repeat split; auto.
Defined.

Lemma delete_missing_changes_nothing_witness :
  ~ In "evt-Z" (map EventRow.id (events demoStore))
  /\ DeleteEvent demoStore "evt-Z" = Ok demoStore.
Proof.
  assert (~ In "evt-Z" (map EventRow.id (events demoStore))) as H
      by (simpl; intuition discriminate).
  split; [exact H|].
  exact (proj1 (delete_missing_changes_nothing demoStore "evt-Z") H).
Defined.


Lemma calendar_listings_witness :
  keysUnique demoStore
  /\ GetAllCalendars demoStore = Ok [scanCalendar archiveRow; scanCalendar myCalendarRow]
  /\ GetCalendar demoStore "cal-2" = Ok (scanCalendar archiveRow).
Proof.
  split; [exact (proj1 demoStore_consistent)|]. split; [reflexivity|].
  destruct (calendar_listings demoStore) as [all [visible [Hall [_ [_ [_ [_ [_ [_ [_ H]]]]]]]]]].
  apply (H (proj1 demoStore_consistent) (scanCalendar archiveRow)).
  assert (GetAllCalendars demoStore
          = Ok [scanCalendar archiveRow; scanCalendar myCalendarRow]) as E
      by reflexivity.
  assert (all = [scanCalendar archiveRow; scanCalendar myCalendarRow]) as ->
      by congruence.
  simpl. tauto.
Defined.

Lemma account_listing_witness :
  keysUnique demoStore
  /\ GetAllAccounts demoStore = Ok [scanAccount localRow]
  /\ GetAccount demoStore "acc-1" = Ok (scanAccount localRow).
Proof.
  split; [exact (proj1 demoStore_consistent)|]. split; [reflexivity|].
  destruct (account_listing demoStore) as [l [Hl [_ [_ H]]]].
  apply (H (proj1 demoStore_consistent) (scanAccount localRow)).
  assert (GetAllAccounts demoStore = Ok [scanAccount localRow]) as E by reflexivity.
  assert (l = [scanAccount localRow]) as -> by congruence.
  simpl. tauto.
Defined.


Lemma overlap_is_a_common_instant_witness :
  0 < Event.Duration brunch
  /\ 0 < Event.Duration lunch
  /\ Event.Overlaps brunch lunch = true
  /\ Event.ContainsTime brunch (Event.Start lunch) = true
  /\ Event.ContainsTime lunch (Event.Start lunch) = true.
Proof.
  assert (0 < Event.Duration brunch) as Hb by (vm_compute; reflexivity).
  assert (0 < Event.Duration lunch) as Hl by (vm_compute; reflexivity).
  split; [exact Hb|]. split; [exact Hl|]. split; [reflexivity|].
  destruct (overlap_is_a_common_instant brunch lunch) as [_ [_ H]].
  exact (H Hb Hl eq_refl).
Defined.

Lemma google_client_needs_token_witness :
  Account.AccessToken (scanAccount localRow) = ""
  /\ google.Authenticate (fun _ => Ok listAPI)
       (google.NewClient (scanAccount localRow) (google.mkOAuthConfig "id" "secret" ""))
     = (google.mkClient (scanAccount localRow) None,
        Some "no access token - OAuth flow required")
  /\ google.Authenticate (fun _ => Ok listAPI)
       (google.NewClient freshAccount (google.mkOAuthConfig "id" "secret" ""))
     = (google.mkClient freshAccount (Some listAPI), None).
Proof.
  split; [reflexivity|]. split.
  - exact (proj1 (proj2 (google_client_needs_token
                           (fun _ => Ok listAPI) accepting (main.parse silentEnv)
                           (scanAccount localRow)
                           (google.mkOAuthConfig "id" "secret" ""))) eq_refl).
  - apply (proj2 (proj2 (google_client_needs_token
                           (fun _ => Ok listAPI) accepting (main.parse silentEnv)
                           freshAccount (google.mkOAuthConfig "id" "secret" "")))).
    split; [discriminate|]. exists listAPI. split; reflexivity.
Defined.

Lemma google_writes_witness :
  google.CreateEvent accepting (google.mkClient freshAccount (Some listAPI))
                      "primary" review = None
  /\ google.CreateEvent accepting (google.mkClient freshAccount (Some listAPI))
                         "primary" holiday = None.
Proof.
  destruct (google_writes accepting (google.mkClient freshAccount (Some listAPI))
                          "primary") as [_ [Hsame [Hc _]]].
  assert (google.CreateEvent accepting (google.mkClient freshAccount (Some listAPI))
                              "primary" review = None) as H.
  { apply Hc. split; [discriminate|]. split; [reflexivity|].
    exists 201, "201 Created". split; [reflexivity|]. now right. }
  split; [exact H|]. now rewrite (Hsame holiday review).
Defined.

Lemma google_calendar_list_witness :
  exists l,
    google.ListCalendars (google.mkClient freshAccount (Some listAPI)) = Ok l
    /\ map Calendar.ID l = ["primary"; "holidays"]
    /\ map Calendar.ReadOnly l = [false; true].
Proof.
  eexists. split; [reflexivity|].
  destruct (google_calendar_list (google.mkClient freshAccount (Some listAPI)) _ eq_refl)
    as [api [resp [items [Hapi [Hresp [_ [Hitems [Hid [_ [_ [Hro _]]]]]]]]]]].
  assert (api = listAPI) as -> by (cbn in Hapi; congruence).
  assert (resp = mkResponse 200 "200 OK"
                   (Ok [mkCalItem "primary" "Primary" "" "#0000ff" "owner";
                        mkCalItem "holidays" "Holidays" "" "" "reader"])) as ->
      by (cbn in Hresp; congruence).
  assert (items = [mkCalItem "primary" "Primary" "" "#0000ff" "owner";
                   mkCalItem "holidays" "Holidays" "" "" "reader"]) as ->
      by (cbn in Hitems; congruence).
  split; [exact Hid|exact Hro].
Defined.

Lemma google_mappings_agree_witness :
  ItemStatus liveItem = "confirmed"
  /\ startReadsAlike (main.parse googleEnv) liveItem
  /\ google.itemEvent (main.parse googleEnv) "primary" liveItem
     = main.fetchedEvent googleEnv primaryCalendar liveItem
  /\ ItemStatus bareItem = ""
  /\ Event.Status (main.fetchedEvent googleEnv primaryCalendar bareItem) = StatusConfirmed
  /\ Event.AllDay (main.fetchedEvent googleEnv primaryCalendar badDateItem) = true
  /\ Event.AllDay (google.itemEvent (main.parse googleEnv) "primary" badDateItem) = false.
Proof.
  assert (startReadsAlike (main.parse googleEnv) liveItem) as Hs
      by (intros _ H; now elim H).
  destruct (google_mappings_agree googleEnv primaryCalendar liveItem) as [H1 _].
  destruct (google_mappings_agree googleEnv primaryCalendar bareItem) as [_ [H2 _]].
  destruct (google_mappings_agree googleEnv primaryCalendar badDateItem) as [_ [_ H3]].
  split; [reflexivity|]. split; [exact Hs|]. split; [exact (H1 eq_refl Hs)|].
  split; [reflexivity|]. split; [exact (proj2 (H2 eq_refl))|].
  assert (StartDate badDateItem <> "") as Hd by discriminate.
  assert (forall x, main.parse googleEnv DateOnly (StartDate badDateItem) <> Ok x) as Hp
      by (intros x; discriminate).
  split; [exact (proj2 (H3 eq_refl Hd Hp))|exact (proj1 (H3 eq_refl Hd Hp))].
Defined.

Lemma caldav_calendar_list_witness :
  let l := [Calendar.mk "/cal/work/" "acc-2" "Work" "" "#4285f4" true false ""
                        GoTime.zero] in
  caldav.ListCalendars (caldav.mkClient davAccount (Some davServer)) = Ok l
  /\ Forall (fun cal => Calendar.AccountID cal = "acc-2"
                        /\ Calendar.Visible cal = true
                        /\ Calendar.ReadOnly cal = false) l.
Proof.
  intro l. split; [reflexivity|].
  destruct (caldav_calendar_list davAccount (caldav.mkClient davAccount (Some davServer)) l)
    as [_ H].
  destruct (H eq_refl) as [srv [home [cals [_ [_ [_ Hall]]]]]].
  eapply Forall_impl; [|exact Hall]. cbv beta. tauto.
Defined.

Lemma caldav_GetEvents_skips_bad_objects_witness :
  caldav.QueryCalendar davServer "/cal/work/" GoTime.zero GoTime.zero
  = Ok [caldav.mkObject "/cal/work/e0.ics" "etag-0" None; reviewObject]
  /\ exists events_,
       caldav.GetEvents goical.codec (caldav.mkClient davAccount (Some davServer))
                        "/cal/work/" GoTime.zero GoTime.zero = Ok events_
       /\ List.length events_ = 1%nat
       /\ Forall (fun e => Event.CalendarID e = "/cal/work/") events_.
Proof.
  split; [reflexivity|].
  destruct (caldav_GetEvents_skips_bad_objects goical.codec davAccount davServer
              "/cal/work/" GoTime.zero GoTime.zero
              [caldav.mkObject "/cal/work/e0.ics" "etag-0" None; reviewObject])
    as [_ H].
  destruct (H eq_refl) as [events_ [Hg [_ [Hlen Hall]]]].
  exists events_. split; [exact Hg|]. split; [exact Hlen|exact Hall].
Defined.

Lemma parseICalEvent_first_VEVENT_witness :
  caldav.Data (caldav.mkObject "/cal/work/e0.ics" "etag-0" None) = None
  /\ caldav.parseICalEvent goical.codec (caldav.mkObject "/cal/work/e0.ics" "etag-0" None)
                           "/cal/work/"
     = Err "no data in calendar object"
  /\ exists e,
       caldav.parseICalEvent goical.codec
         (caldav.stored "/cal/m1.ics" "etag-2"
                        (ical.mkCalendar [] [cancelledVEvent; cancelledVEvent]))
         "/cal/" = Ok e
       /\ Event.ID e = "m1"
       /\ Event.Status e = StatusCancelled
       /\ Event.Cancelled e = true.
Proof.
  split; [reflexivity|].
  destruct (parseICalEvent_first_VEVENT goical.codec
              (caldav.mkObject "/cal/work/e0.ics" "etag-0" None) "/cal/work/")
    as [H1 _].
  split; [exact (H1 eq_refl)|].
  destruct (parseICalEvent_first_VEVENT goical.codec
              (caldav.stored "/cal/m1.ics" "etag-2"
                             (ical.mkCalendar [] [cancelledVEvent; cancelledVEvent]))
              "/cal/") as [_ [_ H3]].
  destruct (H3 (ical.mkCalendar [] [cancelledVEvent; cancelledVEvent])
               [] cancelledVEvent [cancelledVEvent] eq_refl eq_refl
               (fun c (H : In c []) => match H with end) eq_refl)
    as [e [Hp [_ [Hid [_ [_ [_ [Hst Hc]]]]]]]].
  exists e. split; [exact Hp|]. split; [exact Hid|]. split; [exact Hst|].
  apply Hc. reflexivity.
Defined.

Lemma ical_roundtrip_identity_and_status_witness :
  keepsStatusWords goical.codec
  /\ exists e',
       caldav.parseICalEvent goical.codec reviewObject "/cal/work/" = Ok e'
       /\ Event.ID e' = "e2"
       /\ Event.ETag e' = "etag-1"
       /\ Event.Status e' = StatusTentative
       /\ Event.Cancelled e' = false.
Proof.
  assert (keepsStatusWords goical.codec) as Hk
      by (intros word [<-|[<-|[<-|[]]]]; reflexivity).
  split; [exact Hk|].
  destruct (ical_roundtrip_identity_and_status goical.codec GoTime.zero review
              "/cal/work/e2.ics" "etag-1" "/cal/work/" Hk)
    as [e' [Hp [Hid [_ [_ [Het [Hst [Hc _]]]]]]]].
  exists e'. split; [exact Hp|]. split; [exact Hid|]. split; [exact Het|].
  split; [exact Hst|exact Hc].
Defined.

Lemma google_callback_server_outcome_witness :
  5 * Second < 5 * Minute
  /\ google.returned
       (google.listen (5 * Minute)
          [(5 * Second, [("error", "access_denied")]); (6 * Second, [("code", "4/abc")])])
     = Some ("", Some "OAuth error: access_denied")
  /\ google.returned (google.listen (5 * Minute) [(6 * Minute, [("code", "4/abc")])])
     = Some ("", Some google.ctxErr).
Proof.
  assert (5 * Second < 5 * Minute) as Ht by (vm_compute; reflexivity).
  split; [exact Ht|]. split.
  - destruct (google_callback_server_outcome (5 * Minute) (5 * Second)
                [("error", "access_denied")] [(6 * Second, [("code", "4/abc")])])
      as [H _].
    destruct (H Ht) as [_ [H2 _]]. apply H2; [reflexivity|discriminate].
  - destruct (google_callback_server_outcome (5 * Minute) 0 []
                [(6 * Minute, [("code", "4/abc")])]) as [_ H].
    apply H. intros req [<-|[]]. vm_compute. discriminate.
Defined.

Lemma hiddenPrimaryStore_consistent : consistent hiddenPrimaryStore.
Proof.
  repeat split; simpl.
  - repeat constructor; simpl; tauto.
  - repeat constructor; simpl; tauto.
  - constructor.
  - intros c [<-|[]]; reflexivity.
  - intros e [].
Qed.

Lemma sync_keeps_rows_witness :
  let w := main.mkWorld hiddenPrimaryStore 0 [] in
  consistent (main.db w)
  /\ consistent (main.db (snd (main.syncAllAccounts googleEnv w)))
  /\ In "primary"
        (map CalendarRow.id
             (calendars (main.db (snd (main.syncAllAccounts googleEnv w))))).
Proof.
  intro w.
  destruct (sync_keeps_rows googleEnv freshAccount w) as [_ [Hc [_ [Hk _]]]].
  split; [exact hiddenPrimaryStore_consistent|].
  split; [exact (Hc hiddenPrimaryStore_consistent)|].
  apply Hk. simpl. tauto.
Defined.

Lemma startup_sync_is_google_only_witness :
  (forall r, In r (accounts demoStore) -> syncedAtStartup (scanAccountRows r) = false)
  /\ main.syncAllAccounts googleEnv (main.mkWorld demoStore 0 [])
     = (tt, main.mkWorld demoStore 0 []).
Proof.
  assert (forall r, In r (accounts demoStore) ->
                    syncedAtStartup (scanAccountRows r) = false) as H
      by (intros r [<-|[]]; reflexivity).
  split; [exact H|].
  exact (proj2 (startup_sync_is_google_only googleEnv (main.mkWorld demoStore 0 [])) H).
Defined.

Lemma google_sync_shows_listed_calendars_witness :
  let w := main.mkWorld hiddenPrimaryStore 0 [] in
  accountExists (main.db w) (Account.ID freshAccount) = true
  /\ After (main.clock googleEnv (main.reads w)) (Account.TokenExpiry freshAccount) = false
  /\ calendarVisible hiddenPrimaryStore "primary" = false
  /\ exists c,
       GetCalendar (main.db (snd (main.syncGoogleCalendarAPI googleEnv freshAccount w)))
                   "primary" = Ok c
       /\ Calendar.Visible c = true.
Proof.
  intro w. split; [reflexivity|]. split; [reflexivity|]. split; [reflexivity|].
  destruct (google_sync_shows_listed_calendars googleEnv freshAccount w
              (mkResponse 200 "200 OK" (Ok [mkCalItem "primary" "Primary" "" "" "owner"]))
              [mkCalItem "primary" "Primary" "" "" "owner"]
              eq_refl eq_refl eq_refl eq_refl eq_refl
              (mkCalItem "primary" "Primary" "" "" "owner") (or_introl eq_refl))
    as [c [Hg [_ [Hv _]]]].
  exists c. split; [exact Hg|exact Hv].
Defined.


Lemma code_exchange_outcome_witness :
  exists email,
    main.exchangeGoogleCode googleEnv grantingPeers "4/abc" main.redirectURI
    = Ok ("new-token", "refresh-1", email)
    /\ email <> "".
Proof.
  pose proof (code_exchange_outcome googleEnv grantingPeers "4/abc" main.redirectURI)
    as H.
  change (main.exchangeEndpoint grantingPeers
            (main.exchangeForm googleEnv "4/abc" main.redirectURI))
    with (main.ExchangeReplied (main.mkExchange "new-token" "refresh-1" "" "")) in H.
  cbv iota in H. destruct H as [_ H].
  destruct (H eq_refl) as [email [He [Hne _]]].
  exists email. split; [exact He|exact Hne].
Defined.

Lemma signin_account_syncs_without_refresh_witness :
  let w := main.mkWorld NewStore 0 [] in
  main.exchangeGoogleCode googleEnv grantingPeers "4/abc" main.redirectURI
  = Ok ("new-token", "refresh-1", "a@example.org")
  /\ After (main.clock googleEnv 2%nat) (Add (main.clock googleEnv 1%nat) Hour) = false
  /\ exists account w' more,
       main.gotCode googleEnv grantingPeers "4/abc" w = ((None, Some account), w')
       /\ Account.Name account = "Google - a@example.org"
       /\ main.calls w' = main.CalendarListGet "new-token" :: more
       /\ tokenPosts more = 0%nat.
Proof.
  intro w.
  assert (main.exchangeGoogleCode googleEnv grantingPeers "4/abc" main.redirectURI
          = Ok ("new-token", "refresh-1", "a@example.org")) as He by reflexivity.
  assert (After (main.clock googleEnv 2%nat) (Add (main.clock googleEnv 1%nat) Hour)
          = false) as Ha by reflexivity.
  split; [exact He|]. split; [exact Ha|].
  destruct (signin_account_syncs_without_refresh googleEnv grantingPeers "4/abc" w
              "new-token" "refresh-1" "a@example.org" He Ha)
    as [account [w' [more [Hrun [_ [Hname [_ [_ [_ [_ [Hcalls Hposts]]]]]]]]]]].
  exists account, w', more. split; [exact Hrun|]. split; [exact Hname|].
  split; [exact Hcalls|exact Hposts].
Defined.

Lemma truncate_spec_witness :
  5 < Z.of_nat (String.length "Team meeting")
  /\ (exists head,
        main.truncate "Team meeting" 5 = Some (head ++ main.ellipsis)
        /\ prefix head "Team meeting" = true
        /\ Z.of_nat (String.length head) = 4)
  /\ main.truncate "Team meeting" 0 = None.
Proof.
  assert (5 < Z.of_nat (String.length "Team meeting")) as Hl by (vm_compute; reflexivity).
  assert (0 < Z.of_nat (String.length "Team meeting")) as H0 by (vm_compute; reflexivity).
  split; [exact Hl|].
  destruct (truncate_spec "Team meeting" 5) as [_ [H2 _]].
  destruct (truncate_spec "Team meeting" 0) as [_ [_ H3]].
  split.
  - destruct (H2 Hl ltac:(lia)) as [head [Ht [Hp [Hn _]]]].
    exists head. split; [exact Ht|]. split; [exact Hp|exact Hn].
  - apply H3; [exact H0|lia].
Defined.

Lemma datesKeyedb_spec (format : main.Formatter) (instants : list Time) :
  datesKeyedb format instants = true -> datesKeyed format instants.
Proof.
  unfold datesKeyedb, datesKeyed. intros H a b Ha Hb.
  rewrite forallb_forall in H. specialize (H a Ha).
  rewrite forallb_forall in H. specialize (H b Hb).
  apply eqb_prop in H. rewrite <- H. symmetry. apply String.eqb_eq.
Qed.



Lemma sidebar_partitions_calendars_witness :
  consistent demoStore
  /\ calendars demoStore <> []
  /\ main.loadCalendars demoStore
     = [main.AccountSection "Local" [scanCalendar archiveRow; scanCalendar myCalendarRow]]
  /\ Forall (sectionOf demoStore) (main.loadCalendars demoStore).
Proof.
  assert (calendars demoStore <> []) as Hne by discriminate.
  split; [exact demoStore_consistent|]. split; [exact Hne|]. split; [reflexivity|].
  exact (proj1 (proj2 (sidebar_partitions_calendars demoStore demoStore_consistent) Hne)).
Defined.
